(** * The TCP file server of [server_script/tcp_server.py]

    A shallow embedding of the custom TCP protocol engine: the CRC8 table
    and the framing codec, the path sandbox, the chunked upload and
    download session handlers, the directory listing and the request
    dispatcher, followed by the properties established about them.

    Conventions of the embedding.
    - A Python [bytes] value is a [list byte]; a Python [int] is a [Z].
    - A Python [str] is the [string] of its UTF-8 bytes.  Comparing two
      [str] values by code point is comparing their UTF-8 encodings byte
      by byte, so ordering is not affected by this choice.
    - A function that can raise returns a [result]; a [try/except] is a
      [match] on it.
    - The server object [self] is the record [World] that is passed in and
      returned: the session tables, the file system under the handlers and
      the number of clock readings taken so far.

    What is left out or assumed.
    - Logging has no influence on a result and is left out.
    - The platform is POSIX, and [Path.resolve()] meets no symbolic link.
    - Creating, truncating and writing a file succeed when the path allows
      it (no quota, no size limit), and [socket.send] succeeds.
    - The content of a file is what its file objects have written: bytes
      that a file object still buffers count as written.
    - Reading the entries of a directory and the metadata of an entry can
      fail; the environment says when ([Env]).
    - The payload codec and the handlers that no property is about are
      parameters ([Env]). *)

From Stdlib Require Import ZArith Lia Strings.Byte Ascii String List.
From stdpp Require Import base decidable tactics option list strings gmap sets pretty sorting lexico orders.

Open Scope string_scope.
Open Scope list_scope.
Open Scope Z_scope.
Open Scope stdpp_scope.

(** ** Python values *)

Abbreviation bytes := (list byte).

#[global] Instance byte_eq_decision : EqDecision byte := Byte.byte_eq_dec.

Inductive exn :=
| ValueError (msg : string)
| StructError (msg : string)
| UnboundLocalError (msg : string)
| KeyError (msg : string)
| OSError (msg : string).

(** [str(e)] of an exception.  [str] of a [KeyError] is the [repr] of its
    key, here the key between single quotes. *)
Definition exn_str (e : exn) : string :=
  match e with
  | ValueError m | StructError m | UnboundLocalError m | OSError m => m
  | KeyError k => "'" +:+ k +:+ "'"
  end.

Inductive result (A : Type) :=
| Ok (a : A)
| Raise (e : exn).
Arguments Ok {A} a.
Arguments Raise {A} e.

Definition rbind {A B} (r : result A) (k : A -> result B) : result B :=
  match r with
  | Ok a => k a
  | Raise e => Raise e
  end.

Notation "x <- r ;;; k" := (rbind r (fun x => k))
  (at level 100, r at next level, right associativity).

(** The values stored in a response dictionary. *)
#[warnings="-register-all"]
Inductive Value :=
| VBool (b : bool)
| VInt (z : Z)
| VStr (s : string)
| VBytes (b : bytes)
| VList (l : list Value)
| VDict (d : list (string * Value)).

Abbreviation Response := (gmap string Value).

Definition byte_to_Z (b : byte) : Z := Z.of_N (Byte.to_N b).

(** [bytearray.append(v)]: the value has to be in [range(256)]. *)
Definition byte_of_Z (v : Z) : result byte :=
  if decide (0 <= v < 256) then
    match Byte.of_N (Z.to_N v) with
    | Some b => Ok b
    | None => Raise (ValueError "byte must be in range(0, 256)")
    end
  else Raise (ValueError "byte must be in range(0, 256)").

(** Python's [b[lo:hi]] for [0 <= lo <= hi]. *)
Definition slice {A} (lo hi : nat) (l : list A) : list A :=
  take (hi - lo) (drop lo l).

(** ** CRC8 *)

Definition CRC8_POLY : Z := 0x07.

Definition crc8_shift (poly crc : Z) : Z :=
  if decide (Z.land crc 0x80 = 0)
  then Z.land (Z.shiftl crc 1) 0xFF
  else Z.land (Z.lxor (Z.shiftl crc 1) poly) 0xFF.

Definition _build_crc8_table (poly : Z) : list Z :=
  map (fun value => Nat.iter 8 (crc8_shift poly) (Z.of_nat value)) (seq 0 256).

Definition CRC8_TABLE : list Z := Eval vm_compute in _build_crc8_table CRC8_POLY.

(** [CRC8_TABLE[i]]; the index is always in range (see [crc8_index_range]),
    an [IndexError] cannot occur. *)
Definition crc8_table_at (i : Z) : Z := nth (Z.to_nat i) CRC8_TABLE 0.

Definition calculate_crc8 (data : bytes) : Z :=
  fold_left (fun crc b => crc8_table_at (Z.lxor crc (byte_to_Z b))) data 0.

(** ** Framing codec *)

Record Frame := {
  command : Z;
  format : Z;
  sequence : Z;
  data : bytes;
  data_length : Z;
  crc : Z
}.

(** [struct.unpack('<I', b)] and [struct.unpack('<H', b)]: little-endian
    unsigned. *)
Fixpoint le_unpack (b : bytes) : Z :=
  match b with
  | [] => 0
  | x :: r => byte_to_Z x + 256 * le_unpack r
  end.

(** The [n] little-endian bytes of [v]. *)
Fixpoint le_bytes (n : nat) (v : Z) : bytes :=
  match n with
  | O => []
  | S n' =>
      match Byte.of_N (Z.to_N (v mod 256)) with
      | Some b => b :: le_bytes n' (v / 256)
      | None => []
      end
  end.

(** [struct.pack('<I', v)] / [struct.pack('<H', v)]: [struct.error] out of
    range. *)
Definition le_pack (n : nat) (v : Z) : result bytes :=
  if decide (0 <= v < 256 ^ Z.of_nat n) then Ok (le_bytes n v)
  else Raise (StructError "argument out of range").

(** The scan [for i in range(len(buffer) - 1)] for the bytes 0xAA 0x55. *)
Fixpoint find_magic (i : nat) (buffer : bytes) : option nat :=
  match buffer with
  | b0 :: (b1 :: _) as rest =>
      if decide (b0 = xaa /\ b1 = x55) then Some i else find_magic (S i) rest
  | _ => None
  end.

Definition MAX_FRAME_DATA : Z := 4 * 1024 * 1024.

Definition parse_frame (buffer : bytes) : option (Frame * Z) :=
  if decide (length buffer < 13)%nat then None else
  match find_magic 0 buffer with
  | None => None
  | Some magic_index =>
      (* the assignment is to the local name only *)
      let buffer := if decide (0 < magic_index)%nat then drop magic_index buffer else buffer in
      if decide (length buffer < 6)%nat then None else
      let data_length := le_unpack (slice 2 6 buffer) in
      if decide (data_length > MAX_FRAME_DATA) then None else
      let total_length := 13 + data_length in
      if decide (Z.of_nat (length buffer) < total_length) then None else
      let sequence := le_unpack (slice 6 8 buffer) in
      match buffer !! 8%nat, buffer !! 9%nat with
      | Some command, Some format_type =>
          let data_start := 10%nat in
          let data_end := (data_start + Z.to_nat data_length)%nat in
          let data := slice data_start data_end buffer in
          match buffer !! data_end with
          | Some crc8 =>
              (* a mismatch with [calculate_crc8 (slice 2 data_end buffer)]
                 is logged as a warning and has no other effect *)
              let trailer_pos := (data_end + 1)%nat in
              if decide (length buffer <= trailer_pos + 1)%nat then None else
              match buffer !! trailer_pos, buffer !! (trailer_pos + 1)%nat with
              | Some t0, Some t1 =>
                  let trailer := Z.lor (Z.shiftl (byte_to_Z t0) 8) (byte_to_Z t1) in
                  if decide (trailer <> 0x55AA) then None else
                  Some ({| command := byte_to_Z command;
                           format := byte_to_Z format_type;
                           sequence := sequence;
                           data := data;
                           data_length := data_length;
                           crc := byte_to_Z crc8 |}, total_length)
              | _, _ => None
              end
          | None => None
          end
      | _, _ => None
      end
  end.

(** The extraction done by the loop of [handle_frame_protocol], without the
    treatment of the frames: parse, drop the bytes consumed, go on until
    [parse_frame] gives nothing.  The result is the frames in order and the
    buffer left. *)
Fixpoint extract_frames (fuel : nat) (buffer : bytes) : list Frame * bytes :=
  match fuel with
  | O => ([], buffer)
  | S fuel' =>
      match parse_frame buffer with
      | None => ([], buffer)
      | Some (frame, consumed) =>
          let '(frames, rest) := extract_frames fuel' (drop (Z.to_nat consumed) buffer) in
          (frame :: frames, rest)
      end
  end.

(** The [data] argument of [build_response_frame]: a response dictionary,
    or raw bytes that are framed as they are. *)
Inductive FrameData :=
| DictData (resp : Response)
| BytesData (b : bytes).

Section Framing.

(** The wire encoder of response dictionaries ([encode_unified_response]);
    it can raise. *)
Variable encode_unified_response : Response -> result bytes.

Definition build_response_frame (command format_type : Z) (data : FrameData)
    (sequence : Z) : result bytes :=
  data_bytes <-
    match data with
    | DictData d =>
        match encode_unified_response d with
        | Ok b => Ok b
        | Raise e => Raise (ValueError ("仅支持Protobuf格式，编码失败: " +:+ exn_str e))
        end
    | BytesData b => Ok b
    end ;;;
  let data_length := Z.of_nat (length data_bytes) in
  len_bytes <- le_pack 4 data_length ;;;
  seq_bytes <- le_pack 2 sequence ;;;
  cmd_byte <- byte_of_Z command ;;;
  fmt_byte <- byte_of_Z format_type ;;;
  let frame := [xaa; x55] ++ len_bytes ++ seq_bytes ++ [cmd_byte; fmt_byte] ++ data_bytes in
  let crc_data := drop 2 frame in
  crc_byte <- byte_of_Z (calculate_crc8 crc_data) ;;;
  Ok (frame ++ [crc_byte] ++ [x55; xaa]).

End Framing.

(** ** Paths

    A [Path] is an absolute POSIX path, the list of its components below
    ["/"].  The paths that are resolved cross no symbolic link, so
    [Path.resolve()] is the lexical normalisation [resolve].  A root written
    with two slashes is identified with ["/"]. *)

Abbreviation Path := (list string).

Definition startswith (s pre : string) : bool := String.prefix pre s.

(** [s.split('/')] *)
Fixpoint split_slash (s : string) : list string :=
  match s with
  | EmptyString => [""]
  | String c r =>
      if decide (c = "/"%char) then "" :: split_slash r
      else match split_slash r with
           | p :: ps => String c p :: ps
           | [] => [String c ""]
           end
  end.

(** The components [pathlib] keeps of a path string: empty components and
    ["."] are dropped, [".."] is kept. *)
Definition path_parts (s : string) : list string :=
  filter (fun c => c <> "" /\ c <> ".") (split_slash s).

(** [base / s]: an absolute right operand replaces the left one. *)
Definition joinpath (base : Path) (s : string) : Path :=
  if startswith s "/" then path_parts s else base ++ path_parts s.

Definition resolve (p : Path) : Path :=
  fold_left (fun acc c => if decide (c = "..") then removelast acc else acc ++ [c]) p [].

(** [str(p)] *)
Definition path_str (p : Path) : string :=
  match p with
  | [] => "/"
  | _ => String.concat "" (map (fun c => "/" +:+ c) p)
  end.

(** [p.name] and [p.parent] *)
Definition path_name (p : Path) : string := List.last p "".
Definition path_parent (p : Path) : Path := removelast p.

(** [p.relative_to(base)]: the components of [p] below [base], a
    [ValueError] when [base] is not a leading part of [p]. *)
Definition relative_to (p base : Path) : result (list string) :=
  if decide (take (length base) p = base) then Ok (drop (length base) p)
  else Raise (ValueError (path_str p +:+ " is not in the subpath of " +:+ path_str base)).

(** [str] of a relative path *)
Definition rel_str (cs : list string) : string :=
  match cs with
  | [] => "."
  | _ => String.concat "/" cs
  end.

(** [s.replace(old, '/')] for a two-character [old] made of [c] twice. *)
Fixpoint replace_pair (c : ascii) (s : string) : string :=
  match s with
  | String a (String b r as t) =>
      if decide (a = c /\ b = c) then String "/" (replace_pair c r)
      else String a (replace_pair c t)
  | _ => s
  end.

(** ** File system, open files and sessions *)

Inductive Node :=
| Dir
| File (ino : nat).

Record UploadSession := {
  us_path : string;
  us_filename : string;
  us_file_path : Path;
  us_total_chunks : Z;
  us_chunk_size : Z;
  us_file_size : Z;
  us_start_time : Z;
  us_last_activity : Z;
  us_received_chunks : gset Z;
  us_bytes_received : Z;
  us_handle : option nat
}.

Record DownloadSession := {
  ds_path : string;
  ds_absolutePath : Path;
  ds_fileSize : Z;
  ds_chunkSize : Z;
  ds_totalChunks : Z;
  ds_nextChunk : Z;
  ds_bytesSent : Z;
  ds_startTime : Z;
  ds_clientId : string;
  ds_servedChunks : gset Z
}.

(** The state the handlers work on.
    - [fs] maps the paths that exist to a directory or to a file with its
      inode; ["/"] itself always is a directory.  [inodes] holds the file
      contents by inode number.
    - [handles] are the file objects created so far, by creation order: the
      inode a file object works on and whether it is still open.
    - [upload_sessions] is a Python [dict]: keys are kept in insertion
      order, which [handle_upload_data] depends on.
    - [ticks] counts the readings of [time.time()]. *)
Record World := {
  root_dir : Path;
  fs : gmap Path Node;
  inodes : list bytes;
  handles : list (nat * bool);
  upload_sessions : list (string * UploadSession);
  download_sessions : gmap string DownloadSession;
  ticks : nat
}.

Definition set_fs (w : World) (fs' : gmap Path Node) (inodes' : list bytes)
    (handles' : list (nat * bool)) : World :=
  {| root_dir := root_dir w; fs := fs'; inodes := inodes'; handles := handles';
     upload_sessions := upload_sessions w; download_sessions := download_sessions w;
     ticks := ticks w |}.

Definition set_upload_sessions (w : World) (us : list (string * UploadSession)) : World :=
  {| root_dir := root_dir w; fs := fs w; inodes := inodes w; handles := handles w;
     upload_sessions := us; download_sessions := download_sessions w;
     ticks := ticks w |}.

Definition set_download_sessions (w : World) (ds : gmap string DownloadSession) : World :=
  {| root_dir := root_dir w; fs := fs w; inodes := inodes w; handles := handles w;
     upload_sessions := upload_sessions w; download_sessions := ds;
     ticks := ticks w |}.

Definition set_ticks (w : World) (n : nat) : World :=
  {| root_dir := root_dir w; fs := fs w; inodes := inodes w; handles := handles w;
     upload_sessions := upload_sessions w; download_sessions := download_sessions w;
     ticks := n |}.

(** *** Python [dict] with insertion order *)

Fixpoint dict_get {V} (k : string) (d : list (string * V)) : option V :=
  match d with
  | [] => None
  | (k', v) :: r => if decide (k' = k) then Some v else dict_get k r
  end.

(** [d[k] = v]: an existing key keeps its position, a new one goes last. *)
Fixpoint dict_set {V} (k : string) (v : V) (d : list (string * V)) : list (string * V) :=
  match d with
  | [] => [(k, v)]
  | (k', v') :: r => if decide (k' = k) then (k, v) :: r else (k', v') :: dict_set k v r
  end.

(** [d.pop(k, None)]: the dictionary without [k]. *)
Definition dict_remove {V} (k : string) (d : list (string * V)) : list (string * V) :=
  filter (fun kv => kv.1 <> k) d.

(** [list(d.keys())[-1]] of a non-empty dictionary *)
Fixpoint dict_last_key {V} (d : list (string * V)) : option string :=
  match d with
  | [] => None
  | [(k, _)] => Some k
  | _ :: r => dict_last_key r
  end.

(** *** File-system primitives *)

Definition node_at (w : World) (p : Path) : option Node :=
  match p with
  | [] => Some Dir
  | _ => fs w !! p
  end.

Definition path_exists (w : World) (p : Path) : bool :=
  bool_decide (is_Some (node_at w p)).

Definition is_dir (w : World) (p : Path) : bool :=
  match node_at w p with Some Dir => true | _ => false end.

Definition is_file (w : World) (p : Path) : bool :=
  match node_at w p with Some (File _) => true | _ => false end.

(** [p.stat().st_size] of a regular file; the size reported for a directory
    is not used by the handlers modelled here. *)
Definition st_size (w : World) (p : Path) : result Z :=
  match node_at w p with
  | Some (File ino) => Ok (Z.of_nat (length (default [] (inodes w !! ino))))
  | Some Dir => Ok 4096
  | None => Raise (OSError ("[Errno 2] No such file or directory: '" +:+ path_str p +:+ "'"))
  end.

(** The paths directly below [d], in the order of the table. *)
Definition iterdir (w : World) (d : Path) : list Path :=
  filter (fun p => length p = S (length d) /\ take (length d) p = d)
         (fst <$> map_to_list (fs w)).

(** [p.mkdir(parents=True, exist_ok=True)], walking down from ["/"]. *)
Fixpoint mkdir_from (above : Path) (below : list string) (m : gmap Path Node)
    : result (gmap Path Node) :=
  match below with
  | [] => Ok m
  | c :: rest =>
      let p := above ++ [c] in
      match m !! p with
      | Some Dir => mkdir_from p rest m
      | Some (File _) =>
          Raise (OSError ("[Errno 17] File exists: '" +:+ path_str p +:+ "'"))
      | None => mkdir_from p rest (<[p := Dir]> m)
      end
  end.

Definition mkdir_parents (w : World) (p : Path) : result World :=
  m <- mkdir_from [] p (fs w) ;;;
  Ok (set_fs w m (inodes w) (handles w)).

(** [open(p, 'wb')]: the file is created or emptied; the new file object is
    the last of [handles]. *)
Definition open_wb (w : World) (p : Path) : result (nat * World) :=
  match node_at w p with
  | Some Dir => Raise (OSError ("[Errno 21] Is a directory: '" +:+ path_str p +:+ "'"))
  | Some (File ino) =>
      Ok (length (handles w),
          set_fs w (fs w) (<[ino := []]> (inodes w)) (handles w ++ [(ino, true)]))
  | None =>
      if is_dir w (path_parent p) then
        let ino := length (inodes w) in
        Ok (length (handles w),
            set_fs w (<[p := File ino]> (fs w)) (inodes w ++ [[]]) (handles w ++ [(ino, true)]))
      else Raise (OSError ("[Errno 2] No such file or directory: '" +:+ path_str p +:+ "'"))
  end.

(** [open(p, 'r+b')] and [open(p, 'rb')]: the file has to exist. *)
Definition open_existing (w : World) (p : Path) : result (nat * World) :=
  match node_at w p with
  | Some Dir => Raise (OSError ("[Errno 21] Is a directory: '" +:+ path_str p +:+ "'"))
  | Some (File ino) =>
      Ok (length (handles w), set_fs w (fs w) (inodes w) (handles w ++ [(ino, true)]))
  | None => Raise (OSError ("[Errno 2] No such file or directory: '" +:+ path_str p +:+ "'"))
  end.

(** The inode behind an open file object; using a closed one is a
    [ValueError]. *)
Definition handle_ino (w : World) (h : nat) : result nat :=
  match handles w !! h with
  | Some (ino, true) => Ok ino
  | _ => Raise (ValueError "I/O operation on closed file.")
  end.

(** [h.close()]; closing twice is allowed. *)
Definition close_handle (w : World) (h : nat) : World :=
  set_fs w (fs w) (inodes w) (alter (fun e => (e.1, false)) h (handles w)).

(** [h.truncate(size)]: cut, or extend with zero bytes. *)
Definition truncate_handle (w : World) (h : nat) (size : Z) : result World :=
  ino <- handle_ino w h ;;;
  let resize c := take (Z.to_nat size) c ++ replicate (Z.to_nat size - length c) x00 in
  Ok (set_fs w (fs w) (alter resize ino (inodes w)) (handles w)).

(** The content of a file after [seek(offset)] and [write(chunk)]: a gap
    behind the old end reads as zero bytes. *)
Definition pwrite (offset : nat) (chunk : bytes) (c : bytes) : bytes :=
  take offset c ++ replicate (offset - length c) x00 ++ chunk
    ++ drop (offset + length chunk) c.

(** [h.seek(offset)] followed by [h.write(chunk)]; a negative offset is
    refused by [seek]. *)
Definition seek_write (w : World) (h : nat) (offset : Z) (chunk : bytes) : result World :=
  ino <- handle_ino w h ;;;
  if decide (offset < 0) then Raise (OSError "[Errno 22] Invalid argument")
  else Ok (set_fs w (fs w) (alter (pwrite (Z.to_nat offset) chunk) ino (inodes w)) (handles w)).

(** [h.seek(offset)] followed by [h.read(size)]; a negative [size] reads to
    the end. *)
Definition seek_read (w : World) (h : nat) (offset size : Z) : result bytes :=
  ino <- handle_ino w h ;;;
  if decide (offset < 0) then Raise (OSError "[Errno 22] Invalid argument")
  else
    let rest := drop (Z.to_nat offset) (default [] (inodes w !! ino)) in
    Ok (if decide (size < 0) then rest else take (Z.to_nat size) rest).

(** ** Requests

    A decoded request.  The decoder fixes the type of every field it can
    set, so the dictionary is a record of optional fields; a key the decoder
    never sets ([action], [sessionId] at top level) is always absent.
    [req_options] is the [options] dictionary, empty when the key is
    absent: the handlers read it with [request.get('options', {})]. *)
Record Request := {
  req_operation : option string;
  req_path : option string;
  req_name : option string;
  req_data : option bytes;
  req_newName : option string;
  req_options : gmap string string;
  req_isChunk : option bool;
  req_chunkIndex : option Z;
  req_totalChunks : option Z;
  req_chunkHash : option string;
  req_clientId : option string;
  req_version : option string;
  req_supportedFormats : list string;
  req_filename : option string;
  req_fileSize : option Z;
  req_checksum : option string;
  req_chunkSize : option Z;
  req_preferredFormat : option string;
  req_newPath : option string;
  req_client_id : option string
}.

Definition set_operation (r : Request) (op : string) : Request :=
  {| req_operation := Some op; req_path := req_path r; req_name := req_name r;
     req_data := req_data r; req_newName := req_newName r; req_options := req_options r;
     req_isChunk := req_isChunk r; req_chunkIndex := req_chunkIndex r;
     req_totalChunks := req_totalChunks r; req_chunkHash := req_chunkHash r;
     req_clientId := req_clientId r; req_version := req_version r;
     req_supportedFormats := req_supportedFormats r; req_filename := req_filename r;
     req_fileSize := req_fileSize r; req_checksum := req_checksum r;
     req_chunkSize := req_chunkSize r; req_preferredFormat := req_preferredFormat r;
     req_newPath := req_newPath r; req_client_id := req_client_id r |}.

Definition set_client_id (r : Request) (c : string) : Request :=
  {| req_operation := req_operation r; req_path := req_path r; req_name := req_name r;
     req_data := req_data r; req_newName := req_newName r; req_options := req_options r;
     req_isChunk := req_isChunk r; req_chunkIndex := req_chunkIndex r;
     req_totalChunks := req_totalChunks r; req_chunkHash := req_chunkHash r;
     req_clientId := req_clientId r; req_version := req_version r;
     req_supportedFormats := req_supportedFormats r; req_filename := req_filename r;
     req_fileSize := req_fileSize r; req_checksum := req_checksum r;
     req_chunkSize := req_chunkSize r; req_preferredFormat := req_preferredFormat r;
     req_newPath := req_newPath r; req_client_id := Some c |}.

(** [d.get(k)] with an empty string counted as missing: the value of
    [options.get(k) or request.get(k)] when the request has no key [k]. *)
Definition get_nonempty (d : gmap string string) (k : string) : option string :=
  match d !! k with
  | Some "" => None
  | o => o
  end.

(** ** Constants *)

Definition MAX_STREAM_CHUNK_BYTES : Z := 4 * 1024 * 1024.
Definition DEFAULT_STREAM_CHUNK_BYTES : Z := 2 * 1024 * 1024.
Definition MIN_STREAM_CHUNK_BYTES : Z := 64 * 1024.

Definition CMD_PING : Z := 1.
Definition CMD_PONG : Z := 2.
Definition CMD_CONNECT : Z := 3.
Definition CMD_DISCONNECT : Z := 4.
Definition CMD_LIST_FILES : Z := 16.
Definition CMD_FILE_INFO : Z := 17.
Definition CMD_CREATE_DIR : Z := 18.
Definition CMD_DELETE_FILE : Z := 19.
Definition CMD_RENAME_FILE : Z := 20.
Definition CMD_UPLOAD_FILE : Z := 32.
Definition CMD_DOWNLOAD_FILE : Z := 33.
Definition CMD_UPLOAD_REQ : Z := 48.
Definition CMD_UPLOAD_DATA : Z := 49.
Definition CMD_UPLOAD_END : Z := 50.
Definition CMD_DOWNLOAD_REQ : Z := 51.
Definition CMD_DOWNLOAD_DATA : Z := 52.
Definition CMD_DOWNLOAD_END : Z := 53.
Definition FORMAT_PROTOBUF : Z := 0x02.

(** ** The environment of the handlers

    What the handlers take from outside the code verified here: the clock,
    [int()] on strings, the metadata reported by [stat] and [os.access] and
    the failures of [stat] and [iterdir] in a listing, the
    wire codec of the payloads and the handlers of the operations that no
    property below is about.  Every result holds for all of them. *)
Record Env := {
  (** the [n]-th reading of [time.time()], in microseconds *)
  clock : nat -> Z;
  (** [int(s)] of a [str]; [None] when it raises [ValueError] *)
  py_int : string -> option Z;
  (** [datetime.fromtimestamp(p.stat().st_mtime).isoformat()] *)
  stat_lastModified : World -> Path -> string;
  (** [oct(p.stat().st_mode)[-3:]] *)
  stat_permissions : World -> Path -> string;
  (** [os.access(p, os.W_OK)] *)
  access_W_OK : World -> Path -> bool;
  (** what [item.stat()] and the conversion of its time raise for an entry
      of a listing, if they raise: the entry has gone meanwhile, it is a
      symbolic link to nothing, the directory may not be searched *)
  stat_error : World -> Path -> option exn;
  (** what [target_path.iterdir()] raises, if it raises: the directory may
      not be read *)
  iterdir_error : World -> Path -> option exn;
  decode_protobuf_data : bytes -> Request;
  encode_unified_response : Response -> result bytes;
  handle_file_info : Request -> World -> result Response * World;
  handle_download_file : Request -> World -> result Response * World;
  handle_upload_file : Request -> World -> result Response * World;
  handle_delete_file : Request -> World -> result Response * World;
  handle_rename_file : Request -> World -> result Response * World;
  handle_create_directory : Request -> World -> result Response * World;
  handle_upload_end : Request -> World -> result Response * World
}.

Definition failure (msg : string) : Response :=
  list_to_map [("success", VBool false); ("message", VStr msg)].

Section Server.

Variable E : Env.

(** [time.time()] *)
Definition time_time (w : World) : Z * World :=
  (clock E (ticks w), set_ticks w (S (ticks w))).

(** [int(t * 1000)] of a reading [t] *)
Definition to_ms (t : Z) : Z := Z.quot t 1000.

(** ** Path sandbox *)

Definition get_safe_path (root : Path) (path : string) : result Path :=
  let path := if startswith path "/" then String.substring 1 (String.length path - 1) path
              else path in
  let target_path := resolve (joinpath root path) in
  if negb (startswith (path_str target_path) (path_str root))
  then Raise (ValueError ("路径超出安全范围: " +:+ path))
  else Ok target_path.

(** ** Ordering of paths

    [sorted] compares [Path] objects; on POSIX these compare as the lists of
    their components, each component by code point. *)

Definition str_key (s : string) : list N := map N_of_ascii (list_ascii_of_string s).
Definition path_key (p : Path) : list (list N) := map str_key p.

Definition path_lt (p q : Path) : Prop := lexico (path_key p) (path_key q).
Definition path_le (p q : Path) : Prop := path_lt p q \/ p = q.

#[global] Instance path_lt_dec : RelDecision path_lt :=
  fun p q => decide (lexico (path_key p) (path_key q)).

#[global] Instance path_le_dec : RelDecision path_le :=
  fun p q => decide (path_lt p q \/ p = q).

(** [sorted(paths)] *)
Definition sorted_paths (l : list Path) : list Path := merge_sort path_le l.

(** ** Handlers *)

Definition handle_ping (w : World) : Response :=
  list_to_map
    [("success", VBool true);
     ("message", VStr "pong");
     ("serverInfo", VDict [("name", VStr "Protobuf TCP文件服务器");
                           ("version", VStr "2.0.0");
                           ("protocol", VStr "Protobuf over TCP");
                           ("rootDir", VStr (path_str (root_dir w)))])].

Definition handle_connect (request : Request) (w : World) : Response * World :=
  let '(t, w) := time_time w in
  (list_to_map
     [("success", VBool true);
      ("message", VStr "Connected successfully (Protobuf-only)");
      ("selectedFormat", VStr "protobuf");
      ("serverInfo", VDict [("name", VStr "Protobuf TCP File Server");
                            ("version", VStr "2.0.0");
                            ("protocol", VStr "Protobuf over TCP");
                            ("supportedFormats", VList [VStr "protobuf"]);
                            ("rootDir", VStr (path_str (root_dir w)));
                            ("maxFileSize", VInt (100 * 1024 * 1024));
                            ("chunkSize", VInt (64 * 1024))]);
      ("timestamp", VInt (to_ms t))], w).

Definition handle_disconnect (request : Request) (w : World) : Response * World :=
  let '(t, w) := time_time w in
  (list_to_map
     [("success", VBool true);
      ("message", VStr "Disconnected successfully");
      ("timestamp", VInt (to_ms t))], w).

(** *** LIST_FILES *)

(** The body of the loop of [handle_list_files] for one entry; an entry for
    which it raises is skipped.  The first statement, [item.stat()], raises
    when the environment says so. *)
Definition file_info_of (w : World) (item : Path) : result Value :=
  match stat_error E w item with
  | Some e => Raise e
  | None =>
  size <- st_size w item ;;;
  rel <- relative_to item (root_dir w) ;;;
  let relative_path := "/" +:+ replace_pair "\"%char (rel_str rel) in
  Ok (VDict [("name", VStr (path_name item));
             ("path", VStr relative_path);
             ("type", VStr (if is_dir w item then "directory" else "file"));
             ("size", VInt (if is_file w item then size else 0));
             ("lastModified", VStr (stat_lastModified E w item +:+ "Z"));
             ("permissions", VStr (stat_permissions E w item));
             ("isReadonly", VBool (negb (access_W_OK E w item)))])
  end.

Definition list_entries (w : World) (target_path : Path) : list Value :=
  omap (fun item => match file_info_of w item with Ok fi => Some fi | Raise _ => None end)
       (sorted_paths (iterdir w target_path)).

Definition handle_list_files (request : Request) (w : World) : Response * World :=
  let path := default "/" (req_path request) in
  match get_safe_path (root_dir w) path with
  | Raise e => (failure ("列表操作失败: " +:+ exn_str e), w)
  | Ok target_path =>
      if negb (path_exists w target_path) then (failure ("路径不存在: " +:+ path), w)
      else if negb (is_dir w target_path) then (failure ("不是目录: " +:+ path), w)
      else
        match iterdir_error E w target_path with
        | Some e => (failure ("列表操作失败: " +:+ exn_str e), w)
        | None =>
            let files := list_entries w target_path in
            (list_to_map
               [("success", VBool true);
                ("message", VStr ("列出 " +:+ pretty (length files) +:+ " 个文件"));
                ("files", VList files);
                ("path", VStr path)], w)
        end
  end.

(** *** DOWNLOAD_REQ *)

Definition set_served (s : DownloadSession) (served : gset Z) (sent next : Z)
    : DownloadSession :=
  {| ds_path := ds_path s; ds_absolutePath := ds_absolutePath s;
     ds_fileSize := ds_fileSize s; ds_chunkSize := ds_chunkSize s;
     ds_totalChunks := ds_totalChunks s; ds_nextChunk := next;
     ds_bytesSent := sent; ds_startTime := ds_startTime s;
     ds_clientId := ds_clientId s; ds_servedChunks := served |}.

Definition download_except (e : exn) (w : World) : Response * World :=
  (failure ("分块下载失败: " +:+ exn_str e), w).

(** The branch [if action == 'start']. *)
Definition download_start (request : Request) (w : World) (file_path : string)
    (target_path : Path) : Response * World :=
  let options := req_options request in
  let client_id := default "unknown" (req_client_id request) in
  let requested_chunk :=
    match get_nonempty options "chunkSize" with
    | Some s => default DEFAULT_STREAM_CHUNK_BYTES (py_int E s)
    | None => default DEFAULT_STREAM_CHUNK_BYTES (req_chunkSize request)
    end in
  let chunk_bytes :=
    Z.max MIN_STREAM_CHUNK_BYTES (Z.min requested_chunk MAX_STREAM_CHUNK_BYTES) in
  match st_size w target_path with
  | Raise e => download_except e w
  | Ok file_size =>
      let total_chunks := Z.max 1 ((file_size + chunk_bytes - 1) / chunk_bytes) in
      let '(t, w) := time_time w in
      let session_id := "dl_" +:+ pretty (to_ms t) +:+ "_" +:+ path_name target_path in
      let '(start_time, w) := time_time w in
      let session :=
        {| ds_path := file_path; ds_absolutePath := target_path;
           ds_fileSize := file_size; ds_chunkSize := chunk_bytes;
           ds_totalChunks := total_chunks; ds_nextChunk := 0; ds_bytesSent := 0;
           ds_startTime := start_time; ds_clientId := client_id;
           ds_servedChunks := ∅ |} in
      (list_to_map
         [("success", VBool true);
          ("message", VStr "下载会话已创建");
          ("sessionId", VStr session_id);
          ("acceptedChunkSize", VInt chunk_bytes);
          ("totalChunks", VInt total_chunks);
          ("fileSize", VInt file_size);
          ("supportsResume", VBool true)],
       set_download_sessions w (<[session_id := session]> (download_sessions w)))
  end.

(** The statements from [session = self.download_sessions[session_id]] to
    the [return] of the chunk: they are at the level of the function body,
    not inside [if action == 'chunk']. *)
Definition download_chunk (request : Request) (w : World) (session_id : string)
    : Response * World :=
  match download_sessions w !! session_id with
  | None => download_except (KeyError session_id) w
  | Some session =>
      let chunk_size := ds_chunkSize session in
      let file_size := ds_fileSize session in
      let total_chunks := ds_totalChunks session in
      let absolute_path := ds_absolutePath session in
      let from_options :=
        match req_options request !! "chunkIndex" with
        | Some s => default (ds_nextChunk session) (py_int E s)
        | None => ds_nextChunk session
        end in
      let requested_index :=
        match req_chunkIndex request with
        | Some i => if decide (i = 0) then from_options else i
        | None => from_options
        end in
      if decide (requested_index < 0 \/ requested_index >= total_chunks) then
        (failure ("分块序号超出范围: " +:+ pretty requested_index +:+ "/"
                    +:+ pretty total_chunks), w)
      else
        let start_offset := requested_index * chunk_size in
        match open_existing w absolute_path with
        | Raise e => download_except e w
        | Ok (file_handle, w) =>
            match seek_read w file_handle start_offset chunk_size with
            | Raise e => download_except e (close_handle w file_handle)
            | Ok chunk_data =>
                let w := close_handle w file_handle in
                if decide (chunk_data = []) then
                  (list_to_map
                     [("success", VBool true);
                      ("message", VStr "已达文件末尾");
                      ("data", VBytes []);
                      ("fileSize", VInt file_size);
                      ("chunkIndex", VInt requested_index);
                      ("totalChunks", VInt total_chunks);
                      ("sessionId", VStr session_id);
                      ("done", VBool true)], w)
                else
                  let new := bool_decide (requested_index ∉ ds_servedChunks session) in
                  let served :=
                    if new then {[requested_index]} ∪ ds_servedChunks session
                    else ds_servedChunks session in
                  let sent :=
                    if new then ds_bytesSent session + Z.of_nat (length chunk_data)
                    else ds_bytesSent session in
                  let next := Z.max (ds_nextChunk session) (requested_index + 1) in
                  (list_to_map
                     [("success", VBool true);
                      ("message", VStr "块获取成功");
                      ("data", VBytes chunk_data);
                      ("fileSize", VInt file_size);
                      ("chunkIndex", VInt requested_index);
                      ("totalChunks", VInt total_chunks);
                      ("sessionId", VStr session_id)],
                   set_download_sessions w
                     (<[session_id := set_served session served sent next]>
                        (download_sessions w)))
            end
        end
  end.

(** The local variable [session_id] after [if action == 'chunk']: the
    function has returned, or the name is bound, or it is not. *)
Inductive chunk_guard :=
| GuardReturn
| GuardBound (session_id : string)
| GuardUnbound.

(** In the source, the blocks [if action == 'finish'] and
    [if action == 'abort'] come after the [return] that ends the chunk
    statements, inside the same [try]: no path reaches them. *)
Definition handle_download_req (request : Request) (w : World) : Response * World :=
  let file_path := default "" (req_path request) in
  if decide (file_path = "") then (failure "缺少文件路径参数", w) else
  match get_safe_path (root_dir w) file_path with
  | Raise e => download_except e w
  | Ok target_path =>
      if negb (path_exists w target_path) then (failure ("文件不存在: " +:+ file_path), w)
      else if negb (is_file w target_path) then (failure ("不是文件: " +:+ file_path), w)
      else
        let options := req_options request in
        match get_nonempty options "action" with
        | None => (failure "缺少下载动作参数", w)
        | Some action =>
            if decide (action = "start") then download_start request w file_path target_path
            else
              let guard :=
                if decide (action = "chunk") then
                  match get_nonempty options "sessionId" with
                  | Some sid =>
                      if decide (is_Some (download_sessions w !! sid)) then GuardBound sid
                      else GuardReturn
                  | None => GuardReturn
                  end
                else GuardUnbound in
              match guard with
              | GuardReturn => (failure "下载会话不存在或已结束", w)
              | GuardUnbound =>
                  download_except
                    (UnboundLocalError
                       "cannot access local variable 'session_id' where it is not associated with a value")
                    w
              | GuardBound session_id => download_chunk request w session_id
              end
        end
  end.

(** *** UPLOAD_REQ *)

Definition upload_req_except (e : exn) (w : World) : Response * World :=
  (failure ("创建上传会话失败: " +:+ exn_str e), w).

(** The pre-creation of the target file:
    [with open(full_path, 'wb') as f: if file_size > 0: f.truncate(file_size)]
    followed by [open(full_path, 'r+b')].  The result is the file object of
    the session, or the exception, with the state at that point. *)
Definition precreate_file (w : World) (full_path : Path) (file_size : Z)
    : result nat * World :=
  match open_wb w full_path with
  | Raise e => (Raise e, w)
  | Ok (f, w) =>
      match (if decide (file_size > 0) then truncate_handle w f file_size else Ok w) with
      | Raise e => (Raise e, close_handle w f)
      | Ok w =>
          let w := close_handle w f in
          match open_existing w full_path with
          | Raise e => (Raise e, w)
          | Ok (file_handle, w) => (Ok file_handle, w)
          end
      end
  end.

Definition handle_upload_req (request : Request) (w : World) : Response * World :=
  let path := default "/" (req_path request) in
  let filename := default "" (req_name request) in
  let file_size := default 0 (req_fileSize request) in
  let chunk_size := Z.min (default 65536 (req_chunkSize request)) (4 * 1024 * 1024) in
  let total_chunks := default 0 (req_totalChunks request) in
  let options := req_options request in
  if decide (filename = "") then (failure "缺少文件名参数", w) else
  let '(session_id, w) :=
    match get_nonempty options "sessionId" with
    | Some client_session_id => (client_session_id, w)
    | None =>
        let '(t, w) := time_time w in
        (pretty (to_ms t) +:+ "_" +:+ filename, w)
    end in
  (* existing_session = self.upload_sessions.pop(session_id, None) *)
  let existing_session := dict_get session_id (upload_sessions w) in
  let w := set_upload_sessions w (dict_remove session_id (upload_sessions w)) in
  let w :=
    match existing_session with
    | Some s => match us_handle s with Some handle => close_handle w handle | None => w end
    | None => w
    end in
  match (if decide (path = "/") then Ok (root_dir w) else get_safe_path (root_dir w) path) with
  | Raise e => upload_req_except e w
  | Ok target_dir =>
      let full_path := resolve (joinpath target_dir filename) in
      match mkdir_parents w (path_parent full_path) with
      | Raise e => upload_req_except e w
      | Ok w =>
          match precreate_file w full_path file_size with
          | (Raise e, w) => upload_req_except e w
          | (Ok file_handle, w) =>
              let total_chunks :=
                if decide (total_chunks <= 0 /\ chunk_size > 0)
                then Z.max 1 ((file_size + chunk_size - 1) / chunk_size)
                else total_chunks in
              let '(start_time, w) := time_time w in
              let '(last_activity, w) := time_time w in
              let session :=
                {| us_path := path; us_filename := filename;
                   us_file_path := full_path; us_total_chunks := total_chunks;
                   us_chunk_size := chunk_size; us_file_size := file_size;
                   us_start_time := start_time; us_last_activity := last_activity;
                   us_received_chunks := ∅; us_bytes_received := 0;
                   us_handle := Some file_handle |} in
              (list_to_map
                 [("success", VBool true);
                  ("message", VStr "上传会话已创建");
                  ("sessionId", VStr session_id);
                  ("acceptedChunkSize", VInt chunk_size)],
               set_upload_sessions w (dict_set session_id session (upload_sessions w)))
          end
      end
  end.

(** *** UPLOAD_DATA *)

Definition set_activity (s : UploadSession) (t : Z) : UploadSession :=
  {| us_path := us_path s; us_filename := us_filename s; us_file_path := us_file_path s;
     us_total_chunks := us_total_chunks s; us_chunk_size := us_chunk_size s;
     us_file_size := us_file_size s; us_start_time := us_start_time s;
     us_last_activity := t; us_received_chunks := us_received_chunks s;
     us_bytes_received := us_bytes_received s; us_handle := us_handle s |}.

Definition set_handle (s : UploadSession) (h : option nat) : UploadSession :=
  {| us_path := us_path s; us_filename := us_filename s; us_file_path := us_file_path s;
     us_total_chunks := us_total_chunks s; us_chunk_size := us_chunk_size s;
     us_file_size := us_file_size s; us_start_time := us_start_time s;
     us_last_activity := us_last_activity s; us_received_chunks := us_received_chunks s;
     us_bytes_received := us_bytes_received s; us_handle := h |}.

Definition set_received (s : UploadSession) (received : gset Z) (n : Z) : UploadSession :=
  {| us_path := us_path s; us_filename := us_filename s; us_file_path := us_file_path s;
     us_total_chunks := us_total_chunks s; us_chunk_size := us_chunk_size s;
     us_file_size := us_file_size s; us_start_time := us_start_time s;
     us_last_activity := us_last_activity s; us_received_chunks := received;
     us_bytes_received := n; us_handle := us_handle s |}.

Definition upload_data_except (e : exn) (w : World) : Response * World :=
  (failure ("接收数据块失败: " +:+ exn_str e), w).

(** The session is a dictionary held by the table and changed in place:
    every change is written back under its key at once, so that the changes
    made before an exception stay. *)
Definition handle_upload_data (request : Request) (w : World) : Response * World :=
  let options := req_options request in
  let chosen :=
    match get_nonempty options "sessionId" with
    | Some sid => Some sid
    | None => dict_last_key (upload_sessions w)
    end in
  match chosen with
  | None => (failure "没有活动的上传会话", w)
  | Some session_id =>
      match dict_get session_id (upload_sessions w) with
      | None => (failure ("上传会话不存在: " +:+ session_id), w)
      | Some session =>
          let '(t, w) := time_time w in
          let session := set_activity session t in
          let w := set_upload_sessions w (dict_set session_id session (upload_sessions w)) in
          let chunk_index := default 0 (req_chunkIndex request) in
          let chunk_data := default [] (req_data request) in
          let total_chunks := default (us_total_chunks session) (req_totalChunks request) in
          (* the decoder yields [bytes]: they are used as they are *)
          let decoded_data := chunk_data in
          let offset := chunk_index * us_chunk_size session in
          let opened :=
            match us_handle session with
            | Some file_handle => Ok (file_handle, session, w)
            | None =>
                match open_existing w (us_file_path session) with
                | Raise e => Raise e
                | Ok (file_handle, w) =>
                    let session := set_handle session (Some file_handle) in
                    Ok (file_handle, session,
                        set_upload_sessions w
                          (dict_set session_id session (upload_sessions w)))
                end
            end in
          match opened with
          | Raise e => upload_data_except e w
          | Ok (file_handle, session, w) =>
              match seek_write w file_handle offset decoded_data with
              | Raise e => upload_data_except e w
              | Ok w =>
                  let was_received := bool_decide (chunk_index ∈ us_received_chunks session) in
                  let received := {[chunk_index]} ∪ us_received_chunks session in
                  let bytes_received :=
                    if was_received then us_bytes_received session
                    else us_bytes_received session + Z.of_nat (length decoded_data) in
                  let session := set_received session received bytes_received in
                  (list_to_map
                     [("success", VBool true);
                      ("message", VStr ("数据块 " +:+ pretty chunk_index +:+ " 接收成功"));
                      ("sessionId", VStr session_id);
                      ("chunkIndex", VInt chunk_index);
                      ("receivedChunks", VInt (Z.of_nat (size received)));
                      ("totalChunks", VInt total_chunks)],
                   set_upload_sessions w (dict_set session_id session (upload_sessions w)))
              end
          end
      end
  end.

(** ** Dispatcher *)

(** [s.lower()] on the ASCII letters; the operation names are ASCII. *)
Definition ascii_lower (c : ascii) : ascii :=
  let n := nat_of_ascii c in
  if decide (65 <= n <= 90)%nat then ascii_of_nat (n + 32) else c.

Fixpoint str_lower (s : string) : string :=
  match s with
  | EmptyString => EmptyString
  | String c r => String (ascii_lower c) (str_lower r)
  end.

Definition handled (rw : Response * World) : result Response * World := (Ok rw.1, rw.2).

Definition dispatch (operation : string) (request : Request) (w : World)
    : result Response * World :=
  if decide (str_lower operation = "ping") then (Ok (handle_ping w), w)
  else if decide (operation = "LIST_FILES" \/ operation = "list_files")
  then handled (handle_list_files request w)
  else if decide (operation = "FILE_INFO" \/ operation = "file_info")
  then handle_file_info E request w
  else if decide (operation = "DOWNLOAD_FILE" \/ operation = "download_file")
  then handle_download_file E request w
  else if decide (operation = "DOWNLOAD_REQ" \/ operation = "download_req")
  then handled (handle_download_req request w)
  else if decide (operation = "UPLOAD_FILE" \/ operation = "upload_file")
  then handle_upload_file E request w
  else if decide (operation = "DELETE_FILE" \/ operation = "delete_file")
  then handle_delete_file E request w
  else if decide (operation = "RENAME_FILE" \/ operation = "rename_file")
  then handle_rename_file E request w
  else if decide (operation = "CREATE_DIR" \/ operation = "create_directory")
  then handle_create_directory E request w
  else if decide (operation = "UPLOAD_REQ") then handled (handle_upload_req request w)
  else if decide (operation = "UPLOAD_DATA") then handled (handle_upload_data request w)
  else if decide (operation = "UPLOAD_END") then handle_upload_end E request w
  else if decide (operation = "DISCONNECT") then handled (handle_disconnect request w)
  else (Ok (failure ("不支持的操作: " +:+ operation)), w).

Definition process_request (request : Request) (w : World) : Response * World :=
  let '(start_time, w) := time_time w in
  let operation := default "" (req_operation request) in
  let '(outcome, w) := dispatch operation request w in
  let '(t1, w) := time_time w in
  let '(t2, w) := time_time w in
  match outcome with
  | Ok response =>
      (<["timestamp" := VInt (to_ms t2)]>
         (<["processTimeMs" := VInt (to_ms (t1 - start_time))]> response), w)
  | Raise e =>
      (list_to_map
         [("success", VBool false);
          ("message", VStr ("操作失败: " +:+ exn_str e));
          ("processTimeMs", VInt (to_ms (t1 - start_time)));
          ("timestamp", VInt (to_ms t2))], w)
  end.

Definition command_map (command : Z) : string :=
  if decide (command = CMD_CONNECT) then "CONNECT"
  else if decide (command = CMD_DISCONNECT) then "DISCONNECT"
  else if decide (command = CMD_PING) then "ping"
  else if decide (command = CMD_LIST_FILES) then "list_files"
  else if decide (command = CMD_FILE_INFO) then "file_info"
  else if decide (command = CMD_DOWNLOAD_FILE) then "download_file"
  else if decide (command = CMD_UPLOAD_FILE) then "upload_file"
  else if decide (command = CMD_DELETE_FILE) then "delete_file"
  else if decide (command = CMD_RENAME_FILE) then "rename_file"
  else if decide (command = CMD_CREATE_DIR) then "create_directory"
  else if decide (command = CMD_DOWNLOAD_REQ) then "download_req"
  else "".

Definition process_frame_request (command : Z) (request : Request) (w : World)
    : Response * World :=
  let operation := command_map command in
  let request :=
    match req_operation request with
    | Some _ => request
    | None => set_operation request operation
    end in
  if decide (command = CMD_CONNECT) then handle_connect request w
  else process_request request w.

(** ** Connection pump *)

(** The [error_response] sent for a frame whose format is not
    [FORMAT_PROTOBUF]; [t] is the reading of [time.time()]. *)
Definition unsupported_format_response (t : Z) : Response :=
  list_to_map
    [("success", VBool false);
     ("message", VStr "仅支持Protobuf格式 (0x02)");
     ("timestamp", VInt (to_ms t))].

(** The loop of [handle_frame_protocol].  Every turn that goes on removes at
    least 13 bytes from the buffer, so [fuel] turns are enough for a buffer
    of [fuel] bytes ([frame_loop_fuel]).  The result is the buffer left (or
    the exception that ends the connection), the frames sent and the
    state. *)
Fixpoint frame_loop (fuel : nat) (client_id : string) (buffer : bytes)
    (sent : list bytes) (w : World) : result bytes * list bytes * World :=
  match fuel with
  | O => (Ok buffer, sent, w)
  | S fuel' =>
      match parse_frame buffer with
      | None => (Ok buffer, sent, w)
      | Some (frame, consumed) =>
          let buffer := drop (Z.to_nat consumed) buffer in
          if decide (format frame <> FORMAT_PROTOBUF) then
            let '(t, w) := time_time w in
            let error_response := unsupported_format_response t in
            match build_response_frame (encode_unified_response E) (command frame)
                    FORMAT_PROTOBUF (DictData error_response) (sequence frame) with
            | Raise e => (Raise e, sent, w)
            | Ok error_frame => frame_loop fuel' client_id buffer (sent ++ [error_frame]) w
            end
          else
            let request_data := set_client_id (decode_protobuf_data E (data frame)) client_id in
            let '(response, w) := process_frame_request (command frame) request_data w in
            match build_response_frame (encode_unified_response E) (command frame)
                    FORMAT_PROTOBUF (DictData response) (sequence frame) with
            | Raise e => (Raise e, sent, w)
            | Ok response_frame =>
                frame_loop fuel' client_id buffer (sent ++ [response_frame]) w
            end
      end
  end.

Definition handle_frame_protocol (client_id : string) (buffer : bytes) (w : World)
    : result bytes * list bytes * World :=
  frame_loop (length buffer) client_id buffer [] w.

End Server.

(** * More of [server_script/tcp_server.py]

    The decoder of request payloads with the encoder primitives, the
    handlers FILE_INFO, DOWNLOAD_FILE, DELETE_FILE and UPLOAD_END, and the
    loop of a connection.  They are the members of the class of the same
    names; where the name of a member is a field of [Env], the member is in
    the module [ProtobufTcpServer].

    Further conventions.
    - A [str] is the [string] of its UTF-8 bytes, so [bytes.decode('utf-8')]
      is a check of the bytes and [str.encode('utf-8')] always succeeds.
    - Removing a file or a tree succeeds when the path allows it (no
      permission is missing). *)

(** ** Updates of a request dictionary *)

Definition set_path (r : Request) (v : string) : Request :=
  {| req_operation := req_operation r; req_path := Some v; req_name := req_name r;
     req_data := req_data r; req_newName := req_newName r; req_options := req_options r;
     req_isChunk := req_isChunk r; req_chunkIndex := req_chunkIndex r;
     req_totalChunks := req_totalChunks r; req_chunkHash := req_chunkHash r;
     req_clientId := req_clientId r; req_version := req_version r;
     req_supportedFormats := req_supportedFormats r; req_filename := req_filename r;
     req_fileSize := req_fileSize r; req_checksum := req_checksum r;
     req_chunkSize := req_chunkSize r; req_preferredFormat := req_preferredFormat r;
     req_newPath := req_newPath r; req_client_id := req_client_id r |}.

Definition set_name (r : Request) (v : string) : Request :=
  {| req_operation := req_operation r; req_path := req_path r; req_name := Some v;
     req_data := req_data r; req_newName := req_newName r; req_options := req_options r;
     req_isChunk := req_isChunk r; req_chunkIndex := req_chunkIndex r;
     req_totalChunks := req_totalChunks r; req_chunkHash := req_chunkHash r;
     req_clientId := req_clientId r; req_version := req_version r;
     req_supportedFormats := req_supportedFormats r; req_filename := req_filename r;
     req_fileSize := req_fileSize r; req_checksum := req_checksum r;
     req_chunkSize := req_chunkSize r; req_preferredFormat := req_preferredFormat r;
     req_newPath := req_newPath r; req_client_id := req_client_id r |}.

Definition set_data (r : Request) (v : bytes) : Request :=
  {| req_operation := req_operation r; req_path := req_path r; req_name := req_name r;
     req_data := Some v; req_newName := req_newName r; req_options := req_options r;
     req_isChunk := req_isChunk r; req_chunkIndex := req_chunkIndex r;
     req_totalChunks := req_totalChunks r; req_chunkHash := req_chunkHash r;
     req_clientId := req_clientId r; req_version := req_version r;
     req_supportedFormats := req_supportedFormats r; req_filename := req_filename r;
     req_fileSize := req_fileSize r; req_checksum := req_checksum r;
     req_chunkSize := req_chunkSize r; req_preferredFormat := req_preferredFormat r;
     req_newPath := req_newPath r; req_client_id := req_client_id r |}.

Definition set_newName (r : Request) (v : string) : Request :=
  {| req_operation := req_operation r; req_path := req_path r; req_name := req_name r;
     req_data := req_data r; req_newName := Some v; req_options := req_options r;
     req_isChunk := req_isChunk r; req_chunkIndex := req_chunkIndex r;
     req_totalChunks := req_totalChunks r; req_chunkHash := req_chunkHash r;
     req_clientId := req_clientId r; req_version := req_version r;
     req_supportedFormats := req_supportedFormats r; req_filename := req_filename r;
     req_fileSize := req_fileSize r; req_checksum := req_checksum r;
     req_chunkSize := req_chunkSize r; req_preferredFormat := req_preferredFormat r;
     req_newPath := req_newPath r; req_client_id := req_client_id r |}.

Definition set_options (r : Request) (v : gmap string string) : Request :=
  {| req_operation := req_operation r; req_path := req_path r; req_name := req_name r;
     req_data := req_data r; req_newName := req_newName r; req_options := v;
     req_isChunk := req_isChunk r; req_chunkIndex := req_chunkIndex r;
     req_totalChunks := req_totalChunks r; req_chunkHash := req_chunkHash r;
     req_clientId := req_clientId r; req_version := req_version r;
     req_supportedFormats := req_supportedFormats r; req_filename := req_filename r;
     req_fileSize := req_fileSize r; req_checksum := req_checksum r;
     req_chunkSize := req_chunkSize r; req_preferredFormat := req_preferredFormat r;
     req_newPath := req_newPath r; req_client_id := req_client_id r |}.

Definition set_isChunk (r : Request) (v : bool) : Request :=
  {| req_operation := req_operation r; req_path := req_path r; req_name := req_name r;
     req_data := req_data r; req_newName := req_newName r; req_options := req_options r;
     req_isChunk := Some v; req_chunkIndex := req_chunkIndex r;
     req_totalChunks := req_totalChunks r; req_chunkHash := req_chunkHash r;
     req_clientId := req_clientId r; req_version := req_version r;
     req_supportedFormats := req_supportedFormats r; req_filename := req_filename r;
     req_fileSize := req_fileSize r; req_checksum := req_checksum r;
     req_chunkSize := req_chunkSize r; req_preferredFormat := req_preferredFormat r;
     req_newPath := req_newPath r; req_client_id := req_client_id r |}.

Definition set_chunkIndex (r : Request) (v : Z) : Request :=
  {| req_operation := req_operation r; req_path := req_path r; req_name := req_name r;
     req_data := req_data r; req_newName := req_newName r; req_options := req_options r;
     req_isChunk := req_isChunk r; req_chunkIndex := Some v;
     req_totalChunks := req_totalChunks r; req_chunkHash := req_chunkHash r;
     req_clientId := req_clientId r; req_version := req_version r;
     req_supportedFormats := req_supportedFormats r; req_filename := req_filename r;
     req_fileSize := req_fileSize r; req_checksum := req_checksum r;
     req_chunkSize := req_chunkSize r; req_preferredFormat := req_preferredFormat r;
     req_newPath := req_newPath r; req_client_id := req_client_id r |}.

Definition set_totalChunks (r : Request) (v : Z) : Request :=
  {| req_operation := req_operation r; req_path := req_path r; req_name := req_name r;
     req_data := req_data r; req_newName := req_newName r; req_options := req_options r;
     req_isChunk := req_isChunk r; req_chunkIndex := req_chunkIndex r;
     req_totalChunks := Some v; req_chunkHash := req_chunkHash r;
     req_clientId := req_clientId r; req_version := req_version r;
     req_supportedFormats := req_supportedFormats r; req_filename := req_filename r;
     req_fileSize := req_fileSize r; req_checksum := req_checksum r;
     req_chunkSize := req_chunkSize r; req_preferredFormat := req_preferredFormat r;
     req_newPath := req_newPath r; req_client_id := req_client_id r |}.

Definition set_chunkHash (r : Request) (v : string) : Request :=
  {| req_operation := req_operation r; req_path := req_path r; req_name := req_name r;
     req_data := req_data r; req_newName := req_newName r; req_options := req_options r;
     req_isChunk := req_isChunk r; req_chunkIndex := req_chunkIndex r;
     req_totalChunks := req_totalChunks r; req_chunkHash := Some v;
     req_clientId := req_clientId r; req_version := req_version r;
     req_supportedFormats := req_supportedFormats r; req_filename := req_filename r;
     req_fileSize := req_fileSize r; req_checksum := req_checksum r;
     req_chunkSize := req_chunkSize r; req_preferredFormat := req_preferredFormat r;
     req_newPath := req_newPath r; req_client_id := req_client_id r |}.

Definition set_clientId (r : Request) (v : string) : Request :=
  {| req_operation := req_operation r; req_path := req_path r; req_name := req_name r;
     req_data := req_data r; req_newName := req_newName r; req_options := req_options r;
     req_isChunk := req_isChunk r; req_chunkIndex := req_chunkIndex r;
     req_totalChunks := req_totalChunks r; req_chunkHash := req_chunkHash r;
     req_clientId := Some v; req_version := req_version r;
     req_supportedFormats := req_supportedFormats r; req_filename := req_filename r;
     req_fileSize := req_fileSize r; req_checksum := req_checksum r;
     req_chunkSize := req_chunkSize r; req_preferredFormat := req_preferredFormat r;
     req_newPath := req_newPath r; req_client_id := req_client_id r |}.

Definition set_version (r : Request) (v : string) : Request :=
  {| req_operation := req_operation r; req_path := req_path r; req_name := req_name r;
     req_data := req_data r; req_newName := req_newName r; req_options := req_options r;
     req_isChunk := req_isChunk r; req_chunkIndex := req_chunkIndex r;
     req_totalChunks := req_totalChunks r; req_chunkHash := req_chunkHash r;
     req_clientId := req_clientId r; req_version := Some v;
     req_supportedFormats := req_supportedFormats r; req_filename := req_filename r;
     req_fileSize := req_fileSize r; req_checksum := req_checksum r;
     req_chunkSize := req_chunkSize r; req_preferredFormat := req_preferredFormat r;
     req_newPath := req_newPath r; req_client_id := req_client_id r |}.

Definition set_supportedFormats (r : Request) (v : list string) : Request :=
  {| req_operation := req_operation r; req_path := req_path r; req_name := req_name r;
     req_data := req_data r; req_newName := req_newName r; req_options := req_options r;
     req_isChunk := req_isChunk r; req_chunkIndex := req_chunkIndex r;
     req_totalChunks := req_totalChunks r; req_chunkHash := req_chunkHash r;
     req_clientId := req_clientId r; req_version := req_version r; req_supportedFormats := v;
     req_filename := req_filename r; req_fileSize := req_fileSize r;
     req_checksum := req_checksum r; req_chunkSize := req_chunkSize r;
     req_preferredFormat := req_preferredFormat r; req_newPath := req_newPath r;
     req_client_id := req_client_id r |}.

Definition set_filename (r : Request) (v : string) : Request :=
  {| req_operation := req_operation r; req_path := req_path r; req_name := req_name r;
     req_data := req_data r; req_newName := req_newName r; req_options := req_options r;
     req_isChunk := req_isChunk r; req_chunkIndex := req_chunkIndex r;
     req_totalChunks := req_totalChunks r; req_chunkHash := req_chunkHash r;
     req_clientId := req_clientId r; req_version := req_version r;
     req_supportedFormats := req_supportedFormats r; req_filename := Some v;
     req_fileSize := req_fileSize r; req_checksum := req_checksum r;
     req_chunkSize := req_chunkSize r; req_preferredFormat := req_preferredFormat r;
     req_newPath := req_newPath r; req_client_id := req_client_id r |}.

Definition set_fileSize (r : Request) (v : Z) : Request :=
  {| req_operation := req_operation r; req_path := req_path r; req_name := req_name r;
     req_data := req_data r; req_newName := req_newName r; req_options := req_options r;
     req_isChunk := req_isChunk r; req_chunkIndex := req_chunkIndex r;
     req_totalChunks := req_totalChunks r; req_chunkHash := req_chunkHash r;
     req_clientId := req_clientId r; req_version := req_version r;
     req_supportedFormats := req_supportedFormats r; req_filename := req_filename r;
     req_fileSize := Some v; req_checksum := req_checksum r; req_chunkSize := req_chunkSize r;
     req_preferredFormat := req_preferredFormat r; req_newPath := req_newPath r;
     req_client_id := req_client_id r |}.

Definition set_checksum (r : Request) (v : string) : Request :=
  {| req_operation := req_operation r; req_path := req_path r; req_name := req_name r;
     req_data := req_data r; req_newName := req_newName r; req_options := req_options r;
     req_isChunk := req_isChunk r; req_chunkIndex := req_chunkIndex r;
     req_totalChunks := req_totalChunks r; req_chunkHash := req_chunkHash r;
     req_clientId := req_clientId r; req_version := req_version r;
     req_supportedFormats := req_supportedFormats r; req_filename := req_filename r;
     req_fileSize := req_fileSize r; req_checksum := Some v; req_chunkSize := req_chunkSize r;
     req_preferredFormat := req_preferredFormat r; req_newPath := req_newPath r;
     req_client_id := req_client_id r |}.

Definition set_chunkSize (r : Request) (v : Z) : Request :=
  {| req_operation := req_operation r; req_path := req_path r; req_name := req_name r;
     req_data := req_data r; req_newName := req_newName r; req_options := req_options r;
     req_isChunk := req_isChunk r; req_chunkIndex := req_chunkIndex r;
     req_totalChunks := req_totalChunks r; req_chunkHash := req_chunkHash r;
     req_clientId := req_clientId r; req_version := req_version r;
     req_supportedFormats := req_supportedFormats r; req_filename := req_filename r;
     req_fileSize := req_fileSize r; req_checksum := req_checksum r; req_chunkSize := Some v;
     req_preferredFormat := req_preferredFormat r; req_newPath := req_newPath r;
     req_client_id := req_client_id r |}.

Definition set_preferredFormat (r : Request) (v : string) : Request :=
  {| req_operation := req_operation r; req_path := req_path r; req_name := req_name r;
     req_data := req_data r; req_newName := req_newName r; req_options := req_options r;
     req_isChunk := req_isChunk r; req_chunkIndex := req_chunkIndex r;
     req_totalChunks := req_totalChunks r; req_chunkHash := req_chunkHash r;
     req_clientId := req_clientId r; req_version := req_version r;
     req_supportedFormats := req_supportedFormats r; req_filename := req_filename r;
     req_fileSize := req_fileSize r; req_checksum := req_checksum r;
     req_chunkSize := req_chunkSize r; req_preferredFormat := Some v;
     req_newPath := req_newPath r; req_client_id := req_client_id r |}.

Definition set_newPath (r : Request) (v : string) : Request :=
  {| req_operation := req_operation r; req_path := req_path r; req_name := req_name r;
     req_data := req_data r; req_newName := req_newName r; req_options := req_options r;
     req_isChunk := req_isChunk r; req_chunkIndex := req_chunkIndex r;
     req_totalChunks := req_totalChunks r; req_chunkHash := req_chunkHash r;
     req_clientId := req_clientId r; req_version := req_version r;
     req_supportedFormats := req_supportedFormats r; req_filename := req_filename r;
     req_fileSize := req_fileSize r; req_checksum := req_checksum r;
     req_chunkSize := req_chunkSize r; req_preferredFormat := req_preferredFormat r;
     req_newPath := Some v; req_client_id := req_client_id r |}.

(** The empty dictionary [{}]. *)
Definition request_empty : Request :=
  {| req_operation := None; req_path := None; req_name := None; req_data := None;
     req_newName := None; req_options := ∅; req_isChunk := None; req_chunkIndex := None;
     req_totalChunks := None; req_chunkHash := None; req_clientId := None;
     req_version := None; req_supportedFormats := []; req_filename := None;
     req_fileSize := None; req_checksum := None; req_chunkSize := None;
     req_preferredFormat := None; req_newPath := None; req_client_id := None |}.

(** [bool(request)]: the dictionary has a key.  The keys [options] and
    [supportedFormats] are only created with an element. *)
Definition request_nonempty (r : Request) : bool :=
  bool_decide (is_Some (req_operation r)) || bool_decide (is_Some (req_path r))
  || bool_decide (is_Some (req_name r)) || bool_decide (is_Some (req_data r))
  || bool_decide (is_Some (req_newName r)) || bool_decide (req_options r <> ∅)
  || bool_decide (is_Some (req_isChunk r)) || bool_decide (is_Some (req_chunkIndex r))
  || bool_decide (is_Some (req_totalChunks r)) || bool_decide (is_Some (req_chunkHash r))
  || bool_decide (is_Some (req_clientId r)) || bool_decide (is_Some (req_version r))
  || bool_decide (req_supportedFormats r <> []) || bool_decide (is_Some (req_filename r))
  || bool_decide (is_Some (req_fileSize r)) || bool_decide (is_Some (req_checksum r))
  || bool_decide (is_Some (req_chunkSize r)) || bool_decide (is_Some (req_preferredFormat r))
  || bool_decide (is_Some (req_newPath r)) || bool_decide (is_Some (req_client_id r)).

(** ** UTF-8 *)

Definition byte_in (lo hi : Z) (b : byte) : bool :=
  (lo <=? byte_to_Z b) && (byte_to_Z b <=? hi).

(** The byte sequences that [bytes.decode('utf-8')] accepts: well-formed
    UTF-8, without overlong forms, surrogates and code points above
    U+10FFFF. *)
Fixpoint utf8_valid (b : bytes) : bool :=
  match b with
  | [] => true
  | b0 :: r =>
      if byte_in 0x00 0x7F b0 then utf8_valid r
      else if byte_in 0xC2 0xDF b0 then
        match r with
        | b1 :: r1 => byte_in 0x80 0xBF b1 && utf8_valid r1
        | _ => false
        end
      else if byte_in 0xE0 0xEF b0 then
        match r with
        | b1 :: b2 :: r2 =>
            (if byte_in 0xE0 0xE0 b0 then byte_in 0xA0 0xBF b1
             else if byte_in 0xED 0xED b0 then byte_in 0x80 0x9F b1
             else byte_in 0x80 0xBF b1)
            && byte_in 0x80 0xBF b2 && utf8_valid r2
        | _ => false
        end
      else if byte_in 0xF0 0xF4 b0 then
        match r with
        | b1 :: b2 :: b3 :: r3 =>
            (if byte_in 0xF0 0xF0 b0 then byte_in 0x90 0xBF b1
             else if byte_in 0xF4 0xF4 b0 then byte_in 0x80 0x8F b1
             else byte_in 0x80 0xBF b1)
            && byte_in 0x80 0xBF b2 && byte_in 0x80 0xBF b3 && utf8_valid r3
        | _ => false
        end
      else false
  end.

(** [b.decode('utf-8')] and [s.encode('utf-8')] *)
Definition utf8_decode (b : bytes) : result string :=
  if utf8_valid b then Ok (string_of_list_byte b)
  else Raise (ValueError "'utf-8' codec can't decode bytes: invalid data").

Definition utf8_encode (s : string) : bytes := list_byte_of_string s.

(** [bytearray.append(v)] for a value that is in [range(256)]. *)
Definition byte_of (v : Z) : byte :=
  match Byte.of_N (Z.to_N v) with
  | Some b => b
  | None => x00
  end.

Module ProtobufTcpServer.

(** ** Decoder of request payloads

    An offset is a Python [int] that is never negative; it can lie behind
    the end of the data. *)

(** The loop of [_decode_varint] on the bytes from [offset] on. *)
Fixpoint varint_loop (rest : bytes) (acc shift offset : Z) : result (Z * Z) :=
  match rest with
  | [] => Raise (ValueError "Invalid varint")
  | byte :: rest =>
      let offset := offset + 1 in
      let acc := Z.lor acc (Z.shiftl (Z.land (byte_to_Z byte) 0x7F) shift) in
      if decide (Z.land (byte_to_Z byte) 0x80 = 0) then Ok (acc, offset)
      else varint_loop rest acc (shift + 7) offset
  end.

Definition _decode_varint (data : bytes) (offset : Z) : result (Z * Z) :=
  varint_loop (drop (Z.to_nat offset) data) 0 0 offset.

Definition _decode_field (data : bytes) (offset : Z) : result (Z * Z * Z) :=
  p <- _decode_varint data offset ;;;
  let '(tag, offset) := p in
  let field_number := Z.shiftr tag 3 in
  let wire_type := Z.land tag 0x07 in
  Ok (field_number, wire_type, offset).

Definition _decode_string (data : bytes) (offset : Z) : result (string * Z) :=
  p <- _decode_varint data offset ;;;
  let '(len, offset) := p in
  let end_ := offset + len in
  if decide (end_ > Z.of_nat (length data))
  then Raise (ValueError "String length exceeds data size")
  else
    value <- utf8_decode (slice (Z.to_nat offset) (Z.to_nat end_) data) ;;;
    Ok (value, end_).

Definition _decode_bytes (data : bytes) (offset : Z) : result (bytes * Z) :=
  p <- _decode_varint data offset ;;;
  let '(len, offset) := p in
  let end_ := offset + len in
  if decide (end_ > Z.of_nat (length data))
  then Raise (ValueError "Bytes length exceeds data size")
  else Ok (slice (Z.to_nat offset) (Z.to_nat end_) data, end_).

Definition _decode_bool (data : bytes) (offset : Z) : result (bool * Z) :=
  p <- _decode_varint data offset ;;;
  let '(value, offset) := p in
  Ok (bool_decide (value <> 0), offset).

Definition _decode_int (data : bytes) (offset : Z) : result (Z * Z) :=
  _decode_varint data offset.

Definition operation_map (operation_value : Z) : string :=
  if decide (operation_value = 1) then "PING"
  else if decide (operation_value = 2) then "PONG"
  else if decide (operation_value = 3) then "CONNECT"
  else if decide (operation_value = 4) then "DISCONNECT"
  else if decide (operation_value = 16) then "LIST_FILES"
  else if decide (operation_value = 17) then "FILE_INFO"
  else if decide (operation_value = 18) then "CREATE_DIR"
  else if decide (operation_value = 19) then "DELETE_FILE"
  else if decide (operation_value = 20) then "RENAME_FILE"
  else if decide (operation_value = 32) then "UPLOAD_FILE"
  else if decide (operation_value = 33) then "DOWNLOAD_FILE"
  else if decide (operation_value = 48) then "UPLOAD_REQ"
  else if decide (operation_value = 49) then "UPLOAD_DATA"
  else if decide (operation_value = 50) then "UPLOAD_END"
  else if decide (operation_value = 51) then "DOWNLOAD_REQ"
  else if decide (operation_value = 52) then "DOWNLOAD_DATA"
  else if decide (operation_value = 53) then "DOWNLOAD_END"
  else "UNKNOWN".

(** The statements that skip a field by its wire type; the source has them
    twice, for a request and for an entry of [options].  The result is the
    new offset, or [None] for [break]. *)
Definition skip_field (data : bytes) (wire_type offset : Z) : result (option Z) :=
  if decide (wire_type = 0) then
    p <- _decode_varint data offset ;;; Ok (Some p.2)
  else if decide (wire_type = 1) then Ok (Some (offset + 8))
  else if decide (wire_type = 2) then
    p <- _decode_bytes data offset ;;; Ok (Some p.2)
  else if decide (wire_type = 5) then Ok (Some (offset + 4))
  else Ok None.

(** The loop over one entry of [options].  Every turn moves the offset by
    one byte at least, so [fuel] turns are enough for [fuel] bytes. *)
Fixpoint entry_loop (fuel : nat) (entry_bytes : bytes) (entry_offset : Z)
    (key value : option string) : result (option string * option string) :=
  match fuel with
  | O => Ok (key, value)
  | S fuel =>
      if decide (entry_offset < Z.of_nat (length entry_bytes)) then
        f <- _decode_field entry_bytes entry_offset ;;;
        let '(entry_field, entry_wire, entry_offset) := f in
        if decide (entry_field = 1) then
          p <- _decode_string entry_bytes entry_offset ;;;
          entry_loop fuel entry_bytes p.2 (Some p.1) value
        else if decide (entry_field = 2) then
          p <- _decode_string entry_bytes entry_offset ;;;
          entry_loop fuel entry_bytes p.2 key (Some p.1)
        else
          s <- skip_field entry_bytes entry_wire entry_offset ;;;
          match s with
          | Some entry_offset => entry_loop fuel entry_bytes entry_offset key value
          | None => Ok (key, value)
          end
      else Ok (key, value)
  end.

(** A field that is stored under its key as a string. *)
Definition string_field (store : Request -> string -> Request) (request : Request)
    (data : bytes) (offset : Z) : result (option (Request * Z)) :=
  p <- _decode_string data offset ;;; Ok (Some (store request p.1, p.2)).

Definition int_field (store : Request -> Z -> Request) (request : Request)
    (data : bytes) (offset : Z) : result (option (Request * Z)) :=
  p <- _decode_int data offset ;;; Ok (Some (store request p.1, p.2)).

(** The body of the [try] of [decode_unified_request] for the field at
    [offset]: the request and the offset behind the field, [None] for
    [break], or the exception. *)
Definition decode_field_at (data : bytes) (request : Request) (offset : Z)
    : result (option (Request * Z)) :=
  f <- _decode_field data offset ;;;
  let '(field_number, wire_type, offset) := f in
  if decide (field_number = 1) then
    p <- _decode_varint data offset ;;;
    Ok (Some (set_operation request (operation_map p.1), p.2))
  else if decide (field_number = 2) then string_field set_path request data offset
  else if decide (field_number = 3) then string_field set_name request data offset
  else if decide (field_number = 4) then
    p <- _decode_bytes data offset ;;; Ok (Some (set_data request p.1, p.2))
  else if decide (field_number = 5) then string_field set_newName request data offset
  else if decide (field_number = 6) then
    if decide (wire_type <> 2)
    then Raise (ValueError "options 字段必须是 length-delimited 类型")
    else
      p <- _decode_bytes data offset ;;;
      let '(entry_bytes, offset) := p in
      kv <- entry_loop (length entry_bytes) entry_bytes 0 None None ;;;
      match kv with
      | (Some key, Some value) =>
          let request := set_options request (<[key := value]> (req_options request)) in
          let request :=
            if decide (key = "newPath") then
              (* request.setdefault('newPath', value) *)
              match req_newPath request with
              | Some _ => request
              | None => set_newPath request value
              end
            else if decide ((key = "targetPath" \/ key = "destinationPath")
                            /\ req_newPath request = None)
            then set_newPath request value
            else request in
          Ok (Some (request, offset))
      | _ => Ok (Some (request, offset))
      end
  else if decide (field_number = 7) then
    p <- _decode_bool data offset ;;; Ok (Some (set_isChunk request p.1, p.2))
  else if decide (field_number = 8) then int_field set_chunkIndex request data offset
  else if decide (field_number = 9) then int_field set_totalChunks request data offset
  else if decide (field_number = 10) then string_field set_chunkHash request data offset
  else if decide (field_number = 11) then string_field set_clientId request data offset
  else if decide (field_number = 12) then string_field set_version request data offset
  else if decide (field_number = 13) then
    p <- _decode_string data offset ;;;
    Ok (Some (set_supportedFormats request (req_supportedFormats request ++ [p.1]), p.2))
  else if decide (field_number = 14) then string_field set_filename request data offset
  else if decide (field_number = 15) then int_field set_fileSize request data offset
  else if decide (field_number = 16) then string_field set_checksum request data offset
  else if decide (field_number = 17) then int_field set_chunkSize request data offset
  else if decide (field_number = 18) then string_field set_preferredFormat request data offset
  else
    s <- skip_field data wire_type offset ;;;
    Ok (match s with
        | Some offset => Some (request, offset)
        | None => None
        end).

(** The loop of [decode_unified_request]: an exception in the [try] is
    logged and ends the loop, like [break].  Every turn that goes on moves
    the offset by one byte at least. *)
Fixpoint decode_loop (fuel : nat) (data : bytes) (request : Request) (offset : Z) : Request :=
  match fuel with
  | O => request
  | S fuel =>
      if decide (offset < Z.of_nat (length data)) then
        match decode_field_at data request offset with
        | Ok (Some (request, offset)) => decode_loop fuel data request offset
        | Ok None => request
        | Raise _ => request
        end
      else request
  end.

Definition decode_unified_request (data : bytes) : Request :=
  decode_loop (length data) data request_empty 0.

(** [decode_unified_request] holds every exception, so the [except] of
    [decode_protobuf_data] is never entered. *)
Definition decode_protobuf_data (data : bytes) : Request :=
  let request := decode_unified_request data in
  if request_nonempty request then request
  else set_operation request_empty "UNKNOWN".

(** ** Encoder primitives *)

(** The loop of [_varint]; [value] is not negative. *)
Fixpoint varint_out (fuel : nat) (value : Z) : bytes :=
  match fuel with
  | O => []
  | S fuel =>
      let to_write := Z.land value 0x7F in
      let value := Z.shiftr value 7 in
      if decide (value <> 0) then byte_of (Z.lor to_write 0x80) :: varint_out fuel value
      else [byte_of to_write]
  end.

(** The loop ends when the value has no bit left, after one turn for every
    seven bits. *)
Definition _varint (value : Z) : bytes :=
  let value := if decide (value < 0) then Z.land value (Z.shiftl 1 64 - 1) else value in
  varint_out (S (Z.to_nat (Z.log2 value))) value.

Definition _key (field_number wire_type : Z) : bytes :=
  _varint (Z.lor (Z.shiftl field_number 3) wire_type).

Definition _encode_bool (field_number : Z) (value : bool) : bytes :=
  _key field_number 0 ++ _varint (if value then 1 else 0).

Definition _encode_int (field_number value : Z) : bytes :=
  _key field_number 0 ++ _varint value.

Definition _encode_string (field_number : Z) (value : string) : bytes :=
  let data := utf8_encode value in
  _key field_number 2 ++ _varint (Z.of_nat (length data)) ++ data.

Definition _encode_bytes (field_number : Z) (data : bytes) : bytes :=
  _key field_number 2 ++ _varint (Z.of_nat (length data)) ++ data.

Definition _encode_message (field_number : Z) (message_bytes : bytes) : bytes :=
  _key field_number 2 ++ _varint (Z.of_nat (length message_bytes)) ++ message_bytes.


(** ** Handlers of FILE_INFO, DOWNLOAD_FILE, DELETE_FILE and UPLOAD_END *)

Section Handlers.

Variable E : Env.

(** [p.stat().st_size] of a directory, which the file system decides. *)
Variable st_size_dir : World -> Path -> Z.

(** [s.replace('\\', '/')] *)
Fixpoint replace_backslash (s : string) : string :=
  match s with
  | EmptyString => EmptyString
  | String c r => String (if decide (c = "\"%char) then "/"%char else c) (replace_backslash r)
  end.

Definition handle_file_info (request : Request) (w : World) : Response * World :=
  let file_path := default "" (req_path request) in
  if decide (file_path = "") then (failure "缺少文件路径参数", w) else
  let except e := (failure ("文件信息获取失败: " +:+ exn_str e), w) in
  match get_safe_path (root_dir w) file_path with
  | Raise e => except e
  | Ok target_path =>
      if negb (path_exists w target_path) then (failure ("文件不存在: " +:+ file_path), w)
      else if negb (is_file w target_path) then (failure ("不是文件: " +:+ file_path), w)
      else
        match (match stat_error E w target_path with
               | Some e => Raise e
               | None => st_size w target_path
               end) with
        | Raise e => except e
        | Ok file_size =>
            let last_modified := stat_lastModified E w target_path +:+ "Z" in
            match relative_to target_path (root_dir w) with
            | Raise e => except e
            | Ok rel =>
                let file_info :=
                  VDict [("name", VStr (path_name target_path));
                         ("path", VStr ("/" +:+ replace_backslash (rel_str rel)));
                         ("type", VStr "file");
                         ("size", VInt file_size);
                         ("lastModified", VStr last_modified);
                         ("permissions", VStr (stat_permissions E w target_path));
                         ("isReadonly", VBool (negb (access_W_OK E w target_path)));
                         ("mimeType", VStr "application/octet-stream")] in
                (list_to_map
                   [("success", VBool true);
                    ("message", VStr "文件信息获取成功");
                    ("fileSize", VInt file_size);
                    ("files", VList [file_info])], w)
            end
        end
  end.

Definition handle_download_file (request : Request) (w : World) : Response * World :=
  let file_path := default "" (req_path request) in
  if decide (file_path = "") then (failure "缺少文件路径参数", w) else
  match get_safe_path (root_dir w) file_path with
  | Raise e => (failure ("文件下载失败: " +:+ exn_str e), w)
  | Ok target_path =>
      if negb (path_exists w target_path) then (failure ("文件不存在: " +:+ file_path), w)
      else if negb (is_file w target_path) then (failure ("不是文件: " +:+ file_path), w)
      else
        (* with open(target_path, 'rb') as f: file_data = f.read() *)
        match open_existing w target_path with
        | Raise e => (failure ("文件下载失败: " +:+ exn_str e), w)
        | Ok (f, w) =>
            match seek_read w f 0 (-1) with
            | Raise e => (failure ("文件下载失败: " +:+ exn_str e), close_handle w f)
            | Ok file_data =>
                let w := close_handle w f in
                (list_to_map
                   [("success", VBool true);
                    ("message", VStr ("文件下载成功: " +:+ path_name target_path));
                    ("filename", VStr (path_name target_path));
                    ("data", VBytes file_data);
                    ("fileSize", VInt (Z.of_nat (length file_data)));
                    ("mimeType", VStr "application/octet-stream")], w)
            end
        end
  end.

(** [p.unlink()] of a regular file: the name goes, the content stays for
    the file objects that are open on it. *)
Definition unlink (w : World) (p : Path) : World :=
  set_fs w (delete p (fs w)) (inodes w) (handles w).

(** [shutil.rmtree(p)] of a directory: every path under [p] goes, and [p]
    itself, which fails for ["/"] after its content has gone. *)
Definition rmtree (w : World) (p : Path) : result unit * World :=
  let kept := filter (fun kv => ~ p `prefix_of` kv.1) (fs w) in
  let w := set_fs w kept (inodes w) (handles w) in
  if decide (p = []) then (Raise (OSError "[Errno 16] Device or resource busy: '/'"), w)
  else (Ok tt, w).

Definition handle_delete_file (request : Request) (w : World) : Response * World :=
  let file_path := default "" (req_path request) in
  if decide (file_path = "") then (failure "缺少文件路径参数", w) else
  match get_safe_path (root_dir w) file_path with
  | Raise e => (failure ("删除失败: " +:+ exn_str e), w)
  | Ok target_path =>
      if negb (path_exists w target_path)
      then (failure ("文件或目录不存在: " +:+ file_path), w)
      else
        let deleted file_type w :=
          (list_to_map
             [("success", VBool true);
              ("message", VStr (file_type +:+ "删除成功: " +:+ path_name target_path));
              ("type", VStr file_type)], w) in
        if is_file w target_path then deleted "文件" (unlink w target_path)
        else if is_dir w target_path then
          match rmtree w target_path with
          | (Raise e, w) => (failure ("删除失败: " +:+ exn_str e), w)
          | (Ok _, w) => deleted "目录" w
          end
        else (failure ("未知文件类型: " +:+ file_path), w)
  end.

(** [str(l)] of a list of integers *)
Definition list_repr (l : list Z) : string :=
  "[" +:+ String.concat ", " (pretty <$> l) +:+ "]".

(** The [except] of [handle_upload_end]: the file object of the session is
    closed and the session is removed, when the name [session_id] holds a
    string that is not empty. *)
Definition upload_end_except (e : exn) (session_id : string) (w : World) : Response * World :=
  let w :=
    if decide (session_id = "") then w
    else
      match dict_get session_id (upload_sessions w) with
      | Some session =>
          let w := match us_handle session with
                   | Some handle => close_handle w handle
                   | None => w
                   end in
          set_upload_sessions w (dict_remove session_id (upload_sessions w))
      | None => w
      end in
  (failure ("完成上传失败: " +:+ exn_str e), w).

Definition handle_upload_end (request : Request) (w : World) : Response * World :=
  let options := req_options request in
  let chosen :=
    match get_nonempty options "sessionId" with
    | Some sid => Some sid
    | None => dict_last_key (upload_sessions w)
    end in
  match chosen with
  | None => (failure "没有活动的上传会话", w)
  | Some session_id =>
      match dict_get session_id (upload_sessions w) with
      | None => (failure ("上传会话不存在: " +:+ session_id), w)
      | Some session =>
          let total_chunks := us_total_chunks session in
          let expected_file_size := us_file_size session in
          let missing_chunks :=
            filter (fun i => i ∉ us_received_chunks session) (seqZ 0 total_chunks) in
          if decide (missing_chunks <> []) then
            (failure (if decide (10 < length missing_chunks)%nat
                      then "缺少数据块: " +:+ list_repr (take 10 missing_chunks) +:+ "..."
                      else "缺少数据块: " +:+ list_repr missing_chunks), w)
          else
            (* file_handle.flush(), file_handle.close(), session['handle'] = None *)
            let flushed : result (UploadSession * World) :=
              match us_handle session with
              | Some file_handle =>
                  match handle_ino w file_handle with
                  | Raise _ => Raise (ValueError "flush of closed file")
                  | Ok _ =>
                      let w := close_handle w file_handle in
                      let session := set_handle session None in
                      Ok (session,
                          set_upload_sessions w
                            (dict_set session_id session (upload_sessions w)))
                  end
              | None => Ok (session, w)
              end in
            match flushed with
            | Raise e => upload_end_except e session_id w
            | Ok (session, w) =>
                let file_path := us_file_path session in
                let actual_size :=
                  match node_at w file_path with
                  | Some (File ino) => Z.of_nat (length (default [] (inodes w !! ino)))
                  | Some Dir => st_size_dir w file_path
                  | None => 0
                  end in
                if decide (expected_file_size > 0 /\ actual_size <> expected_file_size) then
                  (failure ("文件大小不匹配: 期望 " +:+ pretty expected_file_size
                              +:+ ", 实际 " +:+ pretty actual_size), w)
                else
                  let '(t, w) := time_time E w in
                  let upload_time := t - us_start_time session in
                  let filename := us_filename session in
                  let w := set_upload_sessions w (dict_remove session_id (upload_sessions w)) in
                  (list_to_map
                     [("success", VBool true);
                      ("message", VStr ("文件上传成功: " +:+ filename));
                      ("filename", VStr filename);
                      ("size", VInt actual_size);
                      ("uploadTimeMs", VInt (to_ms upload_time))], w)
            end
      end
  end.

(** ** The loop of a connection *)

(** The loop of [handle_client] over what [recv] returns, one element for
    each call: empty bytes stand for the end of the stream, and so does the
    end of the list.  An exception of [handle_frame_protocol] ends the
    loop.  The result is the frames sent and the state. *)
Fixpoint client_loop (client_id : string) (reads : list bytes) (buffer : bytes)
    (sent : list bytes) (w : World) : list bytes * World :=
  match reads with
  | [] => (sent, w)
  | data :: reads =>
      if decide (data = []) then (sent, w)
      else
        match handle_frame_protocol E client_id (buffer ++ data) w with
        | (Ok buffer, s, w) => client_loop client_id reads buffer (sent ++ s) w
        | (Raise _, s, w) => (sent ++ s, w)
        end
  end.

(** [handle_client]: the loop, then the [finally] that removes the download
    sessions of the client.  The call [session['file'].close()] raises a
    [KeyError], as no session has that key; the exception is logged. *)
Definition handle_client (client_id : string) (reads : list bytes) (w : World)
    : list bytes * World :=
  let '(sent, w) := client_loop client_id reads [] [] w in
  let stale_sessions :=
    filter (fun kv => ds_clientId kv.2 = client_id) (download_sessions w) in
  let kept := filter (fun kv => stale_sessions !! kv.1 = None) (download_sessions w) in
  (sent, set_download_sessions w kept).

End Handlers.

End ProtobufTcpServer.

(** ** The environment with the members above

    The environment [E] with the decoder and the four handlers of
    [ProtobufTcpServer] in the place of its parameters; the encoder of
    responses and the handlers of UPLOAD_FILE, RENAME_FILE and CREATE_DIR
    stay those of [E]. *)
Definition server (E : Env) (st_size_dir : World -> Path -> Z) : Env :=
  {| clock := clock E;
     py_int := py_int E;
     stat_lastModified := stat_lastModified E;
     stat_permissions := stat_permissions E;
     access_W_OK := access_W_OK E;
     stat_error := stat_error E;
     iterdir_error := iterdir_error E;
     decode_protobuf_data := ProtobufTcpServer.decode_protobuf_data;
     encode_unified_response := encode_unified_response E;
     handle_file_info := fun r w => handled (ProtobufTcpServer.handle_file_info E r w);
     handle_download_file := fun r w => handled (ProtobufTcpServer.handle_download_file r w);
     handle_upload_file := handle_upload_file E;
     handle_delete_file := fun r w => handled (ProtobufTcpServer.handle_delete_file r w);
     handle_rename_file := handle_rename_file E;
     handle_create_directory := handle_create_directory E;
     handle_upload_end :=
       fun r w => handled (ProtobufTcpServer.handle_upload_end E st_size_dir r w) |}.

(** * Statements

    The notions used to state the properties. *)

(** ** Framing codec *)

(** A frame on the wire: magic, length of the payload, and trailer are as the
    layout demands; the CRC byte is not constrained. *)
Definition well_formed (f : bytes) : Prop :=
  (13 <= length f)%nat /\
  take 2 f = [xaa; x55] /\
  le_unpack (slice 2 6 f) = Z.of_nat (length f) - 13 /\
  Z.of_nat (length f) - 13 <= MAX_FRAME_DATA /\
  drop (length f - 2) f = [x55; xaa].

#[global] Instance well_formed_dec (f : bytes) : Decision (well_formed f).
Proof. unfold well_formed. apply _. Defined.

(** The CRC byte of a frame is the CRC8 of the bytes from the length field
    to the end of the payload. *)
Definition crc_valid (f : bytes) : Prop :=
  byte_to_Z <$> f !! (length f - 3)%nat
  = Some (calculate_crc8 (slice 2 (length f - 3) f)).

#[global] Instance crc_valid_dec (f : bytes) : Decision (crc_valid f).
Proof. unfold crc_valid. apply _. Defined.

(** The frame encoder applied to the decoded fields of a frame.  The data is
    given as [bytes], which the encoder frames as they are: the encoder of
    dictionaries is not called. *)
Definition reencode (fr : Frame) : result bytes :=
  build_response_frame (fun _ => Ok []) (command fr) (format fr) (BytesData (data fr))
    (sequence fr).

(** No magic prefix starts inside [junk], also not with its last byte. *)
Definition no_magic (junk : bytes) : Prop := find_magic 0 (junk ++ [xaa]) = None.

(** The frame that [parse_frame] builds from the parts of a frame on the
    wire. *)
Definition frame_of (s0 s1 c fm : byte) (payload : bytes) (k : byte) : Frame :=
  {| command := byte_to_Z c; format := byte_to_Z fm; sequence := le_unpack [s0; s1];
     data := payload; data_length := Z.of_nat (length payload); crc := byte_to_Z k |}.


(** The CRC byte that stands for a computed CRC8 (which is below 256, see
    [calculate_crc8_range]). *)
Definition crc_byte (d : bytes) : byte :=
  match byte_of_Z (calculate_crc8 d) with
  | Ok b => b
  | Raise _ => x00
  end.

(** The frame [f] with [k] as its CRC byte, and with the CRC byte that
    matches its content. *)
Definition with_crc (f : bytes) (k : byte) : bytes :=
  take (length f - 3) f ++ [k; x55; xaa].

Definition fix_crc (f : bytes) : bytes :=
  with_crc f (crc_byte (slice 2 (length f - 3) f)).

(** ** Examples

    A small environment and state on which the properties are tried. *)

Definition empty_request : Request :=
  {| req_operation := None; req_path := None; req_name := None; req_data := None;
     req_newName := None; req_options := ∅; req_isChunk := None; req_chunkIndex := None;
     req_totalChunks := None; req_chunkHash := None; req_clientId := None;
     req_version := None; req_supportedFormats := []; req_filename := None;
     req_fileSize := None; req_checksum := None; req_chunkSize := None;
     req_preferredFormat := None; req_newPath := None; req_client_id := None |}.

(** The clock advances by one millisecond per reading; the handlers that are
    not modelled answer with an empty dictionary. *)
Definition example_env : Env :=
  {| clock := fun n => 1700000000000000 + 1000 * Z.of_nat n;
     py_int := fun _ => None;
     stat_lastModified := fun _ _ => "2024-01-01T00:00:00";
     stat_permissions := fun _ _ => "644";
     access_W_OK := fun _ _ => true;
     stat_error := fun _ _ => None;
     iterdir_error := fun _ _ => None;
     decode_protobuf_data := fun _ => empty_request;
     encode_unified_response := fun _ => Ok [];
     handle_file_info := fun _ w => (Ok ∅, w);
     handle_download_file := fun _ w => (Ok ∅, w);
     handle_upload_file := fun _ w => (Ok ∅, w);
     handle_delete_file := fun _ w => (Ok ∅, w);
     handle_rename_file := fun _ w => (Ok ∅, w);
     handle_create_directory := fun _ w => (Ok ∅, w);
     handle_upload_end := fun _ w => (Ok ∅, w) |}.

(** The same environment, in which [stat] raises for the entry [docs] of a
    listing. *)
Definition unreadable_docs_env : Env :=
  {| clock := clock example_env;
     py_int := py_int example_env;
     stat_lastModified := stat_lastModified example_env;
     stat_permissions := stat_permissions example_env;
     access_W_OK := access_W_OK example_env;
     stat_error := fun _ p =>
       if decide (path_name p = "docs")
       then Some (OSError "[Errno 2] No such file or directory") else None;
     iterdir_error := fun _ _ => None;
     decode_protobuf_data := decode_protobuf_data example_env;
     encode_unified_response := encode_unified_response example_env;
     handle_file_info := handle_file_info example_env;
     handle_download_file := handle_download_file example_env;
     handle_upload_file := handle_upload_file example_env;
     handle_delete_file := handle_delete_file example_env;
     handle_rename_file := handle_rename_file example_env;
     handle_create_directory := handle_create_directory example_env;
     handle_upload_end := handle_upload_end example_env |}.


(** The root [/srv/root] holds the files [a.txt] ("ABC") and [B.txt]
    (empty) and the directory [docs]; beside the root lies [/srv/root2] with
    the file [secret]. *)
Definition example_world : World :=
  {| root_dir := ["srv"; "root"];
     fs := list_to_map
             [(["srv"], Dir);
              (["srv"; "root"], Dir);
              (["srv"; "root"; "a.txt"], File 0%nat);
              (["srv"; "root"; "B.txt"], File 1%nat);
              (["srv"; "root"; "docs"], Dir);
              (["srv"; "root2"], Dir);
              (["srv"; "root2"; "secret"], File 2%nat)];
     inodes := [[x41; x42; x43]; []; [x53]];
     handles := [];
     upload_sessions := [];
     download_sessions := ∅;
     ticks := 0 |}.

(** A frame with sequence 7, command 3, format 2, the payload ["A"] and the
    CRC byte that belongs to it (7), and the same frame with a CRC byte
    of 0. *)
Definition good_frame : bytes :=
  [xaa; x55; x01; x00; x00; x00; x07; x00; x03; x02; x41; x07; x55; xaa].

Definition bad_crc_frame : bytes :=
  [xaa; x55; x01; x00; x00; x00; x07; x00; x03; x02; x41; x00; x55; xaa].

(** A frame header that declares a payload of 16777217 bytes. *)
Definition oversized_header : bytes := [xaa; x55; x01; x00; x00; x01].

(** A request that only carries an operation, a path and options. *)
Definition request_of (op path : string) (opts : list (string * string)) : Request :=
  {| req_operation := Some op; req_path := Some path; req_name := None; req_data := None;
     req_newName := None; req_options := list_to_map opts; req_isChunk := None;
     req_chunkIndex := None; req_totalChunks := None; req_chunkHash := None;
     req_clientId := None; req_version := None; req_supportedFormats := [];
     req_filename := None; req_fileSize := None; req_checksum := None;
     req_chunkSize := None; req_preferredFormat := None; req_newPath := None;
     req_client_id := Some "10.0.0.1:5000" |}.

(** ** Path sandbox *)

(** [p] is the root or lies below it. *)
Definition under_root (root p : Path) : Prop := root `prefix_of` p.

(** ** Download sessions *)

(** The state after a download of [/a.txt] was started in [example_world];
    the session is ["dl_1700000000000_a.txt"]. *)
Definition world_downloading : World :=
  (handle_download_req example_env
     (request_of "DOWNLOAD_REQ" "/a.txt" [("action", "start")]) example_world).2.

Definition finish_request : Request :=
  request_of "DOWNLOAD_REQ" "/a.txt"
    [("action", "finish"); ("sessionId", "dl_1700000000000_a.txt")].

(** ** Upload sessions *)

(** A sequence of UPLOAD_DATA requests: the requests with their answers,
    and the state at the end. *)
Fixpoint run_uploads (E : Env) (reqs : list Request) (w : World)
    : list (Request * Response) * World :=
  match reqs with
  | [] => ([], w)
  | r :: rest =>
      let '(resp, w1) := handle_upload_data E r w in
      let '(log, w') := run_uploads E rest w1 in
      ((r, resp) :: log, w')
  end.

(** The delivery that an answered UPLOAD_DATA request stands for: session,
    chunk index and number of bytes of a request that was accepted. *)
Definition delivery_of (rr : Request * Response) : option (string * Z * Z) :=
  match rr.2 !! "success", rr.2 !! "sessionId", rr.2 !! "chunkIndex" with
  | Some (VBool true), Some (VStr sid), Some (VInt i) =>
      Some (sid, i, Z.of_nat (length (default [] (req_data rr.1))))
  | _, _, _ => None
  end.

Definition deliveries (log : list (Request * Response)) : list (string * Z * Z) :=
  omap delivery_of log.

(** The size of chunk [i] of session [sid]: the number of bytes of its first
    delivery. *)
Fixpoint chunk_size_of (ds : list (string * Z * Z)) (sid : string) (i : Z) : option Z :=
  match ds with
  | [] => None
  | (sid', i', n) :: rest =>
      if decide (sid' = sid /\ i' = i) then Some n else chunk_size_of rest sid i
  end.

(** The sum of [f] over the indices of a set. *)
Definition sum_over (X : gset Z) (f : Z -> Z) : Z :=
  foldr Z.add 0 (f <$> elements X).

(** The state after an upload session ["s1"] for [/docs/up.bin] (5 bytes,
    chunks of 2 bytes) was opened in [example_world], and a request that
    delivers its chunk 1. *)
Definition upload_request (name : string) (opts : list (string * string))
    (index : Z) (chunk : bytes) : Request :=
  {| req_operation := Some "UPLOAD_DATA"; req_path := Some "/docs"; req_name := Some name;
     req_data := Some chunk; req_newName := None; req_options := list_to_map opts;
     req_isChunk := None; req_chunkIndex := Some index; req_totalChunks := Some 3;
     req_chunkHash := None; req_clientId := None; req_version := None;
     req_supportedFormats := []; req_filename := None; req_fileSize := Some 5;
     req_checksum := None; req_chunkSize := Some 2; req_preferredFormat := None;
     req_newPath := None; req_client_id := Some "10.0.0.1:5000" |}.

Definition world_uploading : World :=
  (handle_upload_req example_env (upload_request "up.bin" [("sessionId", "s1")] 0 [])
     example_world).2.

Definition chunk1_request : Request :=
  upload_request "up.bin" [("sessionId", "s1")] 1 [x61; x62].

(** ** Download sessions, continued *)

(** A sequence of DOWNLOAD_REQ requests: the requests with their answers,
    and the state at the end. *)
Fixpoint run_downloads (E : Env) (reqs : list Request) (w : World)
    : list (Request * Response) * World :=
  match reqs with
  | [] => ([], w)
  | r :: rest =>
      let '(resp, w1) := handle_download_req E r w in
      let '(log, w') := run_downloads E rest w1 in
      ((r, resp) :: log, w')
  end.



Definition chunk_request (sid : string) (index : option Z) : Request :=
  {| req_operation := Some "DOWNLOAD_REQ"; req_path := Some "/a.txt"; req_name := None;
     req_data := None; req_newName := None;
     req_options := list_to_map [("action", "chunk"); ("sessionId", sid)];
     req_isChunk := None; req_chunkIndex := index; req_totalChunks := None;
     req_chunkHash := None; req_clientId := None; req_version := None;
     req_supportedFormats := []; req_filename := None; req_fileSize := None;
     req_checksum := None; req_chunkSize := None; req_preferredFormat := None;
     req_newPath := None; req_client_id := Some "10.0.0.1:5000" |}.


(** ** Upload sessions, continued *)

(** The file object [h] is open. *)
Definition is_open (w : World) (h : nat) : Prop :=
  exists ino, handles w !! h = Some (ino, true).

(** The bytes of the regular file at [p]. *)
Definition file_content (w : World) (p : Path) : option bytes :=
  match node_at w p with
  | Some (File ino) => inodes w !! ino
  | _ => None
  end.

(** Every file of the table has its content in [inodes]. *)
Definition fs_ok (w : World) : Prop :=
  map_Forall (fun _ n => match n with
                         | File ino => (ino < length (inodes w))%nat
                         | Dir => True
                         end) (fs w).

#[global] Instance fs_ok_dec (w : World) : Decision (fs_ok w).
Proof.
  unfold fs_ok. apply map_Forall_dec. intros _ [|ino]; apply _.
Defined.

(** The path of the file that an UPLOAD_REQ is for: the file name of the
    request under the directory of the request. *)
Definition upload_target (request : Request) (w : World) : result Path :=
  let path := default "/" (req_path request) in
  target_dir <- (if decide (path = "/") then Ok (root_dir w)
                 else get_safe_path (root_dir w) path) ;;;
  Ok (resolve (joinpath target_dir (default "" (req_name request)))).

(** The state after chunk 1 ("ab") of the upload session ["s1"] of
    [world_uploading] was delivered: [/docs/up.bin] holds 0 0 "a" "b" 0. *)
Definition world_chunk1 : World :=
  (handle_upload_data example_env chunk1_request world_uploading).2.

(** UPLOAD_REQ requests that name the session ["s1"]: one without a file
    name, one for another file of the same directory, one for the same
    file. *)
Definition reopen_request (name : option string) (size : Z) : Request :=
  {| req_operation := Some "UPLOAD_REQ"; req_path := Some "/docs"; req_name := name;
     req_data := None; req_newName := None;
     req_options := list_to_map [("sessionId", "s1")];
     req_isChunk := None; req_chunkIndex := None; req_totalChunks := None;
     req_chunkHash := None; req_clientId := None; req_version := None;
     req_supportedFormats := []; req_filename := None; req_fileSize := Some size;
     req_checksum := None; req_chunkSize := Some 2; req_preferredFormat := None;
     req_newPath := None; req_client_id := Some "10.0.0.1:5000" |}.

(** The session ["s1"] in [world_chunk1]. *)
Definition chunk1_session : UploadSession :=
  {| us_path := "/docs"; us_filename := "up.bin";
     us_file_path := ["srv"; "root"; "docs"; "up.bin"]; us_total_chunks := 3;
     us_chunk_size := 2; us_file_size := 5; us_start_time := 1700000000000000;
     us_last_activity := 1700000000002000; us_received_chunks := {[1]};
     us_bytes_received := 2; us_handle := Some 1%nat |}.

(** ** Directory listing *)

(** The order of names: byte by byte, a proper prefix first. *)
Definition str_lt (a b : string) : Prop := lexico (str_key a) (str_key b).

#[global] Instance str_lt_dec : RelDecision str_lt :=
  fun a b => decide (lexico (str_key a) (str_key b)).

(** The order of names that ignores the case of ASCII letters. *)
Definition ci_le (a b : string) : Prop :=
  str_lt (str_lower a) (str_lower b) \/ str_lower a = str_lower b.

#[global] Instance ci_le_dec : RelDecision ci_le :=
  fun a b =>
    decide (str_lt (str_lower a) (str_lower b) \/ str_lower a = str_lower b).

(** The fields of an entry of [files]. *)
Definition entry_field (k : string) (fi : Value) : option Value :=
  match fi with
  | VDict d => dict_get k d
  | _ => None
  end.

Definition entry_name (fi : Value) : string :=
  match entry_field "name" fi with
  | Some (VStr n) => n
  | _ => ""
  end.

(** The [files] of an answer. *)
Definition files_of (resp : Response) : list Value :=
  match resp !! "files" with
  | Some (VList l) => l
  | _ => []
  end.

(** ** Dispatcher *)

(** A handler does not turn back the count of clock readings. *)
Definition keeps_time (h : Request -> World -> result Response * World) : Prop :=
  forall r w, (ticks w <= ticks (h r w).2)%nat.

(** The clock does not run backwards, and the handlers of the environment
    keep the count of its readings. *)
Definition env_time_ok (E : Env) : Prop :=
  (forall n m, (n <= m)%nat -> clock E n <= clock E m)
  /\ keeps_time (handle_file_info E) /\ keeps_time (handle_download_file E)
  /\ keeps_time (handle_upload_file E) /\ keeps_time (handle_delete_file E)
  /\ keeps_time (handle_rename_file E) /\ keeps_time (handle_create_directory E)
  /\ keeps_time (handle_upload_end E).

(** The answer [resp], given in the state [w'], carries processTimeMs, not
    negative, and as timestamp the last reading of the clock, in
    milliseconds. *)
Definition timed (E : Env) (resp : Response) (w' : World) : Prop :=
  exists p, resp !! "processTimeMs" = Some (VInt p) /\ 0 <= p
            /\ resp !! "timestamp" = Some (VInt (to_ms (clock E (ticks w' - 1)))).

(** ** Effects of single requests *)

(** What one UPLOAD_DATA request does to the table of sessions. *)
Inductive upload_data_effect (request : Request) (w : World) (resp : Response) (w' : World)
    : Prop :=
| upload_no_session :
    resp !! "success" = Some (VBool false) ->
    upload_sessions w' = upload_sessions w ->
    upload_data_effect request w resp w'
| upload_refused (sid : string) (s s' : UploadSession) :
    dict_get sid (upload_sessions w) = Some s ->
    upload_sessions w' = dict_set sid s' (upload_sessions w) ->
    resp !! "success" = Some (VBool false) ->
    us_received_chunks s' = us_received_chunks s ->
    us_bytes_received s' = us_bytes_received s ->
    upload_data_effect request w resp w'
| upload_accepted (sid : string) (s s' : UploadSession) :
    (match get_nonempty (req_options request) "sessionId" with
     | Some sid' => Some sid'
     | None => dict_last_key (upload_sessions w)
     end) = Some sid ->
    dict_get sid (upload_sessions w) = Some s ->
    upload_sessions w' = dict_set sid s' (upload_sessions w) ->
    resp !! "success" = Some (VBool true) ->
    resp !! "sessionId" = Some (VStr sid) ->
    resp !! "chunkIndex" = Some (VInt (default 0 (req_chunkIndex request))) ->
    us_received_chunks s' = {[default 0 (req_chunkIndex request)]} ∪ us_received_chunks s ->
    us_bytes_received s' =
      (if bool_decide (default 0 (req_chunkIndex request) ∈ us_received_chunks s)
       then us_bytes_received s
       else us_bytes_received s + Z.of_nat (length (default [] (req_data request)))) ->
    upload_data_effect request w resp w'.

(** The invariant of the session [sid] after the deliveries [ds]: its
    received indices are those delivered, and its count of bytes is the sum
    of their sizes. *)
Definition upload_inv (sid : string) (ds : list (string * Z * Z)) (w : World) : Prop :=
  exists s, dict_get sid (upload_sessions w) = Some s
    /\ (forall i, i ∈ us_received_chunks s <-> is_Some (chunk_size_of ds sid i))
    /\ us_bytes_received s
       = sum_over (us_received_chunks s) (fun i => default 0 (chunk_size_of ds sid i)).


(** * Further statements

    Notions used by the properties of the code around the claims. *)

(** ** CRC8, bit by bit *)

(** One byte of the CRC8 with polynomial 0x07, without a table: the byte is
    added to the register, which is then shifted eight times. *)
Definition crc8_update (crc : Z) (b : byte) : Z :=
  Nat.iter 8 (crc8_shift CRC8_POLY) (Z.lxor crc (byte_to_Z b)).

Definition crc8_bitwise (data : bytes) : Z := fold_left crc8_update data 0.

(** ** Framing codec, continued *)

(** The payload that [build_response_frame] frames. *)
Definition payload_of (enc : Response -> result bytes) (data : FrameData) : result bytes :=
  match data with
  | DictData d => enc d
  | BytesData b => Ok b
  end.

(** [resp] is a frame of the layout that answers the request frame [fr]: it
    repeats the sequence and the command of [fr], its format is
    [FORMAT_PROTOBUF], its length field and trailer are right and its CRC
    byte is the computed one. *)
Definition answers (fr : Frame) (resp : bytes) : Prop :=
  (13 <= length resp)%nat
  /\ take 2 resp = [xaa; x55]
  /\ le_unpack (slice 2 6 resp) = Z.of_nat (length resp) - 13
  /\ le_unpack (slice 6 8 resp) = sequence fr
  /\ byte_to_Z <$> resp !! 8%nat = Some (command fr)
  /\ resp !! 9%nat = Some x02
  /\ crc_valid resp
  /\ drop (length resp - 2) resp = [x55; xaa].

(** The encoder cannot frame the response [resp]: it raises, or the payload
    does not fit the length field. *)
Definition unframable (E : Env) (resp : Response) : Prop :=
  match encode_unified_response E resp with
  | Ok payload => 2 ^ 32 <= Z.of_nat (length payload)
  | Raise _ => True
  end.

(** ** Path sandbox *)

(** A name of a directory entry: not empty and without a slash. *)
Definition slash_free (c : string) : Prop :=
  Forall (fun a => a <> "/"%char) (list_ascii_of_string c).

Definition entry_name_ok (c : string) : Prop := c <> "" /\ slash_free c.

#[global] Instance entry_name_ok_dec (c : string) : Decision (entry_name_ok c).
Proof. unfold entry_name_ok, slash_free. apply _. Defined.

(** [p] is beside [root]: the two have the same parent, and the name of the
    root is a proper leading part of the name that [p] has there. *)
Definition beside_root (root p : Path) : Prop :=
  exists parent name c rest,
    root = parent ++ [name] /\ p = parent ++ c :: rest
    /\ String.prefix name c = true /\ c <> name.

(** The string of a path that is not ["/"]: every name behind a slash. *)
Definition path_cat (p : Path) : string :=
  String.concat "" (map (fun c => "/" +:+ c) p).

(** A string that follows a name in the string of a path: nothing, or a
    slash and more. *)
Definition name_end (t : string) : Prop := t = "" \/ exists t', t = String "/" t'.

(** ** Payload codec *)

(** The value that [_varint] writes for [v]: a negative value is taken
    modulo 2^64. *)
Definition wire_value (v : Z) : Z := if decide (v < 0) then v mod 2 ^ 64 else v.

(** The byte has the continuation bit of a varint. *)
Definition continues (b : byte) : Prop := Z.land (byte_to_Z b) 0x80 <> 0.

#[global] Instance continues_dec (b : byte) : Decision (continues b).
Proof. unfold continues. apply _. Defined.

(** The fields of a request message that hold a string, and those that
    hold an integer, by number, with the key they are stored under. *)
Definition string_store (n : Z) : option (Request -> string -> Request) :=
  if decide (n = 2) then Some set_path
  else if decide (n = 3) then Some set_name
  else if decide (n = 5) then Some set_newName
  else if decide (n = 10) then Some set_chunkHash
  else if decide (n = 11) then Some set_clientId
  else if decide (n = 12) then Some set_version
  else if decide (n = 13)
  then Some (fun r s => set_supportedFormats r (req_supportedFormats r ++ [s]))
  else if decide (n = 14) then Some set_filename
  else if decide (n = 16) then Some set_checksum
  else if decide (n = 18) then Some set_preferredFormat
  else None.

Definition int_store (n : Z) : option (Request -> Z -> Request) :=
  if decide (n = 8) then Some set_chunkIndex
  else if decide (n = 9) then Some set_totalChunks
  else if decide (n = 15) then Some set_fileSize
  else if decide (n = 17) then Some set_chunkSize
  else None.

(** A field of a request message, as a client composes it. *)
Inductive req_field :=
| F_operation (v : Z)
| F_string (n : Z) (s : string)
| F_data (b : bytes)
| F_option (k v : string)
| F_isChunk (b : bool)
| F_int (n v : Z)
| F_other_int (n v : Z)
| F_other_bytes (n : Z) (b : bytes).

(** Its bytes, written with the encoder primitives of the server. *)
Definition encode_field (f : req_field) : bytes :=
  match f with
  | F_operation v => ProtobufTcpServer._encode_int 1 v
  | F_string n s => ProtobufTcpServer._encode_string n s
  | F_data b => ProtobufTcpServer._encode_bytes 4 b
  | F_option k v =>
      ProtobufTcpServer._encode_message 6
        (ProtobufTcpServer._encode_string 1 k ++ ProtobufTcpServer._encode_string 2 v)
  | F_isChunk b => ProtobufTcpServer._encode_bool 7 b
  | F_int n v => ProtobufTcpServer._encode_int n v
  | F_other_int n v => ProtobufTcpServer._encode_int n v
  | F_other_bytes n b => ProtobufTcpServer._encode_bytes n b
  end.

(** What the field means for the request dictionary: a field that occurs
    again replaces the value, the formats and the options accumulate, the
    options [newPath], [targetPath] and [destinationPath] give the key
    [newPath] when it is not there yet, a field with an unknown number is
    ignored. *)
Definition store_field (r : Request) (f : req_field) : Request :=
  match f with
  | F_operation v => set_operation r (ProtobufTcpServer.operation_map v)
  | F_string n s => match string_store n with Some store => store r s | None => r end
  | F_data b => set_data r b
  | F_option k v =>
      let r := set_options r (<[k := v]> (req_options r)) in
      if decide (k = "newPath" \/ k = "targetPath" \/ k = "destinationPath")
      then match req_newPath r with Some _ => r | None => set_newPath r v end
      else r
  | F_isChunk b => set_isChunk r b
  | F_int n v => match int_store n with Some store => store r v | None => r end
  | F_other_int _ _ | F_other_bytes _ _ => r
  end.

(** The fields of the message format: the numbers are those of the format,
    the strings are UTF-8, the integers are not negative. *)
Definition field_ok (f : req_field) : Prop :=
  match f with
  | F_operation v => 0 <= v
  | F_string n s =>
      is_Some (string_store n) /\ utf8_valid (utf8_encode s) = true
  | F_data _ | F_isChunk _ => True
  | F_option k v =>
      utf8_valid (utf8_encode k) = true
      /\ utf8_valid (utf8_encode v) = true
  | F_int n v => is_Some (int_store n) /\ 0 <= v
  | F_other_int n v => (n = 0 \/ 18 < n) /\ 0 <= v
  | F_other_bytes n _ => n = 0 \/ 18 < n
  end.

#[global] Instance field_ok_dec (f : req_field) : Decision (field_ok f).
Proof. destruct f; cbn; apply _. Defined.

(** The bytes of a message, field after field. *)
Definition encode_fields (fs : list req_field) : bytes := concat (encode_field <$> fs).

(** The numbers of the fields that the decoder reads as length-delimited,
    or skips by their wire type. *)
Definition length_delimited (n : Z) : Prop :=
  is_Some (string_store n) \/ n = 4 \/ n = 6 \/ n = 0 \/ 18 < n.

#[global] Instance length_delimited_dec (n : Z) : Decision (length_delimited n).
Proof. unfold length_delimited. apply _. Defined.

(** The chain of comparisons of a field number in the decoder, one case
    after the other. *)
Ltac field_chain :=
  repeat match goal with
         | |- context [decide (?a = ?b)] =>
             destruct (decide (a = b)) as [?|?]; [try lia|try lia]
         end.

(** * Properties *)

(** ** Bytes and little-endian integers *)

Lemma byte_to_Z_range (b : byte) : 0 <= byte_to_Z b < 256.
Proof.
  unfold byte_to_Z. pose proof (Byte.to_N_bounded b). lia.
Qed.

Lemma byte_of_to_Z (b : byte) : byte_of_Z (byte_to_Z b) = Ok b.
Proof.
  unfold byte_of_Z. rewrite decide_True by apply byte_to_Z_range.
  unfold byte_to_Z. rewrite N2Z.id, Byte.of_to_N. reflexivity.
Qed.

Lemma byte_of_Z_inv (v : Z) (b : byte) : byte_of_Z v = Ok b -> byte_to_Z b = v.
Proof.
  unfold byte_of_Z, byte_to_Z. case_decide; [|discriminate].
  destruct (Byte.of_N (Z.to_N v)) as [b'|] eqn:Hb; [|discriminate].
  intros [= <-]. apply Byte.to_of_N in Hb. lia.
Qed.

Lemma le_bytes_unpack (bs : bytes) : le_bytes (length bs) (le_unpack bs) = bs.
Proof.
  induction bs as [|b bs IH]; [reflexivity|].
  cbn [length le_bytes le_unpack].
  pose proof (byte_to_Z_range b) as Hb.
  replace ((byte_to_Z b + 256 * le_unpack bs) mod 256) with (byte_to_Z b)
    by (apply Z.mod_unique with (q := le_unpack bs); lia).
  replace ((byte_to_Z b + 256 * le_unpack bs) / 256) with (le_unpack bs)
    by (apply Z.div_unique with (r := byte_to_Z b); lia).
  unfold byte_to_Z at 1. rewrite N2Z.id, Byte.of_to_N, IH. reflexivity.
Qed.

Lemma le_unpack_range (bs : bytes) : 0 <= le_unpack bs < 256 ^ Z.of_nat (length bs).
Proof.
  induction bs as [|b bs IH]; [cbn; lia|].
  cbn [length le_unpack]. pose proof (byte_to_Z_range b).
  rewrite Nat2Z.inj_succ, Z.pow_succ_r by lia. lia.
Qed.

Lemma le_pack_unpack (bs : bytes) : le_pack (length bs) (le_unpack bs) = Ok bs.
Proof.
  unfold le_pack. rewrite decide_True by apply le_unpack_range.
  rewrite le_bytes_unpack. reflexivity.
Qed.

(** ** CRC8 *)

Lemma CRC8_TABLE_range : Forall (fun v => 0 <= v < 256) CRC8_TABLE.
Proof. apply (bool_decide_unpack _). vm_compute. exact I. Qed.

Lemma crc8_table_at_range (i : Z) : 0 <= crc8_table_at i < 256.
Proof.
  unfold crc8_table_at.
  destruct (nth_in_or_default (Z.to_nat i) CRC8_TABLE 0) as [Hin | ->]; [|lia].
  pose proof CRC8_TABLE_range as H. rewrite Forall_forall in H.
  apply H. exact Hin.
Qed.

Lemma calculate_crc8_range (d : bytes) : 0 <= calculate_crc8 d < 256.
Proof.
  unfold calculate_crc8.
  assert (forall acc, 0 <= acc < 256 ->
    0 <= fold_left (fun crc b => crc8_table_at (Z.lxor crc (byte_to_Z b))) d acc < 256) as H.
  { induction d as [|b d IH]; intros acc Hacc; [exact Hacc|].
    cbn [fold_left]. apply IH. apply crc8_table_at_range. }
  apply H. lia.
Qed.

(** The table is the one of the bitwise algorithm and its index never
    leaves it. *)
Lemma crc8_table_is_built : CRC8_TABLE = _build_crc8_table CRC8_POLY.
Proof. vm_compute. reflexivity. Qed.

Lemma crc8_index_range (crc : Z) (b : byte) :
  0 <= crc < 256 -> 0 <= Z.lxor crc (byte_to_Z b) < 256.
Proof.
  intros Hc. pose proof (byte_to_Z_range b) as Hb.
  split; [apply Z.lxor_nonneg; lia|].
  destruct (decide (Z.lxor crc (byte_to_Z b) = 0)) as [->|Hne]; [lia|].
  assert (0 <= Z.lxor crc (byte_to_Z b)) as Hnn by (apply Z.lxor_nonneg; lia).
  apply Z.log2_lt_cancel. 
  destruct (decide (crc = 0)) as [->|Hc0].
  - rewrite Z.lxor_0_l. destruct (decide (byte_to_Z b = 0)) as [E|E]; [rewrite E in *; cbn in *; lia|].
    apply Z.log2_lt_pow2 with (b := 8); lia.
  - destruct (decide (byte_to_Z b = 0)) as [E|E].
    + rewrite E, Z.lxor_0_r. apply Z.log2_lt_pow2 with (b := 8); lia.
    + eapply Z.le_lt_trans; [apply Z.log2_lxor; lia|].
      apply Z.max_lub_lt; apply Z.log2_lt_pow2 with (b := 8); lia.
Qed.

(** ** Framing codec *)

Lemma find_magic_shift (i : nat) (b : bytes) :
  find_magic (S i) b = S <$> find_magic i b.
Proof.
  revert i. induction b as [|b0 [|b1 b] IH]; intros i; try reflexivity.
  cbn [find_magic]. case_decide; [reflexivity|]. apply IH.
Qed.

Lemma find_magic_cons2 (i : nat) (b0 b1 : byte) (l : bytes) :
  find_magic i (b0 :: b1 :: l)
  = if decide (b0 = xaa /\ b1 = x55) then Some i else find_magic (S i) (b1 :: l).
Proof. reflexivity. Qed.

Lemma find_magic_skip (junk rest : bytes) (i : nat) :
  find_magic i (junk ++ [xaa]) = None ->
  find_magic i (junk ++ xaa :: x55 :: rest) = Some (i + length junk)%nat.
Proof.
  revert i. induction junk as [|b junk IH]; intros i Hn.
  - cbn [app]. rewrite find_magic_cons2, decide_True by done. f_equal. cbn. lia.
  - destruct junk as [|b' junk].
    + cbn [app] in Hn |- *. rewrite find_magic_cons2 in Hn |- *.
      case_decide as Hd; [discriminate|].
      rewrite find_magic_cons2, decide_True by done. f_equal. cbn. lia.
    + change ((b :: b' :: junk) ++ [xaa]) with (b :: b' :: (junk ++ [xaa])) in Hn.
      change ((b :: b' :: junk) ++ xaa :: x55 :: rest)
        with (b :: b' :: (junk ++ xaa :: x55 :: rest)).
      rewrite find_magic_cons2 in Hn |- *.
      case_decide; [discriminate|].
      change (b' :: junk ++ xaa :: x55 :: rest) with ((b' :: junk) ++ xaa :: x55 :: rest).
      rewrite (IH (S i) Hn). f_equal. cbn [length]. lia.
Qed.

Lemma lor_shiftl_byte (a b : Z) :
  0 <= b < 256 -> Z.lor (Z.shiftl a 8) b = a * 256 + b.
Proof.
  intros Hb.
  assert (Z.land (Z.shiftl a 8) b = 0) as Hland.
  { apply Z.bits_inj'. intros n Hn. rewrite Z.land_spec, Z.bits_0.
    destruct (decide (n < 8)) as [Hlt|Hge].
    - rewrite Z.shiftl_spec_low by lia. reflexivity.
    - destruct (decide (b = 0)) as [->|Hb0]; [rewrite Z.bits_0; apply andb_false_r|].
      rewrite (Z.bits_above_log2 b n), andb_false_r; [reflexivity|lia|].
      assert (Z.log2 b < 8) by (apply Z.log2_lt_pow2; lia). lia. }
  rewrite <- Z.lxor_lor, <- Z.add_nocarry_lxor by exact Hland.
  rewrite Z.shiftl_mul_pow2 by lia. reflexivity.
Qed.

#[global] Instance byte_to_Z_inj : Inj (=) (=) byte_to_Z.
Proof.
  intros a b H. unfold byte_to_Z in H. apply N2Z.inj in H.
  assert (Some a = Some b) as [= ->]; [|reflexivity].
  rewrite <- (Byte.of_to_N a), <- (Byte.of_to_N b). f_equal. exact H.
Qed.

Lemma parse_frame_at_magic (l0 l1 l2 l3 s0 s1 c fm : byte) (payload : bytes) (k t0 t1 : byte)
    (rest : bytes) :
  le_unpack [l0; l1; l2; l3] = Z.of_nat (length payload) ->
  let buffer := [xaa; x55; l0; l1; l2; l3; s0; s1; c; fm] ++ payload ++ [k; t0; t1] ++ rest in
  forall whole : bytes,
  (13 <= length whole)%nat ->
  (exists i, find_magic 0 whole = Some i /\ drop i whole = buffer) ->
  parse_frame whole =
    if decide (Z.of_nat (length payload) > MAX_FRAME_DATA) then None
    else if decide (t0 = x55 /\ t1 = xaa)
         then Some (frame_of s0 s1 c fm payload k, 13 + Z.of_nat (length payload))
         else None.
Proof.
  intros Hlen buffer whole Hwhole (i & Hfind & Hdrop).
  unfold parse_frame. destruct (decide (length whole < 13)%nat) as [?|_]; [exfalso; lia|].
  rewrite Hfind.
  assert ((if decide (0 < i)%nat then drop i whole else whole) = buffer) as ->.
  { case_decide; [done|]. replace i with 0%nat in Hdrop by lia. done. }
  assert (length buffer = (13 + length payload + length rest)%nat) as Hl.
  { unfold buffer. rewrite !length_app. cbn. lia. }
  destruct (decide (length buffer < 6)%nat) as [?|_]; [lia|].
  change (slice 2 6 buffer) with [l0; l1; l2; l3]. rewrite Hlen.
  case_decide; [reflexivity|].
  destruct (decide (Z.of_nat (length buffer) < 13 + Z.of_nat (length payload))) as [?|_]; [lia|].
  change (slice 6 8 buffer) with [s0; s1].
  change (buffer !! 8%nat) with (Some c). change (buffer !! 9%nat) with (Some fm).
  cbv beta iota. rewrite Nat2Z.id.
  assert (forall j, buffer !! (10 + length payload + j)%nat = ([k; t0; t1] ++ rest) !! j) as Hat.
  { intros j. unfold buffer.
    change ([xaa; x55; l0; l1; l2; l3; s0; s1; c; fm] ++ payload ++ [k; t0; t1] ++ rest)
      with ([xaa; x55; l0; l1; l2; l3; s0; s1; c; fm] ++ (payload ++ [k; t0; t1] ++ rest)).
    rewrite lookup_app_r by (cbn; lia).
    rewrite lookup_app_r by (cbn; lia).
    f_equal. cbn. lia. }
  pose proof (Hat 0%nat) as Hk. rewrite Nat.add_0_r in Hk.
  pose proof (Hat 1%nat) as Ht0. pose proof (Hat 2%nat) as Ht1.
  replace (10 + length payload + 1 + 1)%nat with (10 + length payload + 2)%nat by lia.
  rewrite Hk, Ht0, Ht1. cbn [app lookup list_lookup].
  destruct (decide (length buffer <= 10 + length payload + 2)%nat) as [?|_]; [lia|].
  assert (slice 10 (10 + length payload) buffer = payload) as ->.
  { unfold slice, buffer.
    change (drop 10 ([xaa; x55; l0; l1; l2; l3; s0; s1; c; fm] ++ payload ++ [k; t0; t1] ++ rest))
      with (payload ++ [k; t0; t1] ++ rest).
    replace (10 + length payload - 10)%nat with (length payload) by lia.
    rewrite take_app_length. reflexivity. }
  rewrite lor_shiftl_byte by apply byte_to_Z_range.
  destruct (decide (t0 = x55 /\ t1 = xaa)) as [[-> ->]|Hne].
  - rewrite decide_False; [reflexivity|]. intros Hc. apply Hc. reflexivity.
  - rewrite decide_True; [reflexivity|].
    intros Ht. apply Hne.
    pose proof (byte_to_Z_range t0) as H0. pose proof (byte_to_Z_range t1) as H1.
    assert (byte_to_Z t0 = byte_to_Z x55 /\ byte_to_Z t1 = byte_to_Z xaa) as [E0 E1].
    { change (byte_to_Z x55) with 85. change (byte_to_Z xaa) with 170. lia. }
    split; apply (inj byte_to_Z); assumption.
Qed.

Lemma well_formed_parts (f : bytes) :
  well_formed f ->
  exists l0 l1 l2 l3 s0 s1 c fm payload k,
    f = [xaa; x55; l0; l1; l2; l3; s0; s1; c; fm] ++ payload ++ [k; x55; xaa]
    /\ le_unpack [l0; l1; l2; l3] = Z.of_nat (length payload)
    /\ Z.of_nat (length payload) <= MAX_FRAME_DATA.
Proof.
  intros (Hlen & Hmagic & Hl & Hmax & Htrail).
  destruct f as [|b0 [|b1 [|l0 [|l1 [|l2 [|l3 [|s0 [|s1 [|c [|fm r]]]]]]]]]];
    cbn [length] in Hlen; try lia.
  injection Hmagic as -> ->.
  assert (3 <= length r)%nat as Hr by (cbn [length] in Hlen; lia).
  exists l0, l1, l2, l3, s0, s1, c, fm, (take (length r - 3) r).
  assert (exists k, drop (length r - 3) r = [k; x55; xaa]) as [k Hk].
  { assert (drop (length r - 2) r = [x55; xaa]) as Hd.
    { rewrite <- Htrail. cbn [length].
      replace (S (S (S (S (S (S (S (S (S (S (length r)))))))))) - 2)%nat
        with (10 + (length r - 2))%nat by lia.
      reflexivity. }
    destruct (drop (length r - 3) r) as [|k tl] eqn:Hd3.
    { apply (f_equal length) in Hd3. rewrite length_drop in Hd3. cbn in Hd3. lia. }
    exists k. f_equal.
    assert (tl = drop 1 (drop (length r - 3) r)) as -> by (rewrite Hd3; reflexivity).
    rewrite drop_drop. replace (length r - 3 + 1)%nat with (length r - 2)%nat by lia.
    exact Hd. }
  exists k. split; [|split].
  - cbn [app]. do 10 f_equal. rewrite <- Hk. symmetry. apply take_drop.
  - change (slice 2 6 (xaa :: x55 :: l0 :: l1 :: l2 :: l3 :: s0 :: s1 :: c :: fm :: r))
      with (take 4 (l0 :: l1 :: l2 :: l3 :: s0 :: s1 :: c :: fm :: r)) in Hl.
    change (take 4 (l0 :: l1 :: l2 :: l3 :: s0 :: s1 :: c :: fm :: r))
      with [l0; l1; l2; l3] in Hl.
    rewrite Hl, length_take. cbn [length]. lia.
  - rewrite length_take. cbn [length] in Hmax. lia.
Qed.

Lemma parts_well_formed (l0 l1 l2 l3 s0 s1 c fm : byte) (payload : bytes) (k : byte) :
  le_unpack [l0; l1; l2; l3] = Z.of_nat (length payload) ->
  Z.of_nat (length payload) <= MAX_FRAME_DATA ->
  well_formed ([xaa; x55; l0; l1; l2; l3; s0; s1; c; fm] ++ payload ++ [k; x55; xaa]).
Proof.
  intros Hl Hmax. unfold well_formed.
  rewrite !length_app. cbn [length]. split; [lia|]. split; [done|].
  split; [|split; [lia|]].
  - change (slice 2 6 ([xaa; x55; l0; l1; l2; l3; s0; s1; c; fm] ++ payload ++ [k; x55; xaa]))
      with [l0; l1; l2; l3].
    rewrite Hl. lia.
  - replace (10 + (length payload + 3) - 2)%nat with (10 + (length payload + 1))%nat by lia.
    change (drop (10 + (length payload + 1))
              ([xaa; x55; l0; l1; l2; l3; s0; s1; c; fm] ++ payload ++ [k; x55; xaa]))
      with (drop (length payload + 1) (payload ++ [k; x55; xaa])).
    rewrite drop_app_add'; [reflexivity|done].
Qed.

(** Parsing a buffer in which a well-formed frame comes first, after bytes
    that hold no magic prefix: the frame is returned, with the count of
    its own bytes. *)
Lemma parse_frame_parts (junk : bytes) (l0 l1 l2 l3 s0 s1 c fm : byte) (payload : bytes)
    (k : byte) (rest : bytes) :
  no_magic junk ->
  le_unpack [l0; l1; l2; l3] = Z.of_nat (length payload) ->
  Z.of_nat (length payload) <= MAX_FRAME_DATA ->
  parse_frame (junk ++ ([xaa; x55; l0; l1; l2; l3; s0; s1; c; fm] ++ payload ++ [k; x55; xaa])
                 ++ rest)
  = Some (frame_of s0 s1 c fm payload k, 13 + Z.of_nat (length payload)).
Proof.
  intros Hj Hl Hmax.
  rewrite (parse_frame_at_magic l0 l1 l2 l3 s0 s1 c fm payload k x55 xaa rest Hl).
  - rewrite decide_False by lia. rewrite decide_True by done. reflexivity.
  - rewrite !length_app. cbn [length]. lia.
  - exists (length junk). split.
    + cbn [app]. rewrite (find_magic_skip junk _ 0 Hj). reflexivity.
    + rewrite drop_app_length. rewrite <- !app_assoc. reflexivity.
Qed.

Lemma crc_byte_value (d : bytes) : byte_to_Z (crc_byte d) = calculate_crc8 d.
Proof.
  unfold crc_byte. pose proof (calculate_crc8_range d) as Hr.
  destruct (byte_of_Z (calculate_crc8 d)) as [b|e] eqn:Hb.
  - apply byte_of_Z_inv. exact Hb.
  - unfold byte_of_Z in Hb. rewrite decide_True in Hb by exact Hr.
    destruct (Byte.of_N (Z.to_N (calculate_crc8 d))) eqn:Hn; [discriminate|].
    apply Byte.of_N_None_iff in Hn. lia.
Qed.

Lemma parts_crc (l0 l1 l2 l3 s0 s1 c fm : byte) (payload : bytes) (k : byte) :
  let f := [xaa; x55; l0; l1; l2; l3; s0; s1; c; fm] ++ payload ++ [k; x55; xaa] in
  f !! (length f - 3)%nat = Some k /\
  slice 2 (length f - 3) f = [l0; l1; l2; l3; s0; s1; c; fm] ++ payload /\
  take (length f - 3) f = [xaa; x55; l0; l1; l2; l3; s0; s1; c; fm] ++ payload.
Proof.
  intros f.
  assert (length f - 3 = 10 + length payload)%nat as ->.
  { unfold f. rewrite !length_app. cbn [length]. lia. }
  unfold f. split; [|split].
  - change ([xaa; x55; l0; l1; l2; l3; s0; s1; c; fm] ++ payload ++ [k; x55; xaa])
      with ([xaa; x55; l0; l1; l2; l3; s0; s1; c; fm] ++ (payload ++ [k; x55; xaa])).
    rewrite lookup_app_r by (cbn; lia).
    rewrite lookup_app_r by (cbn; lia).
    replace (10 + length payload - length [xaa; x55; l0; l1; l2; l3; s0; s1; c; fm]
               - length payload)%nat with 0%nat by (cbn; lia).
    reflexivity.
  - unfold slice.
    change (drop 2 ([xaa; x55; l0; l1; l2; l3; s0; s1; c; fm] ++ payload ++ [k; x55; xaa]))
      with (([l0; l1; l2; l3; s0; s1; c; fm] ++ payload) ++ [k; x55; xaa]).
    replace (10 + length payload - 2)%nat
      with (length ([l0; l1; l2; l3; s0; s1; c; fm] ++ payload))
      by (rewrite length_app; cbn; lia).
    apply take_app_length.
  - change ([xaa; x55; l0; l1; l2; l3; s0; s1; c; fm] ++ payload ++ [k; x55; xaa])
      with (([xaa; x55; l0; l1; l2; l3; s0; s1; c; fm] ++ payload) ++ [k; x55; xaa]).
    replace (10 + length payload)%nat
      with (length ([xaa; x55; l0; l1; l2; l3; s0; s1; c; fm] ++ payload))
      by (rewrite length_app; cbn; lia).
    apply take_app_length.
Qed.

Lemma reencode_parts (l0 l1 l2 l3 s0 s1 c fm : byte) (payload : bytes) (k : byte) :
  le_unpack [l0; l1; l2; l3] = Z.of_nat (length payload) ->
  byte_to_Z k = calculate_crc8 ([l0; l1; l2; l3; s0; s1; c; fm] ++ payload) ->
  reencode (frame_of s0 s1 c fm payload k)
  = Ok ([xaa; x55; l0; l1; l2; l3; s0; s1; c; fm] ++ payload ++ [k; x55; xaa]).
Proof.
  intros Hl Hk. unfold reencode, build_response_frame, frame_of.
  cbn [command format sequence data rbind].
  pose proof (le_pack_unpack [l0; l1; l2; l3]) as H4. cbn [length] in H4.
  pose proof (le_pack_unpack [s0; s1]) as H2. cbn [length] in H2.
  rewrite <- Hl, H4. cbn [rbind]. rewrite H2. cbn [rbind].
  rewrite !byte_of_to_Z. cbn [rbind].
  change (drop 2 ([xaa; x55] ++ [l0; l1; l2; l3] ++ [s0; s1] ++ [c; fm] ++ payload))
    with ([l0; l1; l2; l3; s0; s1; c; fm] ++ payload).
  rewrite <- Hk, byte_of_to_Z. cbn [rbind].
  rewrite <- !app_assoc. reflexivity.
Qed.

(** C3, as it holds: a frame whose CRC byte is not the computed one is
    returned all the same, wherever it starts in the buffer, and with the
    same count of bytes.  It agrees with the frame decoded from the same
    bytes with the right CRC byte on command, format, sequence, data and
    data_length; its field crc holds the stored byte, so the two frames
    differ there. *)
Theorem parse_frame_crc_mismatch (junk f rest : bytes) :
  no_magic junk -> well_formed f -> ~ crc_valid f ->
  exists fr fr',
    parse_frame (junk ++ f ++ rest) = Some (fr, Z.of_nat (length f))
    /\ parse_frame (junk ++ fix_crc f ++ rest) = Some (fr', Z.of_nat (length f))
    /\ command fr = command fr' /\ format fr = format fr'
    /\ sequence fr = sequence fr' /\ data fr = data fr'
    /\ data_length fr = data_length fr'
    /\ Some (crc fr) = byte_to_Z <$> f !! (length f - 3)%nat
    /\ crc fr' = calculate_crc8 (slice 2 (length f - 3) f)
    /\ crc fr <> crc fr'.
Proof.
  intros Hj Hwf Hcrc.
  destruct (well_formed_parts f Hwf)
    as (l0 & l1 & l2 & l3 & s0 & s1 & c & fm & payload & k & Hf & Hl & Hmax).
  destruct (parts_crc l0 l1 l2 l3 s0 s1 c fm payload k) as (Hat & Hslice & Htake).
  rewrite <- Hf in Hat, Hslice, Htake.
  set (k' := crc_byte (slice 2 (length f - 3) f)).
  assert (fix_crc f = [xaa; x55; l0; l1; l2; l3; s0; s1; c; fm] ++ payload ++ [k'; x55; xaa])
    as Hfix.
  { unfold fix_crc, with_crc. fold k'. rewrite Htake, <- app_assoc. reflexivity. }
  assert (Z.of_nat (length f) = 13 + Z.of_nat (length payload)) as Hlen.
  { rewrite Hf, !length_app. cbn [length]. lia. }
  exists (frame_of s0 s1 c fm payload k), (frame_of s0 s1 c fm payload k').
  rewrite Hlen, Hfix. rewrite Hf at 1.
  rewrite !parse_frame_parts by assumption.
  repeat (split; [reflexivity|]).
  cbn [crc frame_of]. rewrite Hat. split; [reflexivity|].
  unfold k'. rewrite crc_byte_value. split; [reflexivity|].
  intros Heq. apply Hcrc. unfold crc_valid. rewrite Hat. cbn. f_equal. exact Heq.
Qed.

(** The frame [bad_crc_frame] behind two bytes of junk, the second of which
    is 0xAA. *)
Lemma parse_frame_crc_mismatch_witness :
  exists fr fr',
    parse_frame ([x00; xaa] ++ bad_crc_frame ++ [x01]) = Some (fr, 14)
    /\ parse_frame ([x00; xaa] ++ fix_crc bad_crc_frame ++ [x01]) = Some (fr', 14)
    /\ command fr = command fr' /\ format fr = format fr'
    /\ sequence fr = sequence fr' /\ data fr = data fr'
    /\ data_length fr = data_length fr'
    /\ Some (crc fr) = byte_to_Z <$> bad_crc_frame !! 11%nat
    /\ crc fr' = calculate_crc8 (slice 2 11 bad_crc_frame)
    /\ crc fr <> crc fr'.
Proof.
  apply (parse_frame_crc_mismatch [x00; xaa] bad_crc_frame [x01]).
  - reflexivity.
  - apply (bool_decide_unpack _). vm_compute. exact I.
  - apply (bool_decide_unpack _). vm_compute. exact I.
Defined.

(** C3, as it is stated, fails: the frame decoded from [bad_crc_frame] is
    returned, and it is not the frame decoded from the same bytes with the
    right CRC byte. *)
Lemma parse_frame_crc_not_identical :
  ~ crc_valid bad_crc_frame /\ fix_crc bad_crc_frame = good_frame /\
  exists fr fr',
    parse_frame bad_crc_frame = Some (fr, 14)
    /\ parse_frame good_frame = Some (fr', 14)
    /\ fr <> fr'.
Proof.
  split; [apply (bool_decide_unpack _); vm_compute; exact I|]. split; [reflexivity|].
  eexists _, _. split; [vm_compute; reflexivity|]. split; [vm_compute; reflexivity|].
  discriminate.
Qed.

Lemma no_magic_nil : no_magic [].
Proof. reflexivity. Qed.

Lemma parse_frame_well_formed (f rest : bytes) :
  well_formed f ->
  exists fr, parse_frame (f ++ rest) = Some (fr, Z.of_nat (length f))
             /\ parse_frame f = Some (fr, Z.of_nat (length f))
             /\ (crc_valid f -> reencode fr = Ok f).
Proof.
  intros Hwf.
  destruct (well_formed_parts f Hwf)
    as (l0 & l1 & l2 & l3 & s0 & s1 & c & fm & payload & k & Hf & Hl & Hmax).
  assert (Z.of_nat (length f) = 13 + Z.of_nat (length payload)) as Hlen.
  { rewrite Hf, !length_app. cbn [length]. lia. }
  exists (frame_of s0 s1 c fm payload k). rewrite Hlen. split; [|split].
  - rewrite Hf. apply (parse_frame_parts [] _ _ _ _ _ _ _ _ _ _ rest no_magic_nil Hl Hmax).
  - pose proof (parse_frame_parts [] l0 l1 l2 l3 s0 s1 c fm payload k [] no_magic_nil Hl Hmax)
      as Hp.
    rewrite app_nil_l, app_nil_r in Hp. rewrite Hf. exact Hp.
  - intros Hcrc. rewrite Hf. apply reencode_parts; [exact Hl|].
    destruct (parts_crc l0 l1 l2 l3 s0 s1 c fm payload k) as (Hat & Hslice & _).
    unfold crc_valid in Hcrc. rewrite Hf, Hat, Hslice in Hcrc.
    injection Hcrc as Hcrc. exact Hcrc.
Qed.

(** C5, as it holds: a well-formed frame whose CRC byte is the computed one
    is reproduced byte for byte by the encoder from its decoded fields; and
    from the concatenation of two well-formed frames, whatever their CRC
    bytes, the extraction loop yields the two frames, in order, and leaves
    nothing. *)
Theorem frame_roundtrip_streaming (f1 f2 : bytes) :
  well_formed f1 -> well_formed f2 ->
  exists fr1 fr2,
    parse_frame f1 = Some (fr1, Z.of_nat (length f1))
    /\ parse_frame f2 = Some (fr2, Z.of_nat (length f2))
    /\ (crc_valid f1 -> reencode fr1 = Ok f1)
    /\ (crc_valid f2 -> reencode fr2 = Ok f2)
    /\ forall fuel, (2 <= fuel)%nat -> extract_frames fuel (f1 ++ f2) = ([fr1; fr2], []).
Proof.
  intros Hwf1 Hwf2.
  destruct (parse_frame_well_formed f1 f2 Hwf1) as (fr1 & Hp12 & Hp1 & Hre1).
  destruct (parse_frame_well_formed f2 [] Hwf2) as (fr2 & _ & Hp2 & Hre2).
  exists fr1, fr2. split; [exact Hp1|]. split; [exact Hp2|].
  split; [exact Hre1|]. split; [exact Hre2|].
  intros [|[|fuel]] Hfuel; try lia.
  cbn [extract_frames]. rewrite Hp12, Nat2Z.id, drop_app_length.
  rewrite Hp2, Nat2Z.id, drop_all.
  destruct fuel; reflexivity.
Qed.

(** [bad_crc_frame] followed by [good_frame]: the two frames are extracted,
    and the second one, whose CRC byte is right, is reproduced by the
    encoder. *)
Lemma frame_roundtrip_streaming_witness :
  exists fr1 fr2,
    parse_frame bad_crc_frame = Some (fr1, 14)
    /\ parse_frame good_frame = Some (fr2, 14)
    /\ reencode fr2 = Ok good_frame
    /\ forall fuel, (2 <= fuel)%nat ->
         extract_frames fuel (bad_crc_frame ++ good_frame) = ([fr1; fr2], []).
Proof.
  destruct (frame_roundtrip_streaming bad_crc_frame good_frame)
    as (fr1 & fr2 & H1 & H2 & _ & Hre & Hex).
  - apply (bool_decide_unpack _). vm_compute. exact I.
  - apply (bool_decide_unpack _). vm_compute. exact I.
  - exists fr1, fr2. split; [exact H1|]. split; [exact H2|]. split; [|exact Hex].
    apply Hre. apply (bool_decide_unpack _). vm_compute. exact I.
Defined.

(** C5, as it is stated, fails: [bad_crc_frame] has the magic, a length
    within the bound and the trailer, and encoding its decoded fields gives
    [good_frame], other bytes. *)
Lemma frame_roundtrip_needs_crc :
  well_formed bad_crc_frame /\
  exists fr, parse_frame bad_crc_frame = Some (fr, 14)
             /\ reencode fr = Ok good_frame
             /\ good_frame <> bad_crc_frame.
Proof.
  split; [apply (bool_decide_unpack _); vm_compute; exact I|].
  eexists. split; [vm_compute; reflexivity|]. split; [vm_compute; reflexivity|].
  discriminate.
Qed.

Lemma parse_frame_oversized (junk : bytes) (l0 l1 l2 l3 : byte) (rest : bytes) :
  no_magic junk -> le_unpack [l0; l1; l2; l3] > MAX_FRAME_DATA ->
  parse_frame (junk ++ [xaa; x55; l0; l1; l2; l3] ++ rest) = None.
Proof.
  intros Hj Hl. unfold parse_frame. case_decide; [reflexivity|].
  cbn [app]. rewrite (find_magic_skip junk _ 0 Hj). cbn [Nat.add].
  assert ((if decide (0 < length junk)%nat
           then drop (length junk) (junk ++ xaa :: x55 :: l0 :: l1 :: l2 :: l3 :: rest)
           else junk ++ xaa :: x55 :: l0 :: l1 :: l2 :: l3 :: rest)
          = xaa :: x55 :: l0 :: l1 :: l2 :: l3 :: rest) as ->.
  { case_decide; [apply drop_app_length|]. destruct junk; [reflexivity|cbn in *; lia]. }
  destruct (decide (length (xaa :: x55 :: l0 :: l1 :: l2 :: l3 :: rest) < 6)%nat) as [Hc|_];
    [cbn [length] in Hc; lia|].
  change (slice 2 6 (xaa :: x55 :: l0 :: l1 :: l2 :: l3 :: rest))
    with (take 4 (l0 :: l1 :: l2 :: l3 :: rest)).
  change (take 4 (l0 :: l1 :: l2 :: l3 :: rest)) with [l0; l1; l2; l3].
  rewrite decide_True by exact Hl. reflexivity.
Qed.

(** C4, as it holds: a buffer whose first frame header declares more than
    4 MiB is refused by [parse_frame] before any payload is taken from it,
    and the loop of the connection stops there: the buffer is returned as
    it is, no frame is extracted and nothing is sent. *)
Theorem oversized_frame_stalls (junk : bytes) (l0 l1 l2 l3 : byte) (rest : bytes) :
  no_magic junk -> le_unpack [l0; l1; l2; l3] > 4194304 ->
  let buffer := junk ++ [xaa; x55; l0; l1; l2; l3] ++ rest in
  parse_frame buffer = None
  /\ (forall fuel, extract_frames fuel buffer = ([], buffer))
  /\ forall E client_id w, handle_frame_protocol E client_id buffer w = (Ok buffer, [], w).
Proof.
  intros Hj Hl buffer.
  assert (parse_frame buffer = None) as Hp by (apply parse_frame_oversized; assumption).
  split; [exact Hp|]. split.
  - intros [|fuel]; [reflexivity|]. cbn [extract_frames]. rewrite Hp. reflexivity.
  - intros E client_id w. unfold handle_frame_protocol.
    destruct (length buffer) as [|fuel]; [reflexivity|].
    cbn [frame_loop]. rewrite Hp. reflexivity.
Qed.

(** A header that declares 16777217 bytes, behind one byte of junk and
    before [good_frame]. *)
Lemma oversized_frame_stalls_witness :
  let buffer := [x00] ++ [xaa; x55; x01; x00; x00; x01] ++ good_frame in
  parse_frame buffer = None
  /\ (forall fuel, extract_frames fuel buffer = ([], buffer))
  /\ forall E client_id w, handle_frame_protocol E client_id buffer w = (Ok buffer, [], w).
Proof.
  apply (oversized_frame_stalls [x00] x01 x00 x00 x01 good_frame).
  - reflexivity.
  - vm_compute. reflexivity.
Defined.

(** C4, as it is stated, fails: after [oversized_header] the buffer holds
    [good_frame], a frame that [parse_frame] decodes when the buffer
    starts at its magic; the loop extracts no frame, drops nothing and
    sends nothing. *)
Lemma oversized_frame_not_skipped :
  let buffer := oversized_header ++ good_frame in
  (exists fr, parse_frame (drop 6 buffer) = Some (fr, 14))
  /\ extract_frames (length buffer) buffer = ([], buffer)
  /\ handle_frame_protocol example_env "10.0.0.1:5000" buffer example_world
     = (Ok buffer, [], example_world).
Proof.
  split; [eexists; vm_compute; reflexivity|].
  split; vm_compute; reflexivity.
Qed.

(** ** Path sandbox *)

(** C1: the check of [get_safe_path] compares the strings of the two paths,
    so a sibling of the root whose name starts with the name of the root
    passes it.  With the root [/srv/root], the path ["/../root2/secret"] is
    resolved to [/srv/root2/secret], which is not under the root, and is
    returned; a download session started on it then serves the bytes of
    that file.  The path of the specification, ["/../etc/passwd"], is
    refused. *)
Theorem get_safe_path_sibling_escape :
  get_safe_path ["srv"; "root"] "/../root2/secret" = Ok ["srv"; "root2"; "secret"]
  /\ ~ under_root ["srv"; "root"] ["srv"; "root2"; "secret"]
  /\ (exists e, get_safe_path ["srv"; "root"] "/../etc/passwd" = Raise e)
  /\ let start := request_of "DOWNLOAD_REQ" "/../root2/secret" [("action", "start")] in
     let '(r1, w1) := handle_download_req example_env start example_world in
     let chunk := request_of "DOWNLOAD_REQ" "/../root2/secret"
                    [("action", "chunk"); ("sessionId", "dl_1700000000000_secret")] in
     let '(r2, _) := handle_download_req example_env chunk w1 in
     r1 !! "success" = Some (VBool true)
     /\ r2 !! "success" = Some (VBool true)
     /\ r2 !! "data" = Some (VBytes [x53])
     /\ node_at example_world ["srv"; "root2"; "secret"] = Some (File 2%nat)
     /\ inodes example_world !! 2%nat = Some [x53].
Proof.
  split; [vm_compute; reflexivity|].
  split; [apply (bool_decide_unpack _); vm_compute; exact I|].
  split; [eexists; vm_compute; reflexivity|].
  vm_compute. repeat split.
Qed.

(** ** Download sessions *)

(** Any action other than [start] and [chunk] runs into the statements of
    the chunk with [session_id] unbound: the answer is a failure and the
    table of sessions is as before. *)
Lemma download_other_action (E : Env) (request : Request) (w : World) (action : string) :
  get_nonempty (req_options request) "action" = Some action ->
  action <> "start" -> action <> "chunk" ->
  (handle_download_req E request w).1 !! "success" = Some (VBool false)
  /\ download_sessions (handle_download_req E request w).2 = download_sessions w.
Proof.
  intros Ha Hs Hc. unfold handle_download_req.
  case_decide; [done|].
  destruct (get_safe_path _ _) as [target|e]; [|done].
  destruct (negb (path_exists w target)); [done|].
  destruct (negb (is_file w target)); [done|].
  rewrite Ha. rewrite decide_False by exact Hs. rewrite decide_False by exact Hc.
  done.
Qed.

(** C2: in [world_downloading] the session exists; the [finish] request for
    it is answered with success=false, without bytesSent and fileSize, and
    the session stays in the table. *)
Theorem download_finish_fails :
  is_Some (download_sessions world_downloading !! "dl_1700000000000_a.txt")
  /\ (handle_download_req example_env finish_request world_downloading).1 !! "success"
     = Some (VBool false)
  /\ (handle_download_req example_env finish_request world_downloading).1 !! "bytesSent"
     = None
  /\ (handle_download_req example_env finish_request world_downloading).1 !! "fileSize"
     = None
  /\ download_sessions
       (handle_download_req example_env finish_request world_downloading).2
     = download_sessions world_downloading.
Proof.
  split; [apply (bool_decide_unpack _); vm_compute; exact I|].
  repeat split; vm_compute; reflexivity.
Qed.

(** ** Upload sessions *)

Lemma dict_get_set {V} (k k' : string) (v : V) (d : list (string * V)) :
  dict_get k (dict_set k' v d) = if decide (k = k') then Some v else dict_get k d.
Proof.
  induction d as [|[k0 v0] d IH]; cbn [dict_set dict_get].
  - repeat case_decide; congruence.
  - destruct (decide (k0 = k')) as [->|Hne]; cbn [dict_get].
    + repeat case_decide; congruence.
    + rewrite IH. repeat case_decide; congruence.
Qed.

Lemma dict_set_set {V} (k : string) (v1 v2 : V) (d : list (string * V)) :
  dict_set k v2 (dict_set k v1 d) = dict_set k v2 d.
Proof.
  induction d as [|[k0 v0] d IH]; cbn [dict_set].
  - rewrite decide_True by done. reflexivity.
  - destruct (decide (k0 = k)) as [->|Hne]; cbn [dict_set].
    + rewrite decide_True by done. reflexivity.
    + rewrite decide_False by done. rewrite IH. reflexivity.
Qed.

Lemma dict_last_key_set {V} (k : string) (v v0 : V) (d : list (string * V)) :
  dict_get k d = Some v0 -> dict_last_key (dict_set k v d) = dict_last_key d.
Proof.
  induction d as [|[k1 v1] d IH]; [discriminate|].
  cbn [dict_get dict_set]. destruct (decide (k1 = k)) as [->|Hne].
  - intros _. destruct d; reflexivity.
  - intros Hg. specialize (IH Hg).
    destruct d as [|[k2 v2] d]; [discriminate|].
    cbn [dict_set] in IH |- *. destruct (decide (k2 = k)); cbn [dict_last_key] in IH |- *;
      exact IH.
Qed.

Lemma seek_write_sessions (w w' : World) (h : nat) (offset : Z) (chunk : bytes) :
  seek_write w h offset chunk = Ok w' ->
  upload_sessions w' = upload_sessions w /\ download_sessions w' = download_sessions w
  /\ ticks w' = ticks w.
Proof.
  unfold seek_write, rbind. destruct (handle_ino w h); [|discriminate].
  case_decide; [discriminate|]. intros [= <-]. done.
Qed.

Lemma open_existing_sessions (w w' : World) (p : Path) (h : nat) :
  open_existing w p = Ok (h, w') ->
  upload_sessions w' = upload_sessions w /\ download_sessions w' = download_sessions w
  /\ ticks w' = ticks w.
Proof.
  unfold open_existing. destruct (node_at w p) as [[|ino]|]; try discriminate.
  intros [= <- <-]. done.
Qed.

Lemma handle_upload_data_effect (E : Env) (request : Request) (w : World) :
  upload_data_effect request w (handle_upload_data E request w).1
    (handle_upload_data E request w).2.
Proof.
  unfold handle_upload_data.
  destruct (match get_nonempty (req_options request) "sessionId" with
            | Some sid => Some sid
            | None => dict_last_key (upload_sessions w)
            end) as [sid|] eqn:Hchosen; [|by apply upload_no_session].
  destruct (dict_get sid (upload_sessions w)) as [s|] eqn:Hget;
    [|by apply upload_no_session].
  cbn [time_time].
  destruct (us_handle (set_activity s (clock E (ticks w)))) as [h|] eqn:Hh.
  - destruct (seek_write _ h _ _) as [w1|e] eqn:Hw.
    + apply seek_write_sessions in Hw as (Hw & _ & _).
      eapply (upload_accepted _ _ _ _ sid s); try done;
        [cbn; rewrite Hw; cbn; rewrite ?dict_set_set; reflexivity | reflexivity ..].
    + eapply (upload_refused _ _ _ _ sid s (set_activity s (clock E (ticks w)))); done.
  - destruct (open_existing _ (us_file_path (set_activity s (clock E (ticks w)))))
      as [[h w1]|e] eqn:Ho.
    + apply open_existing_sessions in Ho as (Ho & _ & _). cbn in Ho.
      destruct (seek_write _ h _ _) as [w2|e] eqn:Hw.
      * apply seek_write_sessions in Hw as (Hw & _ & _). cbn in Hw.
        eapply (upload_accepted _ _ _ _ sid s); try done;
          [cbn; rewrite Hw, Ho, ?dict_set_set; reflexivity | reflexivity ..].
      * eapply (upload_refused _ _ _ _ sid s
                  (set_handle (set_activity s (clock E (ticks w))) (Some h))); try done.
        cbn. rewrite Ho, ?dict_set_set. reflexivity.
    + eapply (upload_refused _ _ _ _ sid s (set_activity s (clock E (ticks w)))); done.
Qed.

Lemma chunk_size_of_app (ds1 ds2 : list (string * Z * Z)) (sid : string) (i : Z) :
  chunk_size_of (ds1 ++ ds2) sid i =
  match chunk_size_of ds1 sid i with
  | Some n => Some n
  | None => chunk_size_of ds2 sid i
  end.
Proof.
  induction ds1 as [|[[sid' i'] n] ds1 IH]; [reflexivity|].
  cbn [app chunk_size_of]. case_decide; [reflexivity|exact IH].
Qed.

Lemma foldr_add_perm (l1 l2 : list Z) :
  l1 ≡ₚ l2 -> foldr Z.add 0 l1 = foldr Z.add 0 l2.
Proof. induction 1; cbn [foldr]; lia. Qed.

Lemma sum_over_empty (f : Z -> Z) : sum_over ∅ f = 0.
Proof. unfold sum_over. rewrite elements_empty. reflexivity. Qed.

Lemma sum_over_insert (X : gset Z) (f : Z -> Z) (i : Z) :
  i ∉ X -> sum_over ({[i]} ∪ X) f = f i + sum_over X f.
Proof.
  intros Hi. unfold sum_over.
  rewrite (foldr_add_perm (f <$> elements ({[i]} ∪ X)) (f <$> (i :: elements X))).
  - reflexivity.
  - apply fmap_Permutation. apply elements_union_singleton. exact Hi.
Qed.

Lemma union_singleton_absorb (X : gset Z) (i : Z) : i ∈ X -> {[i]} ∪ X = X.
Proof.
  intros Hi. apply set_eq. intros x. rewrite elem_of_union, elem_of_singleton.
  split; [intros [->|?]; assumption|auto].
Qed.

Lemma sum_over_ext (X : gset Z) (f g : Z -> Z) :
  (forall i, i ∈ X -> f i = g i) -> sum_over X f = sum_over X g.
Proof.
  intros H. unfold sum_over. f_equal. apply list_fmap_ext.
  intros k i Hk. apply H. apply elem_of_elements. eapply list_elem_of_lookup_2. exact Hk.
Qed.

Lemma upload_inv_step (sid : string) (ds : list (string * Z * Z)) (request : Request)
    (w w' : World) (resp : Response) :
  upload_inv sid ds w ->
  upload_data_effect request w resp w' ->
  upload_inv sid (ds ++ deliveries [(request, resp)]) w'.
Proof.
  intros (s & Hget & Hrec & Hbytes) Heff.
  destruct Heff as [Hfail Htab | sid0 s0 s0' Hget0 Htab Hfail Hr Hb
                   | sid0 s0 s0' _ Hget0 Htab Hok Hsid Hidx Hr Hb].
  - assert (deliveries [(request, resp)] = []) as ->
      by (unfold deliveries, delivery_of; cbn; rewrite Hfail; reflexivity).
    rewrite app_nil_r. exists s. rewrite Htab. done.
  - assert (deliveries [(request, resp)] = []) as ->
      by (unfold deliveries, delivery_of; cbn; rewrite Hfail; reflexivity).
    rewrite app_nil_r. unfold upload_inv. rewrite Htab, dict_get_set.
    destruct (decide (sid = sid0)) as [<-|Hd].
    + assert (s0 = s) as -> by congruence.
      exists s0'. rewrite Hr, Hb. done.
    + exists s. done.
  - set (i := default 0 (req_chunkIndex request)) in *.
    set (n := Z.of_nat (length (default [] (req_data request)))) in *.
    assert (deliveries [(request, resp)] = [(sid0, i, n)]) as ->
      by (unfold deliveries, delivery_of; cbn; rewrite Hok, Hsid, Hidx; reflexivity).
    unfold upload_inv. rewrite Htab, dict_get_set.
    destruct (decide (sid = sid0)) as [<-|Hd].
    + assert (s0 = s) as -> by congruence.
      exists s0'. split; [reflexivity|]. split.
      * intros j. rewrite Hr, chunk_size_of_app. cbn [chunk_size_of].
        specialize (Hrec j). destruct (chunk_size_of ds sid j) as [m|] eqn:Hc.
        -- split; [eauto|]. intros _. apply elem_of_union_r, Hrec. eauto.
        -- destruct (decide (sid = sid /\ i = j)) as [Hj|Hj].
           ++ destruct Hj as [_ <-]. split; [eauto|]. intros _.
              apply elem_of_union_l, elem_of_singleton. reflexivity.
           ++ split; [|intros [? ?]; discriminate].
              intros [Hin|Hin]%elem_of_union.
              ** apply elem_of_singleton in Hin. subst j. exfalso. apply Hj. done.
              ** apply Hrec in Hin. destruct Hin; discriminate.
      * rewrite Hb, Hr. case_bool_decide as Hin.
        -- rewrite (union_singleton_absorb _ _ Hin).
           rewrite Hbytes. apply sum_over_ext. intros j Hj.
           rewrite chunk_size_of_app. apply Hrec in Hj as [m ->]. reflexivity.
        -- rewrite sum_over_insert by exact Hin.
           rewrite chunk_size_of_app.
           assert (chunk_size_of ds sid i = None) as ->.
           { destruct (chunk_size_of ds sid i) eqn:Hc; [|reflexivity].
             exfalso. apply Hin, Hrec. eauto. }
           cbn [chunk_size_of]. rewrite decide_True by done. cbn [default].
           rewrite Hbytes. rewrite Z.add_comm. f_equal.
           apply sum_over_ext. intros j Hj.
           rewrite chunk_size_of_app. apply Hrec in Hj as [m ->]. reflexivity.
    + exists s. split; [exact Hget|]. split.
      * intros j. rewrite chunk_size_of_app. cbn [chunk_size_of].
        rewrite decide_False by (intros [? ?]; congruence).
        specialize (Hrec j). destruct (chunk_size_of ds sid j); [exact Hrec|].
        exact Hrec.
      * rewrite Hbytes. apply sum_over_ext. intros j Hj.
        rewrite chunk_size_of_app. apply Hrec in Hj as [m ->]. reflexivity.
Qed.

Lemma upload_inv_run (E : Env) (sid : string) (reqs : list Request) :
  forall (ds : list (string * Z * Z)) (w : World),
  upload_inv sid ds w ->
  upload_inv sid (ds ++ deliveries (run_uploads E reqs w).1) (run_uploads E reqs w).2.
Proof.
  induction reqs as [|r reqs IH]; intros ds w Hinv.
  - cbn. rewrite app_nil_r. exact Hinv.
  - cbn [run_uploads].
    pose proof (handle_upload_data_effect E r w) as Heff.
    destruct (handle_upload_data E r w) as [resp w1]. cbn [fst snd] in Heff.
    pose proof (upload_inv_step sid ds r w w1 resp Hinv Heff) as Hstep.
    specialize (IH _ _ Hstep).
    destruct (run_uploads E reqs w1) as [log w']. cbn [fst snd] in IH |- *.
    replace (ds ++ deliveries ((r, resp) :: log))
      with ((ds ++ deliveries [(r, resp)]) ++ deliveries log); [exact IH|].
    rewrite <- app_assoc. f_equal. unfold deliveries. cbn [omap list_omap].
    destruct (delivery_of (r, resp)); reflexivity.
Qed.

(** C6: when a request has been accepted, delivering it once more leaves
    bytes_received and received_chunks of every session as they are; and
    after any sequence of UPLOAD_DATA requests on a session that started
    empty, its received_chunks are the indices delivered and
    bytes_received is the sum, over these indices, of the size of the
    chunk, which is the size of its first delivery. *)
Theorem upload_bytes_received_idempotent (E : Env) (request : Request) (w : World)
    (reqs : list Request) (w0 : World) (sid : string) (s : UploadSession) :
  (handle_upload_data E request w).1 !! "success" = Some (VBool true) ->
  dict_get sid (upload_sessions w0) = Some s ->
  us_received_chunks s = ∅ -> us_bytes_received s = 0 ->
  (let w1 := (handle_upload_data E request w).2 in
   let w2 := (handle_upload_data E request w1).2 in
   forall sid1 s1, dict_get sid1 (upload_sessions w1) = Some s1 ->
     exists s2, dict_get sid1 (upload_sessions w2) = Some s2
       /\ us_bytes_received s2 = us_bytes_received s1
       /\ us_received_chunks s2 = us_received_chunks s1)
  /\
  (let ds := deliveries (run_uploads E reqs w0).1 in
   exists s', dict_get sid (upload_sessions (run_uploads E reqs w0).2) = Some s'
     /\ (forall i, i ∈ us_received_chunks s' <-> is_Some (chunk_size_of ds sid i))
     /\ us_bytes_received s'
        = sum_over (us_received_chunks s') (fun i => default 0 (chunk_size_of ds sid i))).
Proof.
  intros Hok Hget Hrec0 Hbytes0. split.
  - intros w1 w2 sid1 s1 Hget1.
    pose proof (handle_upload_data_effect E request w) as Heff1.
    pose proof (handle_upload_data_effect E request w1) as Heff2.
    fold w1 in Heff1. fold w2 in Heff2.
    destruct Heff1 as [Hfail _ | ? ? ? _ _ Hfail _ _
                      | sid0 t0 t0' Hch Hg0 Htab1 _ _ _ Hr1 Hb1]; [congruence..|].
    destruct Heff2 as [_ Htab2 | sidx tx tx' Hgx Htab2 _ Hrx Hbx
                      | sidx tx tx' Hchx Hgx Htab2 _ _ _ Hrx Hbx].
    + exists s1. rewrite Htab2. done.
    + rewrite Htab2, dict_get_set. destruct (decide (sid1 = sidx)) as [->|Hne].
      * exists tx'. assert (tx = s1) as -> by congruence. done.
      * exists s1. done.
    + assert (sidx = sid0) as ->.
      { rewrite Htab1 in Hchx. rewrite (dict_last_key_set _ _ _ _ Hg0) in Hchx. congruence. }
      assert (tx = t0') as ->.
      { rewrite Htab1, dict_get_set, decide_True in Hgx by done. congruence. }
      assert (default 0 (req_chunkIndex request) ∈ us_received_chunks t0') as Hin.
      { rewrite Hr1. apply elem_of_union_l, elem_of_singleton. reflexivity. }
      rewrite bool_decide_eq_true_2 in Hbx by exact Hin.
      rewrite (union_singleton_absorb _ _ Hin) in Hrx.
      rewrite Htab2, dict_get_set. destruct (decide (sid1 = sid0)) as [->|Hne].
      * exists tx'. assert (t0' = s1) as <-.
        { rewrite Htab1, dict_get_set, decide_True in Hget1 by done. congruence. }
        done.
      * exists s1. done.
  - cbv zeta.
    assert (upload_inv sid [] w0) as Hinv.
    { exists s. split; [exact Hget|]. split.
      - intros i. rewrite Hrec0. cbn. split; [intros []%not_elem_of_empty|intros [? [=]]].
      - rewrite Hbytes0, Hrec0, sum_over_empty. reflexivity. }
    exact (upload_inv_run E sid reqs [] w0 Hinv).
Qed.

(** Chunk 1 of the session of [world_uploading] delivered twice, then chunk
    2 without a session id. *)
Lemma upload_bytes_received_idempotent_witness :
  (forall sid1 s1,
     dict_get sid1 (upload_sessions (handle_upload_data example_env chunk1_request
                                       world_uploading).2) = Some s1 ->
     exists s2,
       dict_get sid1
         (upload_sessions
            (handle_upload_data example_env chunk1_request
               (handle_upload_data example_env chunk1_request world_uploading).2).2)
       = Some s2
       /\ us_bytes_received s2 = us_bytes_received s1
       /\ us_received_chunks s2 = us_received_chunks s1)
  /\
  (let reqs := [chunk1_request; chunk1_request;
                upload_request "up.bin" [] 2 [x63]] in
   let ds := deliveries (run_uploads example_env reqs world_uploading).1 in
   exists s', dict_get "s1" (upload_sessions (run_uploads example_env reqs world_uploading).2)
              = Some s'
     /\ (forall i, i ∈ us_received_chunks s' <-> is_Some (chunk_size_of ds "s1" i))
     /\ us_bytes_received s'
        = sum_over (us_received_chunks s') (fun i => default 0 (chunk_size_of ds "s1" i))).
Proof.
  destruct (dict_get "s1" (upload_sessions world_uploading)) as [s|] eqn:Hs;
    [|vm_compute in Hs; discriminate].
  apply (upload_bytes_received_idempotent example_env chunk1_request world_uploading
           [chunk1_request; chunk1_request; upload_request "up.bin" [] 2 [x63]]
           world_uploading "s1" s).
  - vm_compute. reflexivity.
  - exact Hs.
  - vm_compute in Hs. injection Hs as <-. reflexivity.
  - vm_compute in Hs. injection Hs as <-. reflexivity.
Defined.

(** The run of the example: chunk 1 (2 bytes) twice, then chunk 2 (1 byte)
    without a session id; 3 bytes are counted. *)
Example upload_run_example :
  let reqs := [chunk1_request; chunk1_request; upload_request "up.bin" [] 2 [x63]] in
  (us_bytes_received <$> dict_get "s1"
     (upload_sessions (run_uploads example_env reqs world_uploading).2)) = Some 3
  /\ deliveries (run_uploads example_env reqs world_uploading).1
     = [("s1", 1, 2); ("s1", 1, 2); ("s1", 2, 1)].
Proof. split; vm_compute; reflexivity. Qed.

(** ** Download sessions, continued *)









(** In the run of the witness the first request serves chunk 0 and moves
    nextChunk to 1; the second one asks for index 0, which reads as "no
    index", so that nextChunk (1) is taken and refused as out of range; the
    third one is the [finish] that fails. *)
Example download_run_example :
  let reqs := [chunk_request "dl_1700000000000_a.txt" None;
               chunk_request "dl_1700000000000_a.txt" (Some 0);
               finish_request] in
  (fun s => (elements (ds_servedChunks s), ds_nextChunk s, ds_bytesSent s))
    <$> download_sessions (run_downloads example_env reqs world_downloading).2
          !! "dl_1700000000000_a.txt"
  = Some ([0], 1, 3)
  /\ (fun rr => rr.2 !! "success") <$> (run_downloads example_env reqs world_downloading).1
     = [Some (VBool true); Some (VBool false); Some (VBool false)].
Proof. split; vm_compute; reflexivity. Qed.

(** ** Upload sessions, continued *)

Lemma mkdir_from_files (below : list string) :
  forall (above : Path) (m m' : gmap Path Node),
  mkdir_from above below m = Ok m' ->
  forall p ino, m' !! p = Some (File ino) -> m !! p = Some (File ino).
Proof.
  induction below as [|c below IH]; intros above m m' Hm p ino Hp.
  - cbn in Hm. injection Hm as <-. exact Hp.
  - cbn [mkdir_from] in Hm. destruct (m !! (above ++ [c])) as [[|i]|] eqn:Hc.
    + exact (IH _ _ _ Hm p ino Hp).
    + discriminate.
    + pose proof (IH _ _ _ Hm p ino Hp) as H.
      destruct (decide (above ++ [c] = p)) as [<-|Hne].
      * rewrite lookup_insert_eq in H. discriminate.
      * rewrite lookup_insert_ne in H by exact Hne. exact H.
Qed.

Lemma mkdir_parents_ok (w w' : World) (p : Path) :
  mkdir_parents w p = Ok w' ->
  fs_ok w ->
  fs_ok w' /\ inodes w' = inodes w /\ handles w' = handles w
  /\ upload_sessions w' = upload_sessions w.
Proof.
  unfold mkdir_parents, rbind. destruct (mkdir_from [] p (fs w)) as [m|e] eqn:Hm; [|discriminate].
  intros [= <-] Hok. cbn. split; [|done].
  unfold fs_ok. cbn. intros q [|ino] Hq; [exact I|].
  exact (Hok q (File ino) (mkdir_from_files _ _ _ _ Hm q ino Hq)).
Qed.

(** The pre-creation leaves a file of [file_size] zero bytes behind the
    file object it returns, which is the last one of the state; the file
    objects that were there are as before. *)
Lemma precreate_file_ok (w w' : World) (p : Path) (file_size : Z) (h : nat) :
  fs_ok w ->
  precreate_file w p file_size = (Ok h, w') ->
  exists ino,
    node_at w' p = Some (File ino)
    /\ inodes w' !! ino = Some (replicate (Z.to_nat file_size) x00)
    /\ handles w' = handles w ++ [(ino, false); (ino, true)]
    /\ h = S (length (handles w))
    /\ upload_sessions w' = upload_sessions w.
Proof.
  intros Hok. unfold precreate_file.
  destruct (open_wb w p) as [[f w1]|e] eqn:Ho; [|discriminate].
  assert (exists ino,
    node_at w1 p = Some (File ino) /\ inodes w1 !! ino = Some []
    /\ handles w1 = handles w ++ [(ino, true)] /\ f = length (handles w)
    /\ upload_sessions w1 = upload_sessions w) as (ino & Hn1 & Hi1 & Hh1 & Hf & Hu1).
  { unfold open_wb in Ho. destruct (node_at w p) as [[|ino]|] eqn:Hn; [discriminate|..].
    - injection Ho as <- <-. exists ino. unfold node_at in Hn |- *. cbn.
      destruct p as [|c p]; [discriminate|]. split; [exact Hn|].
      split; [|done]. apply list_lookup_insert_eq. exact (Hok _ _ Hn).
    - destruct (is_dir w (path_parent p)); [|discriminate].
      injection Ho as <- <-. exists (length (inodes w)). unfold node_at in Hn |- *. cbn.
      destruct p as [|c p]; [discriminate|]. split; [apply lookup_insert_eq|].
      split; [|done]. rewrite lookup_app_r by lia. rewrite Nat.sub_diag. reflexivity. }
  assert (handle_ino w1 f = Ok ino) as Hino.
  { unfold handle_ino. rewrite Hh1, Hf, lookup_app_r by lia.
    rewrite Nat.sub_diag. reflexivity. }
  set (zeros := replicate (Z.to_nat file_size) x00).
  destruct (if decide (file_size > 0) then truncate_handle w1 f file_size else Ok w1)
    as [w2|e] eqn:Ht; [|discriminate].
  assert (node_at w2 p = Some (File ino) /\ inodes w2 !! ino = Some zeros
          /\ handles w2 = handles w1 /\ upload_sessions w2 = upload_sessions w1)
    as (Hn2 & Hi2 & Hh2 & Hu2).
  { case_decide.
    - unfold truncate_handle, rbind in Ht. rewrite Hino in Ht. injection Ht as <-.
      cbn. split; [exact Hn1|]. split; [|done].
      rewrite list_lookup_alter, Hi1. cbn. rewrite decide_True by done.
      rewrite take_nil, Nat.sub_0_r. reflexivity.
    - injection Ht as <-. split; [exact Hn1|]. split; [|done].
      rewrite Hi1. unfold zeros. replace (Z.to_nat file_size) with 0%nat by lia. reflexivity. }
  cbn zeta.
  destruct (open_existing (close_handle w2 f) p) as [[h' w3]|e] eqn:Ho3; [|discriminate].
  intros [= <- <-]. exists ino.
  unfold open_existing in Ho3.
  change (node_at (close_handle w2 f) p) with (node_at w2 p) in Ho3. rewrite Hn2 in Ho3.
  injection Ho3 as <- <-. cbn.
  assert (alter (fun e : nat * bool => (e.1, false)) f (handles w2)
          = handles w ++ [(ino, false)]) as Hclosed.
  { rewrite Hh2, Hh1, Hf.
    pose proof (alter_app_r (fun e : nat * bool => (e.1, false)) (handles w) [(ino, true)] 0)
      as Ha.
    rewrite Nat.add_0_r in Ha. exact Ha. }
  rewrite Hclosed. split; [exact Hn2|]. split; [exact Hi2|].
  split; [rewrite <- app_assoc; reflexivity|].
  split; [rewrite length_app; cbn; lia|]. congruence.
Qed.

Lemma mkdir_from_keeps (below : list string) :
  forall (above : Path) (m m' : gmap Path Node),
  mkdir_from above below m = Ok m' ->
  forall p n, m !! p = Some n -> m' !! p = Some n.
Proof.
  induction below as [|c below IH]; intros above m m' Hm p n Hp.
  - cbn in Hm. injection Hm as <-. exact Hp.
  - cbn [mkdir_from] in Hm. destruct (m !! (above ++ [c])) as [[|i]|] eqn:Hc.
    + exact (IH _ _ _ Hm p n Hp).
    + discriminate.
    + apply (IH _ _ _ Hm p n).
      rewrite lookup_insert_ne; [exact Hp|]. intros <-. congruence.
Qed.

Lemma mkdir_parents_keeps (w w' : World) (d p : Path) (n : Node) :
  mkdir_parents w d = Ok w' -> node_at w p = Some n -> node_at w' p = Some n.
Proof.
  unfold mkdir_parents, rbind. destruct (mkdir_from [] d (fs w)) as [m|e] eqn:Hm; [|discriminate].
  intros [= <-]. unfold node_at. cbn. destruct p as [|c p]; [done|].
  apply (mkdir_from_keeps _ _ _ _ Hm).
Qed.

(** The pre-creation touches one file: every file with another inode than
    the one now at [p] is where it was, with the content it had. *)
Lemma precreate_file_others (w w' : World) (p : Path) (file_size : Z) (h ino : nat) :
  precreate_file w p file_size = (Ok h, w') ->
  node_at w' p = Some (File ino) ->
  forall q i, node_at w q = Some (File i) -> i <> ino ->
    node_at w' q = Some (File i) /\ inodes w' !! i = inodes w !! i.
Proof.
  unfold precreate_file.
  destruct (open_wb w p) as [[f w1]|e] eqn:Ho; [|discriminate].
  assert (exists ino1,
    node_at w1 p = Some (File ino1) /\ handle_ino w1 f = Ok ino1
    /\ forall q i, node_at w q = Some (File i) -> i <> ino1 ->
         node_at w1 q = Some (File i) /\ inodes w1 !! i = inodes w !! i)
    as (ino1 & Hn1 & Hino & Hother).
  { unfold open_wb in Ho. destruct (node_at w p) as [[|ino1]|] eqn:Hn; [discriminate|..].
    - injection Ho as <- <-. exists ino1. split; [exact Hn|]. split.
      + unfold handle_ino. cbn. rewrite lookup_app_r by lia. rewrite Nat.sub_diag. reflexivity.
      + intros q i Hq Hi. split; [exact Hq|]. cbn. apply list_lookup_insert_ne. congruence.
    - destruct (is_dir w (path_parent p)); [|discriminate].
      injection Ho as <- <-. exists (length (inodes w)).
      assert (p <> []) as Hp by (intros ->; discriminate).
      split; [unfold node_at; cbn; destruct p; [done|apply lookup_insert_eq]|]. split.
      + unfold handle_ino. cbn. rewrite lookup_app_r by lia. rewrite Nat.sub_diag. reflexivity.
      + intros q i Hq Hi. split.
        * unfold node_at in Hq, Hn |- *. cbn. destruct q as [|c q]; [discriminate|].
          rewrite lookup_insert_ne; [exact Hq|]. intros Heq. subst p. congruence.
        * cbn. destruct (decide (i < length (inodes w))%nat).
          -- apply lookup_app_l. assumption.
          -- rewrite (lookup_ge_None_2 (inodes w)) by lia.
             apply lookup_ge_None_2. rewrite length_app. cbn. lia. }
  destruct (if decide (file_size > 0) then truncate_handle w1 f file_size else Ok w1)
    as [w2|e] eqn:Ht; [|discriminate].
  assert (node_at w2 p = Some (File ino1)
          /\ forall q i, node_at w q = Some (File i) -> i <> ino1 ->
               node_at w2 q = Some (File i) /\ inodes w2 !! i = inodes w !! i)
    as (Hn2 & Hother2).
  { case_decide.
    - unfold truncate_handle, rbind in Ht. rewrite Hino in Ht. injection Ht as <-.
      split; [exact Hn1|]. intros q i Hq Hi. destruct (Hother q i Hq Hi) as [Hq1 Hi1].
      split; [exact Hq1|]. cbn. rewrite list_lookup_alter_ne by congruence. exact Hi1.
    - injection Ht as <-. split; [exact Hn1|exact Hother]. }
  cbn zeta.
  destruct (open_existing (close_handle w2 f) p) as [[h' w3]|e] eqn:Ho3; [|discriminate].
  intros [= <- <-] Hn3.
  unfold open_existing in Ho3.
  change (node_at (close_handle w2 f) p) with (node_at w2 p) in Ho3. rewrite Hn2 in Ho3.
  injection Ho3 as <- <-.
  change (node_at (set_fs _ _ _ _) p) with (node_at w2 p) in Hn3.
  assert (ino1 = ino) as -> by congruence.
  intros q i Hq Hi. exact (Hother2 q i Hq Hi).
Qed.

Lemma failure_success (msg : string) : failure msg !! "success" = Some (VBool false).
Proof. reflexivity. Qed.

Lemma close_handle_closed (w : World) (h : nat) : ~ is_open (close_handle w h) h.
Proof.
  intros [ino Hino]. cbn in Hino. rewrite list_lookup_alter, decide_True in Hino by done.
  destruct (handles w !! h) as [[i b]|]; discriminate.
Qed.

(** C10, as it holds: an UPLOAD_REQ that names an existing session and is
    accepted closes the file object of the old session, leaves at the
    target path of the request (the file name of the request under its
    directory) a file of the declared size that holds zero bytes only,
    whatever was there, with a new open file object on it, and puts a
    session for that path, with no received chunk and no received byte, in
    the place of the old one.  Every other file, that is every file with
    another inode than the file at the target path, is where it was, with
    the content it had: also the file of the old session, when the target of
    the request is another one. *)
Theorem upload_req_replaces (E : Env) (request : Request) (w : World) (sid : string)
    (old : UploadSession) :
  fs_ok w ->
  get_nonempty (req_options request) "sessionId" = Some sid ->
  dict_get sid (upload_sessions w) = Some old ->
  (forall ho, us_handle old = Some ho -> (ho < length (handles w))%nat) ->
  (handle_upload_req E request w).1 !! "success" = Some (VBool true) ->
  let w' := (handle_upload_req E request w).2 in
  let file_size := default 0 (req_fileSize request) in
  exists s' h ino target,
    upload_target request w = Ok target
    /\ dict_get sid (upload_sessions w') = Some s'
    /\ us_file_path s' = target
    /\ us_received_chunks s' = ∅ /\ us_bytes_received s' = 0
    /\ us_file_size s' = file_size
    /\ us_handle s' = Some h
    /\ handles w' !! h = Some (ino, true)
    /\ node_at w' target = Some (File ino)
    /\ file_content w' target = Some (replicate (Z.to_nat file_size) x00)
    /\ (forall ho, us_handle old = Some ho -> ~ is_open w' ho)
    /\ (forall p i, node_at w p = Some (File i) -> i <> ino ->
          node_at w' p = Some (File i) /\ inodes w' !! i = inodes w !! i).
Proof.
  intros Hok Hsid Hold Hvalid. unfold handle_upload_req, upload_target. rewrite Hsid.
  case_decide; [cbn [fst]; rewrite failure_success; discriminate|].
  rewrite Hold. cbn zeta.
  set (w1 := match us_handle old with
             | Some handle => close_handle _ handle
             | None => _
             end).
  assert (fs_ok w1 /\ length (handles w1) = length (handles w)
          /\ (forall ho, us_handle old = Some ho -> ~ is_open w1 ho)
          /\ root_dir w1 = root_dir w
          /\ (forall p, node_at w1 p = node_at w p) /\ inodes w1 = inodes w)
    as (Hok1 & Hlen1 & Hcl1 & Hroot1 & Hn1 & Hi1).
  { unfold w1. destruct (us_handle old) as [ho|].
    - split; [exact Hok|]. split; [cbn; apply length_alter|].
      split; [intros ? [= <-]; apply close_handle_closed|done].
    - split; [exact Hok|]. split; [reflexivity|]. split; [intros ? [=]|done]. }
  rewrite Hroot1.
  destruct (if decide (default "/" (req_path request) = "/") then Ok (root_dir w)
            else get_safe_path (root_dir w) (default "/" (req_path request)))
    as [target_dir|e]; [|unfold upload_req_except; cbn [fst]; rewrite failure_success; discriminate].
  cbn [rbind].
  set (target := resolve (joinpath target_dir (default "" (req_name request)))).
  destruct (mkdir_parents w1 _) as [w2|e] eqn:Hmk;
    [|unfold upload_req_except; cbn [fst]; rewrite failure_success; discriminate].
  pose proof (fun p n => mkdir_parents_keeps _ _ _ p n Hmk) as Hkeep2.
  apply mkdir_parents_ok in Hmk as (Hok2 & Hi2 & Hh2 & _); [|exact Hok1].
  destruct (precreate_file w2 _ _) as [[h|e] w3] eqn:Hpre;
    [|unfold upload_req_except; cbn [fst]; rewrite failure_success; discriminate].
  pose proof Hpre as Hpre'.
  apply precreate_file_ok in Hpre as (ino & Hn3 & Hi3 & Hh3 & Hh & _); [|exact Hok2].
  pose proof (precreate_file_others _ _ _ _ _ _ Hpre' Hn3) as Hothers.
  intros _. cbn [time_time fst snd].
  eexists _, h, ino, target.
  split; [reflexivity|].
  split; [cbn [upload_sessions set_upload_sessions];
          rewrite dict_get_set, decide_True by done; reflexivity|].
  cbn.
  split; [reflexivity|].
  split; [reflexivity|]. split; [reflexivity|]. split; [reflexivity|]. split; [reflexivity|].
  split; [|split; [exact Hn3|split; [|split]]].
  - rewrite Hh3, Hh, lookup_app_r by lia.
    replace (S (length (handles w2)) - length (handles w2))%nat with 1%nat by lia.
    reflexivity.
  - unfold file_content. change (node_at _ ?p) with (node_at w3 p). rewrite Hn3. exact Hi3.
  - intros ho Hho [i Hi]. cbn in Hi. apply (Hcl1 ho Hho). exists i.
    rewrite Hh3, Hh2 in Hi. rewrite lookup_app_l in Hi; [exact Hi|].
    rewrite Hlen1. exact (Hvalid ho Hho).
  - intros p i Hp Hi.
    destruct (Hothers p i (Hkeep2 p _ (eq_trans (Hn1 p) Hp)) Hi) as [Hp3 Hi3'].
    split; [exact Hp3|]. rewrite Hi3', Hi2, Hi1. reflexivity.
Qed.

(** The session ["s1"] of [world_chunk1] opened again for the same file,
    with 4 bytes declared. *)
Lemma upload_req_replaces_witness :
  let w' := (handle_upload_req example_env (reopen_request (Some "up.bin") 4) world_chunk1).2 in
  exists s' h ino target,
    upload_target (reopen_request (Some "up.bin") 4) world_chunk1 = Ok target
    /\ dict_get "s1" (upload_sessions w') = Some s'
    /\ us_file_path s' = target
    /\ us_received_chunks s' = ∅ /\ us_bytes_received s' = 0
    /\ us_file_size s' = 4
    /\ us_handle s' = Some h
    /\ handles w' !! h = Some (ino, true)
    /\ node_at w' target = Some (File ino)
    /\ file_content w' target = Some (replicate (Z.to_nat 4) x00)
    /\ (forall ho, us_handle chunk1_session = Some ho -> ~ is_open w' ho)
    /\ (forall p i, node_at world_chunk1 p = Some (File i) -> i <> ino ->
          node_at w' p = Some (File i) /\ inodes w' !! i = inodes world_chunk1 !! i).
Proof.
  apply (upload_req_replaces example_env (reopen_request (Some "up.bin") 4) world_chunk1
           "s1" chunk1_session).
  - apply (bool_decide_unpack _). vm_compute. exact I.
  - vm_compute. reflexivity.
  - vm_compute. reflexivity.
  - intros ho [= <-]. vm_compute. lia.
  - vm_compute. reflexivity.
Defined.

(** C10, as it is stated, fails on two requests that name the session
    ["s1"] of [world_chunk1], which has received chunk 1 ("ab") for
    [/docs/up.bin].  Without a file name the request is refused: the
    session, its 2 received bytes and its open file object stay.  With the
    name of another file the request is accepted: the file object of the
    old session is closed, and the bytes written under ["s1"] to
    [/docs/up.bin] are there. *)
Lemma upload_req_not_always_reset :
  let refused := handle_upload_req example_env (reopen_request None 4) world_chunk1 in
  let moved := handle_upload_req example_env (reopen_request (Some "other.bin") 4)
                 world_chunk1 in
  dict_get "s1" (upload_sessions world_chunk1) = Some chunk1_session
  /\ refused.1 !! "success" = Some (VBool false)
  /\ dict_get "s1" (upload_sessions refused.2) = Some chunk1_session
  /\ handles refused.2 !! 1%nat = Some (3%nat, true)
  /\ moved.1 !! "success" = Some (VBool true)
  /\ handles moved.2 !! 1%nat = Some (3%nat, false)
  /\ file_content moved.2 ["srv"; "root"; "docs"; "up.bin"]
     = Some [x00; x00; x61; x62; x00].
Proof. repeat split; vm_compute; reflexivity. Qed.

(** ** Directory listing *)

Lemma lexico_common_prefix {A} `{Lexico A, !StrictOrder (@lexico A _)} (l x y : list A) :
  lexico (l ++ x) (l ++ y) <-> lexico x y.
Proof.
  induction l as [|a l IH]; [reflexivity|].
  cbn [app]. unfold lexico at 1, list_lexico at 1. fold (@list_lexico A _).
  change (list_lexico (l ++ x) (l ++ y)) with (lexico (l ++ x) (l ++ y)) in *.
  unfold lexico at 1, prod_lexico. cbn [fst snd]. split.
  - intros [Hirr|[_ Hl]]; [destruct (irreflexivity lexico a Hirr)|]. apply IH, Hl.
  - intros Hxy. right. split; [reflexivity|]. apply IH, Hxy.
Qed.

#[global] Instance str_key_inj : Inj (=) (=) str_key.
Proof.
  intros a b H. unfold str_key in H.
  assert (list_ascii_of_string a = list_ascii_of_string b) as Hl.
  { revert H. generalize (list_ascii_of_string a) (list_ascii_of_string b).
    intros l1. induction l1 as [|x l1 IH]; intros [|y l2] Hm; try discriminate; [reflexivity|].
    injection Hm as Hxy Hm. f_equal; [|exact (IH _ Hm)].
    rewrite <- (ascii_N_embedding x), <- (ascii_N_embedding y), Hxy. reflexivity. }
  rewrite <- (string_of_list_ascii_of_string a), <- (string_of_list_ascii_of_string b), Hl.
  reflexivity.
Qed.

#[global] Instance path_key_inj : Inj (=) (=) path_key.
Proof. unfold path_key. apply _. Qed.

#[global] Instance path_le_total : Total path_le.
Proof.
  intros p q. unfold path_le, path_lt.
  destruct (trichotomy lexico (path_key p) (path_key q)) as [H|[H|H]]; auto.
  apply (inj path_key) in H. auto.
Qed.

#[global] Instance path_le_trans : Transitive path_le.
Proof.
  intros p q r [Hpq | ->] [Hqr | ->]; unfold path_le, path_lt in *; auto.
  left. etrans; eassumption.
Qed.

Lemma path_lt_siblings (d : Path) (a b : string) :
  path_lt (d ++ [a]) (d ++ [b]) <-> str_lt a b.
Proof.
  unfold path_lt, str_lt, path_key. rewrite !fmap_app, lexico_common_prefix. cbn.
  unfold lexico at 1, list_lexico, lexico at 1, prod_lexico. cbn. tauto.
Qed.

Lemma path_name_child (d : Path) (n : string) : path_name (d ++ [n]) = n.
Proof. unfold path_name. apply last_last. Qed.

Lemma elem_of_iterdir (w : World) (d p : Path) :
  p ∈ iterdir w d <-> is_Some (fs w !! p) /\ exists n, p = d ++ [n].
Proof.
  unfold iterdir. rewrite list_elem_of_filter, list_elem_of_fmap. split.
  - intros [[Hlen Htake] ([p' node] & -> & Hin)]. apply elem_of_map_to_list in Hin.
    split; [eauto|]. cbn in *.
    destruct (drop (length d) p') as [|n [|? ?]] eqn:Hd.
    + apply (f_equal length) in Hd. rewrite length_drop in Hd. cbn in Hd. lia.
    + exists n. rewrite <- Htake, <- Hd. symmetry. apply take_drop.
    + apply (f_equal length) in Hd. rewrite length_drop in Hd. cbn in Hd. lia.
  - intros [[node Hnode] [n ->]]. split.
    + rewrite length_app. cbn. split; [lia|]. apply take_app_length.
    + exists (d ++ [n], node). split; [reflexivity|]. apply elem_of_map_to_list. exact Hnode.
Qed.

Lemma NoDup_iterdir (w : World) (d : Path) : NoDup (iterdir w d).
Proof. unfold iterdir. apply list.NoDup_filter, NoDup_fst_map_to_list. Qed.

(** The entry of a child [d ++ [n]] of a directory under the root whose
    metadata can be read. *)
Lemma file_info_of_child (E : Env) (w : World) (d : Path) (n : string) :
  under_root (root_dir w) d -> is_Some (fs w !! (d ++ [n])) ->
  stat_error E w (d ++ [n]) = None ->
  exists fi, file_info_of E w (d ++ [n]) = Ok fi
    /\ entry_name fi = n
    /\ (is_dir w (d ++ [n]) = true ->
        entry_field "type" fi = Some (VStr "directory")
        /\ entry_field "size" fi = Some (VInt 0)).
Proof.
  intros [k ->] [node Hnode] Hstat. unfold file_info_of, rbind. rewrite Hstat.
  assert (node_at w ((root_dir w ++ k) ++ [n]) = Some node) as Hat.
  { unfold node_at. destruct ((root_dir w ++ k) ++ [n]) eqn:Hp; [|exact Hnode].
    apply (f_equal length) in Hp. rewrite !length_app in Hp. cbn in Hp. lia. }
  assert (exists size, st_size w ((root_dir w ++ k) ++ [n]) = Ok size) as [size ->].
  { unfold st_size. rewrite Hat. destruct node; eauto. }
  unfold relative_to. rewrite decide_True
    by (rewrite <- !app_assoc; apply take_app_length).
  eexists. split; [reflexivity|]. split.
  - unfold entry_name. cbn. apply path_name_child.
  - intros Hdir. unfold entry_field. cbn. rewrite Hdir.
    unfold is_dir, is_file in *. rewrite Hat in *. destruct node; [done|discriminate].
Qed.

(** The entries of a listing are those of the children whose metadata can
    be read, in the order of the children; the others are skipped. *)
Lemma list_entries_children (E : Env) (w : World) (d : Path) (l : list Path) :
  under_root (root_dir w) d ->
  Forall (fun p => p ∈ iterdir w d) l ->
  entry_name <$> omap (fun item => match file_info_of E w item with
                                   | Ok fi => Some fi
                                   | Raise _ => None
                                   end) l
  = path_name <$> filter (fun p => stat_error E w p = None) l
  /\ Forall (fun fi => is_dir w (d ++ [entry_name fi]) = true ->
               entry_field "type" fi = Some (VStr "directory")
               /\ entry_field "size" fi = Some (VInt 0))
       (omap (fun item => match file_info_of E w item with
                          | Ok fi => Some fi
                          | Raise _ => None
                          end) l).
Proof.
  intros Hroot Hl. induction Hl as [|p l Hp Hl [IHn IHd]]; [split; [reflexivity|constructor]|].
  apply elem_of_iterdir in Hp as [Hsome [n ->]].
  destruct (stat_error E w (d ++ [n])) as [e|] eqn:Hstat.
  - assert (file_info_of E w (d ++ [n]) = Raise e) as Hfi
      by (unfold file_info_of; rewrite Hstat; reflexivity).
    cbn [omap list_omap]. rewrite Hfi.
    rewrite filter_cons_False by (rewrite Hstat; discriminate).
    split; [exact IHn|exact IHd].
  - destruct (file_info_of_child E w d n Hroot Hsome Hstat) as (fi & Hfi & Hname & Hdir).
    cbn [omap list_omap]. rewrite Hfi.
    rewrite filter_cons_True by exact Hstat. cbn [fmap list_fmap]. split.
    + rewrite Hname, path_name_child. f_equal. exact IHn.
    + constructor; [rewrite Hname; exact Hdir|exact IHd].
Qed.

Lemma sorted_names (d : Path) (P : Path -> Prop) `{!forall p, Decision (P p)}
    (l : list Path) :
  StronglySorted path_le l -> NoDup l ->
  Forall (fun p => exists n, p = d ++ [n]) l ->
  StronglySorted str_lt (path_name <$> filter P l).
Proof.
  induction 1 as [|p l Hs IH Hall]; intros Hnd Hch; [constructor|].
  apply list.NoDup_cons in Hnd as [Hp Hnd]. apply list.Forall_cons in Hch as [[n ->] Hch].
  destruct (decide (P (d ++ [n]))) as [HP|HP].
  2:{ rewrite filter_cons_False by exact HP. exact (IH Hnd Hch). }
  rewrite filter_cons_True by exact HP.
  cbn [fmap list_fmap]. constructor; [exact (IH Hnd Hch)|].
  rewrite path_name_child. apply Forall_fmap.
  rewrite list.Forall_forall in Hall, Hch |- *. intros q Hq.
  apply list_elem_of_filter in Hq as [_ Hq].
  destruct (Hch q Hq) as [m ->]. cbn. rewrite path_name_child.
  destruct (Hall _ Hq) as [Hlt|Heq].
  - apply path_lt_siblings in Hlt. exact Hlt.
  - rewrite Heq in Hp. contradiction.
Qed.

(** C9, as it holds: for a LIST_FILES request on an existing directory under
    the root that can be read, the answer lists exactly the immediate
    children of the directory whose metadata can be read, each once, in the
    order of their names byte by byte (upper case before lower case), and a
    child that is a directory is listed with the type directory and the
    size 0.  A child for which [stat] raises is left out. *)
Theorem list_files_sorted (E : Env) (request : Request) (w : World) (target : Path) :
  get_safe_path (root_dir w) (default "/" (req_path request)) = Ok target ->
  is_dir w target = true ->
  under_root (root_dir w) target ->
  iterdir_error E w target = None ->
  let resp := (handle_list_files E request w).1 in
  resp !! "success" = Some (VBool true)
  /\ (forall n, n ∈ entry_name <$> files_of resp
                <-> is_Some (fs w !! (target ++ [n]))
                    /\ stat_error E w (target ++ [n]) = None)
  /\ StronglySorted str_lt (entry_name <$> files_of resp)
  /\ Forall (fun fi => is_dir w (target ++ [entry_name fi]) = true ->
               entry_field "type" fi = Some (VStr "directory")
               /\ entry_field "size" fi = Some (VInt 0))
       (files_of resp).
Proof.
  intros Hsafe Hdir Hroot Hread. unfold handle_list_files. rewrite Hsafe.
  assert (path_exists w target = true) as ->.
  { unfold path_exists. apply bool_decide_eq_true_2. unfold is_dir in Hdir.
    destruct (node_at w target); [eauto|discriminate]. }
  rewrite Hdir, Hread. cbn [negb fst]. split; [reflexivity|].
  unfold files_of.
  change ((list_to_map _ : Response) !! "files") with
    (Some (VList (list_entries E w target))).
  unfold list_entries, sorted_paths.
  set (sorted := merge_sort path_le (iterdir w target)).
  assert (sorted ≡ₚ iterdir w target) as Hperm by apply merge_sort_Permutation.
  assert (Forall (fun p => p ∈ iterdir w target) sorted) as Hall.
  { apply list.Forall_forall. intros p Hp. rewrite <- Hperm. exact Hp. }
  destruct (list_entries_children E w target sorted Hroot Hall) as [Hnames Hdirs].
  rewrite Hnames. split; [|split; [|exact Hdirs]].
  - intros n. rewrite list_elem_of_fmap. split.
    + intros (p & -> & Hp). apply list_elem_of_filter in Hp as [Hstat Hp].
      rewrite Hperm in Hp.
      apply elem_of_iterdir in Hp as [Hsome [m ->]]. rewrite path_name_child.
      split; [exact Hsome|exact Hstat].
    + intros [Hsome Hstat]. exists (target ++ [n]). split; [symmetry; apply path_name_child|].
      apply list_elem_of_filter. split; [exact Hstat|].
      rewrite Hperm. apply elem_of_iterdir. eauto.
  - apply (sorted_names target).
    + apply StronglySorted_merge_sort; apply _.
    + rewrite Hperm. apply NoDup_iterdir.
    + eapply list.Forall_impl; [exact Hall|]. intros p Hp.
      apply elem_of_iterdir in Hp as [_ ?]. assumption.
Qed.

(** The listing of the root of [example_world], in an environment in which
    the metadata of [docs] cannot be read: [docs] is left out. *)
Lemma list_files_sorted_witness :
  let resp := (handle_list_files unreadable_docs_env (request_of "LIST_FILES" "/" [])
                 example_world).1 in
  resp !! "success" = Some (VBool true)
  /\ (forall n, n ∈ entry_name <$> files_of resp
                <-> is_Some (fs example_world !! (["srv"; "root"] ++ [n]))
                    /\ stat_error unreadable_docs_env example_world (["srv"; "root"] ++ [n])
                       = None)
  /\ StronglySorted str_lt (entry_name <$> files_of resp)
  /\ Forall (fun fi => is_dir example_world (["srv"; "root"] ++ [entry_name fi]) = true ->
               entry_field "type" fi = Some (VStr "directory")
               /\ entry_field "size" fi = Some (VInt 0))
       (files_of resp).
Proof.
  apply (list_files_sorted unreadable_docs_env (request_of "LIST_FILES" "/" []) example_world
           ["srv"; "root"]).
  - vm_compute. reflexivity.
  - vm_compute. reflexivity.
  - exists []. reflexivity.
  - reflexivity.
Defined.

(** C9, as it is stated, fails: the listing of the root of [example_world]
    has [B.txt] before [a.txt], which is not the order that ignores
    case. *)
Lemma list_files_case_sensitive :
  let resp := (handle_list_files example_env (request_of "LIST_FILES" "/" []) example_world).1 in
  entry_name <$> files_of resp = ["B.txt"; "a.txt"; "docs"]
  /\ ~ Sorted ci_le (entry_name <$> files_of resp)
  /\ Sorted ci_le ["a.txt"; "B.txt"; "docs"].
Proof.
  split; [vm_compute; reflexivity|].
  split; apply (bool_decide_unpack _); vm_compute; exact I.
Qed.

(** ** Dispatcher *)

Lemma mkdir_parents_ticks (w w' : World) (p : Path) :
  mkdir_parents w p = Ok w' -> ticks w' = ticks w.
Proof.
  unfold mkdir_parents, rbind. destruct (mkdir_from [] p (fs w)); [|discriminate].
  intros [= <-]. reflexivity.
Qed.

Lemma precreate_file_ticks (w : World) (p : Path) (size : Z) :
  ticks (precreate_file w p size).2 = ticks w.
Proof.
  unfold precreate_file.
  destruct (open_wb w p) as [[f w1]|e] eqn:Ho; [|reflexivity].
  assert (ticks w1 = ticks w) as H1.
  { unfold open_wb in Ho. destruct (node_at w p) as [[|ino]|]; [discriminate|..].
    - injection Ho as <- <-. reflexivity.
    - destruct (is_dir w (path_parent p)); [|discriminate]. injection Ho as <- <-. reflexivity. }
  destruct (if decide (size > 0) then truncate_handle w1 f size else Ok w1) as [w2|e] eqn:Ht.
  - assert (ticks w2 = ticks w1) as H2.
    { case_decide; [|injection Ht as <-; reflexivity].
      unfold truncate_handle, rbind in Ht. destruct (handle_ino w1 f); [|discriminate].
      injection Ht as <-. reflexivity. }
    destruct (open_existing (close_handle w2 f) p) as [[h w3]|e'] eqn:Ho3.
    + apply open_existing_sessions in Ho3 as (_ & _ & H3). cbn in *. lia.
    + cbn. lia.
  - cbn. lia.
Qed.

Lemma handle_upload_req_ticks (E : Env) : keeps_time (fun r w => handled (handle_upload_req E r w)).
Proof.
  intros request w. unfold handled. cbn [snd]. unfold handle_upload_req.
  case_decide; [cbn; lia|].
  set (named := match get_nonempty (req_options request) "sessionId" with
                | Some sid => (sid, w)
                | None => _
                end).
  assert (ticks w <= ticks named.2)%nat as Hn.
  { unfold named. destruct (get_nonempty _ _); cbn; lia. }
  destruct named as [sid w0]. cbn [snd] in Hn. cbn zeta.
  set (w1 := match dict_get sid (upload_sessions w0) with
             | Some s => _
             | None => _
             end).
  assert (ticks w1 = ticks w0) as H1.
  { unfold w1. destruct (dict_get sid (upload_sessions w0)) as [s|]; [|reflexivity].
    destruct (us_handle s); reflexivity. }
  destruct (if decide (default "/" (req_path request) = "/") then _ else _) as [dir|e];
    [|cbn; lia].
  destruct (mkdir_parents w1 _) as [w2|e] eqn:Hmk; [|cbn; lia].
  apply mkdir_parents_ticks in Hmk.
  pose proof (precreate_file_ticks w2 (resolve (joinpath dir (default "" (req_name request))))
                (default 0 (req_fileSize request))) as Hp.
  destruct (precreate_file w2 _ _) as [[h|e] w3]; cbn in *; lia.
Qed.

Lemma handle_upload_data_ticks (E : Env) :
  keeps_time (fun r w => handled (handle_upload_data E r w)).
Proof.
  intros request w. unfold handled. cbn [snd]. unfold handle_upload_data.
  destruct (match get_nonempty (req_options request) "sessionId" with
            | Some sid => Some sid
            | None => dict_last_key (upload_sessions w)
            end) as [sid|]; [|cbn; lia].
  destruct (dict_get sid (upload_sessions w)) as [s|]; [|cbn; lia].
  cbn [time_time].
  destruct (us_handle (set_activity s (clock E (ticks w)))) as [h|].
  - destruct (seek_write _ h _ _) as [w1|e] eqn:Hw; [|cbn; lia].
    apply seek_write_sessions in Hw as (_ & _ & Hw). cbn in *. lia.
  - destruct (open_existing _ _) as [[h w1]|e] eqn:Ho; [|cbn; lia].
    apply open_existing_sessions in Ho as (_ & _ & Ho).
    destruct (seek_write _ h _ _) as [w2|e] eqn:Hw.
    + apply seek_write_sessions in Hw as (_ & _ & Hw). cbn in *. lia.
    + cbn in *. lia.
Qed.

Lemma handle_download_req_ticks (E : Env) :
  keeps_time (fun r w => handled (handle_download_req E r w)).
Proof.
  intros request w. unfold handled. cbn [snd]. unfold handle_download_req.
  case_decide; [cbn; lia|].
  destruct (get_safe_path _ _) as [target|e]; [|cbn; lia].
  destruct (negb (path_exists w target)); [cbn; lia|].
  destruct (negb (is_file w target)); [cbn; lia|].
  destruct (get_nonempty _ "action") as [action|]; [|cbn; lia].
  case_decide.
  - unfold download_start. destruct (st_size w target); cbn; lia.
  - case_decide; [|cbn; lia].
    destruct (get_nonempty _ "sessionId") as [sid|]; [|cbn; lia].
    case_decide; [|cbn; lia].
    unfold download_chunk.
    destruct (download_sessions w !! sid) as [s|]; [|cbn; lia].
    case_decide; [cbn; lia|].
    destruct (open_existing w (ds_absolutePath s)) as [[h w1]|e] eqn:Ho; [|cbn; lia].
    apply open_existing_sessions in Ho as (_ & _ & Ho).
    destruct (seek_read w1 h _ _) as [chunk|e]; [|cbn; lia].
    case_decide; cbn; lia.
Qed.

Lemma dispatch_ticks (E : Env) (operation : string) (request : Request) (w : World) :
  env_time_ok E -> (ticks w <= ticks (dispatch E operation request w).2)%nat.
Proof.
  intros (_ & Hfi & Hdf & Huf & Hdel & Hren & Hcd & Hend). unfold dispatch.
  repeat case_decide;
    first [ apply Hfi | apply Hdf | apply Huf | apply Hdel | apply Hren | apply Hcd
          | apply Hend | apply handle_upload_req_ticks | apply handle_upload_data_ticks
          | apply handle_download_req_ticks | idtac ].
  - cbn. lia.
  - unfold handled, handle_list_files. cbn [snd].
    destruct (get_safe_path _ _); [|cbn; lia].
    destruct (negb (path_exists w a)); [cbn; lia|].
    destruct (negb (is_dir w a)); [cbn; lia|].
    destruct (iterdir_error E w a); cbn; lia.
  - cbn. lia.
  - cbn. lia.
Qed.

Lemma process_request_timed (E : Env) (request : Request) (w : World) :
  env_time_ok E ->
  timed E (process_request E request w).1 (process_request E request w).2.
Proof.
  intros Hok. unfold process_request. cbn [time_time].
  pose proof (dispatch_ticks E (default "" (req_operation request)) request
                (set_ticks w (S (ticks w))) Hok) as Hticks.
  destruct (dispatch E _ request (set_ticks w (S (ticks w)))) as [outcome w1].
  cbn [snd set_ticks ticks] in Hticks.
  assert (0 <= to_ms (clock E (ticks w1) - clock E (ticks w))) as Hp.
  { unfold to_ms. apply Z.quot_pos; [|lia].
    destruct Hok as [Hclock _]. specialize (Hclock (ticks w) (ticks w1)). lia. }
  exists (to_ms (clock E (ticks w1) - clock E (ticks w))).
  destruct outcome as [response|e]; cbn [fst snd set_ticks ticks].
  - rewrite lookup_insert_ne by done. rewrite !lookup_insert_eq.
    replace (S (S (ticks w1)) - 1)%nat with (S (ticks w1)) by lia. done.
  - replace (S (S (ticks w1)) - 1)%nat with (S (ticks w1)) by lia. done.
Qed.

(** C8, as it holds: when the clock does not run backwards, every request
    that goes through [process_request], that is every command but
    CONNECT, is answered with processTimeMs, not negative, and with the
    reading of the clock taken last as timestamp.  The answer to CONNECT
    and the answer to a frame of an unsupported format carry the timestamp
    only: they have no processTimeMs. *)
Theorem dispatcher_timing (E : Env) (cmd : Z) (request : Request) (w : World) (t : Z) :
  env_time_ok E ->
  timed E (process_request E request w).1 (process_request E request w).2
  /\ (cmd <> CMD_CONNECT ->
      timed E (process_frame_request E cmd request w).1
        (process_frame_request E cmd request w).2)
  /\ (process_frame_request E CMD_CONNECT request w).1 !! "processTimeMs" = None
  /\ (process_frame_request E CMD_CONNECT request w).1 !! "timestamp"
     = Some (VInt (to_ms (clock E (ticks w))))
  /\ unsupported_format_response t !! "processTimeMs" = None
  /\ unsupported_format_response t !! "timestamp" = Some (VInt (to_ms t)).
Proof.
  intros Hok. split; [apply process_request_timed, Hok|]. split; [|done].
  intros Hcmd. unfold process_frame_request. rewrite decide_False by exact Hcmd.
  apply process_request_timed, Hok.
Qed.

Lemma example_env_time_ok : env_time_ok example_env.
Proof.
  split; [intros n m Hnm; cbn; lia|]. repeat split; intros r w; cbn; lia.
Qed.

(** A PING request in [example_world], with the clock of [example_env]. *)
Lemma dispatcher_timing_witness :
  let request := request_of "PING" "/" [] in
  timed example_env (process_request example_env request example_world).1
    (process_request example_env request example_world).2
  /\ (CMD_PING <> CMD_CONNECT ->
      timed example_env (process_frame_request example_env CMD_PING request example_world).1
        (process_frame_request example_env CMD_PING request example_world).2)
  /\ (process_frame_request example_env CMD_CONNECT request example_world).1
       !! "processTimeMs" = None
  /\ (process_frame_request example_env CMD_CONNECT request example_world).1 !! "timestamp"
     = Some (VInt (to_ms (clock example_env (ticks example_world))))
  /\ unsupported_format_response 1700000000000000 !! "processTimeMs" = None
  /\ unsupported_format_response 1700000000000000 !! "timestamp"
     = Some (VInt (to_ms 1700000000000000)).
Proof.
  apply (dispatcher_timing example_env CMD_PING (request_of "PING" "/" []) example_world
           1700000000000000).
  split; [intros n m Hnm; cbn; lia|]. repeat split; intros r w; cbn; lia.
Defined.

(** C8, as it is stated, fails: the answer to a CONNECT frame, and the
    answer to a frame of an unsupported format, have no processTimeMs. *)
Lemma connect_has_no_process_time :
  let resp := (process_frame_request example_env CMD_CONNECT (request_of "CONNECT" "/" [])
                 example_world).1 in
  resp !! "success" = Some (VBool true)
  /\ resp !! "timestamp" = Some (VInt 1700000000000)
  /\ resp !! "processTimeMs" = None
  /\ unsupported_format_response 1700000000000000 !! "processTimeMs" = None.
Proof. repeat split; vm_compute; reflexivity. Qed.

(** ** Connection pump *)

(** A frame that [parse_frame] returns takes at least 13 bytes and not more
    than the buffer holds. *)
Lemma parse_frame_consumed (buffer : bytes) (fr : Frame) (n : Z) :
  parse_frame buffer = Some (fr, n) -> 13 <= n <= Z.of_nat (length buffer).
Proof.
  unfold parse_frame. case_decide; [discriminate|].
  destruct (find_magic 0 buffer) as [i|]; [|discriminate].
  set (local := if decide (0 < i)%nat then drop i buffer else buffer).
  assert (length local <= length buffer)%nat as Hlocal.
  { unfold local. case_decide; [rewrite length_drop; lia|lia]. }
  case_decide; [discriminate|]. case_decide; [discriminate|]. case_decide; [discriminate|].
  destruct (local !! 8%nat); [|discriminate]. destruct (local !! 9%nat); [|discriminate].
  destruct (local !! _); [|discriminate]. case_decide; [discriminate|].
  destruct (local !! _); [|discriminate]. destruct (local !! _); [|discriminate].
  case_decide; [discriminate|]. intros [= <- <-].
  pose proof (le_unpack_range (slice 2 6 local)). lia.
Qed.

(** The fuel that [handle_frame_protocol] gives to its loop is enough: more
    fuel does not change the result. *)
Lemma frame_loop_fuel (E : Env) (client_id : string) (fuel : nat) :
  forall (buffer : bytes) (sent : list bytes) (w : World),
  (length buffer <= fuel)%nat ->
  frame_loop E (S fuel) client_id buffer sent w = frame_loop E fuel client_id buffer sent w.
Proof.
  induction fuel as [|fuel IH]; intros buffer sent w Hlen.
  - destruct buffer; [reflexivity|cbn in Hlen; lia].
  - cbn [frame_loop].
    destruct (parse_frame buffer) as [[fr n]|] eqn:Hp; [|reflexivity].
    apply parse_frame_consumed in Hp.
    assert (length (drop (Z.to_nat n) buffer) <= fuel)%nat as Hrest
      by (rewrite length_drop; lia).
    case_decide.
    + cbn [time_time]. destruct (build_response_frame _ _ _ _ _); [|reflexivity].
      apply (IH _ _ _ Hrest).
    + destruct (process_frame_request E _ _ w) as [response w1].
      destruct (build_response_frame _ _ _ _ _); [|reflexivity].
      apply (IH _ _ _ Hrest).
Qed.

Lemma extract_frames_fuel (fuel : nat) :
  forall buffer : bytes,
  (length buffer <= fuel)%nat ->
  extract_frames (S fuel) buffer = extract_frames fuel buffer.
Proof.
  induction fuel as [|fuel IH]; intros buffer Hlen.
  - destruct buffer; [reflexivity|cbn in Hlen; lia].
  - cbn [extract_frames].
    destruct (parse_frame buffer) as [[fr n]|] eqn:Hp; [|reflexivity].
    apply parse_frame_consumed in Hp.
    rewrite <- (IH (drop (Z.to_nat n) buffer)) by (rewrite length_drop; lia).
    reflexivity.
Qed.

(** * Further properties *)

(** ** CRC8 *)

Lemma crc8_table_at_bitwise (i : Z) :
  0 <= i < 256 -> crc8_table_at i = Nat.iter 8 (crc8_shift CRC8_POLY) i.
Proof.
  intros Hi.
  assert (Forall (fun n => crc8_table_at (Z.of_nat n)
                           = Nat.iter 8 (crc8_shift CRC8_POLY) (Z.of_nat n)) (seq 0 256)) as H.
  { apply (bool_decide_unpack _). vm_compute. exact I. }
  rewrite list.Forall_forall in H. specialize (H (Z.to_nat i)).
  rewrite Z2Nat.id in H by lia. apply H. apply elem_of_seq. lia.
Qed.

Lemma calculate_crc8_snoc (d : bytes) (b : byte) :
  calculate_crc8 (d ++ [b]) = crc8_table_at (Z.lxor (calculate_crc8 d) (byte_to_Z b)).
Proof. unfold calculate_crc8. rewrite fold_left_app. reflexivity. Qed.

(** The table-driven CRC8 never looks outside its table, stays in 0..255,
    and is the bit-by-bit CRC8 with polynomial 0x07 and seed 0. *)
Theorem calculate_crc8_bitwise (d : bytes) :
  calculate_crc8 d = crc8_bitwise d
  /\ 0 <= calculate_crc8 d < 256
  /\ forall b, 0 <= Z.lxor (calculate_crc8 d) (byte_to_Z b) < 256.
Proof.
  split; [|split; [apply calculate_crc8_range|]].
  - induction d as [|b d IH] using rev_ind; [reflexivity|].
    rewrite calculate_crc8_snoc. unfold crc8_bitwise. rewrite fold_left_app. cbn [fold_left].
    fold (crc8_bitwise d). rewrite <- IH. unfold crc8_update.
    apply crc8_table_at_bitwise, crc8_index_range, calculate_crc8_range.
  - intros b. apply crc8_index_range, calculate_crc8_range.
Qed.

(** The CRC8 of data followed by its own CRC byte is 0: a receiver can check
    a frame by running the CRC over the length field up to and including
    the CRC byte. *)
Theorem calculate_crc8_residue (d : bytes) :
  calculate_crc8 (d ++ [crc_byte d]) = 0.
Proof.
  rewrite calculate_crc8_snoc, crc_byte_value, Z.lxor_nilpotent. reflexivity.
Qed.

(** ** Framing codec: what [parse_frame] returns *)

Lemma find_magic_inv (b : bytes) (i j : nat) :
  find_magic i b = Some j ->
  exists junk rest, b = junk ++ xaa :: x55 :: rest /\ (i + length junk = j)%nat
                    /\ find_magic i (junk ++ [xaa]) = None.
Proof.
  revert i. induction b as [|b0 b IH]; intros i H; [discriminate|].
  destruct b as [|b1 b]; [discriminate|].
  rewrite find_magic_cons2 in H. destruct (decide (b0 = xaa /\ b1 = x55)) as [[-> ->]|Hn].
  - injection H as <-. exists [], b. split; [reflexivity|]. split; [cbn; lia|reflexivity].
  - destruct (IH _ H) as (junk & rest & Hb & Hj & Hno).
    exists (b0 :: junk), rest. split; [rewrite Hb; reflexivity|].
    split; [cbn [length]; lia|].
    destruct junk as [|c junk].
    + cbn [app]. rewrite find_magic_cons2, decide_False; [reflexivity|].
      intros [_ ?]. discriminate.
    + cbn [app] in Hb. injection Hb as <- _.
      change ((b0 :: b1 :: junk) ++ [xaa]) with (b0 :: b1 :: (junk ++ [xaa])).
      rewrite find_magic_cons2, decide_False by exact Hn. exact Hno.
Qed.

Lemma list_split_at {A} (n : nat) (l : list A) :
  (n <= length l)%nat -> exists l1 l2, l = l1 ++ l2 /\ length l1 = n.
Proof.
  intros H. exists (take n l), (drop n l). split; [symmetry; apply take_drop|].
  rewrite length_take. lia.
Qed.

(** Whatever [parse_frame] returns was on the wire: the buffer is some bytes
    without a magic prefix, then a frame of the layout, then the rest. *)
Lemma parse_frame_inv (buffer : bytes) (fr : Frame) (n : Z) :
  parse_frame buffer = Some (fr, n) ->
  exists junk l0 l1 l2 l3 s0 s1 c fm payload k rest,
    buffer = junk ++ ([xaa; x55; l0; l1; l2; l3; s0; s1; c; fm] ++ payload ++ [k; x55; xaa])
               ++ rest
    /\ no_magic junk
    /\ le_unpack [l0; l1; l2; l3] = Z.of_nat (length payload)
    /\ Z.of_nat (length payload) <= MAX_FRAME_DATA
    /\ fr = frame_of s0 s1 c fm payload k
    /\ n = 13 + Z.of_nat (length payload).
Proof.
  intros Hp. pose proof Hp as Hp0. unfold parse_frame in Hp.
  destruct (decide (length buffer < 13)%nat) as [|Hlen]; [discriminate|].
  destruct (find_magic 0 buffer) as [i|] eqn:Hm; [|discriminate].
  destruct (find_magic_inv _ _ _ Hm) as (junk & tl & Hb & Hi & Hno). cbn in Hi. subst i.
  assert ((if decide (0 < length junk)%nat then drop (length junk) buffer else buffer)
          = xaa :: x55 :: tl) as Hlocal.
  { destruct (decide (0 < length junk)%nat) as [Hj|Hj].
    - rewrite Hb, drop_app_length. reflexivity.
    - destruct junk; [exact Hb|cbn in Hj; lia]. }
  rewrite Hlocal in Hp. clear Hlocal.
  destruct (decide (length (xaa :: x55 :: tl) < 6)%nat) as [|H6]; [discriminate|].
  destruct tl as [|l0 [|l1 [|l2 [|l3 tl]]]]; try (cbn in H6; lia).
  change (slice 2 6 (xaa :: x55 :: l0 :: l1 :: l2 :: l3 :: tl)) with (take 4 (l0 :: l1 :: l2 :: l3 :: tl)) in Hp.
  change (take 4 (l0 :: l1 :: l2 :: l3 :: tl)) with [l0; l1; l2; l3] in Hp.
  set (dl := le_unpack [l0; l1; l2; l3]) in *.
  pose proof (le_unpack_range [l0; l1; l2; l3]) as Hdl. fold dl in Hdl.
  destruct (decide (dl > MAX_FRAME_DATA)) as [|Hmax]; [discriminate|].
  destruct (decide (Z.of_nat (length (xaa :: x55 :: l0 :: l1 :: l2 :: l3 :: tl)) < 13 + dl))
    as [|Htot]; [discriminate|].
  cbn [length] in Htot.
  destruct tl as [|s0 [|s1 [|c [|fm tl]]]]; try (cbn [length] in Htot; lia).
  cbn [length] in Htot.
  destruct (list_split_at (Z.to_nat dl) tl) as (payload & tl' & -> & Hpl); [lia|].
  rewrite length_app in Htot.
  destruct tl' as [|k [|t0 [|t1 rest]]]; try (cbn [length] in Htot; lia).
  exists junk, l0, l1, l2, l3, s0, s1, c, fm, payload, k, rest.
  assert (dl = Z.of_nat (length payload)) as Hdl' by lia.
  pose proof (parse_frame_at_magic l0 l1 l2 l3 s0 s1 c fm payload k t0 t1 rest Hdl' buffer) as Hat.
  cbv zeta in Hat. rewrite Hat in Hp0; cycle 1.
  { lia. }
  { exists (length junk). split; [exact Hm|]. rewrite Hb, drop_app_length. reflexivity. }
  rewrite decide_False in Hp0 by lia.
  destruct (decide (t0 = x55 /\ t1 = xaa)) as [[-> ->]|]; [|discriminate].
  injection Hp0 as <- <-.
  split; [|split; [exact Hno|split; [exact Hdl'|split; [lia|split; reflexivity]]]].
  rewrite Hb. rewrite <- !app_assoc. reflexivity.
Qed.

(** [parse_frame] is sound: a frame it returns stands in the buffer, behind
    bytes that hold no magic prefix, with the layout of a frame; the count
    returned is the length of that frame alone, and the fields are the
    bytes of the frame at their offsets. *)
Theorem parse_frame_sound (buffer : bytes) (fr : Frame) (n : Z) :
  parse_frame buffer = Some (fr, n) ->
  exists junk f rest,
    buffer = junk ++ f ++ rest
    /\ no_magic junk /\ well_formed f
    /\ n = Z.of_nat (length f)
    /\ byte_to_Z <$> f !! 8%nat = Some (command fr)
    /\ byte_to_Z <$> f !! 9%nat = Some (format fr)
    /\ le_unpack (slice 6 8 f) = sequence fr
    /\ slice 10 (length f - 3) f = data fr
    /\ byte_to_Z <$> f !! (length f - 3)%nat = Some (crc fr).
Proof.
  intros Hp.
  destruct (parse_frame_inv _ _ _ Hp)
    as (junk & l0 & l1 & l2 & l3 & s0 & s1 & c & fm & payload & k & rest
        & Hb & Hno & Hl & Hmax & -> & ->).
  exists junk, ([xaa; x55; l0; l1; l2; l3; s0; s1; c; fm] ++ payload ++ [k; x55; xaa]), rest.
  destruct (parts_crc l0 l1 l2 l3 s0 s1 c fm payload k) as (Hat & Hslice & Htake).
  cbv zeta in Hat, Hslice, Htake.
  split; [exact Hb|]. split; [exact Hno|].
  split; [apply parts_well_formed; assumption|].
  split; [rewrite !length_app; cbn [length]; lia|].
  split; [reflexivity|]. split; [reflexivity|]. split; [reflexivity|].
  split; [|rewrite Hat; reflexivity].
  unfold slice in Hslice |- *.
  assert (length ([xaa; x55; l0; l1; l2; l3; s0; s1; c; fm] ++ payload ++ [k; x55; xaa]) - 3
          = 10 + length payload)%nat as Hlen by (rewrite !length_app; cbn [length]; lia).
  rewrite Hlen.
  replace (10 + length payload - 10)%nat with (length payload) by lia.
  change (drop 10 ([xaa; x55; l0; l1; l2; l3; s0; s1; c; fm] ++ payload ++ [k; x55; xaa]))
    with (payload ++ [k; x55; xaa]).
  rewrite take_app_length. reflexivity.
Qed.

Lemma parse_frame_sound_witness :
  exists junk f rest,
    [x00; xaa] ++ good_frame ++ [x01] = junk ++ f ++ rest
    /\ no_magic junk /\ well_formed f
    /\ 14 = Z.of_nat (length f)
    /\ byte_to_Z <$> f !! 8%nat = Some 3
    /\ byte_to_Z <$> f !! 9%nat = Some 2
    /\ le_unpack (slice 6 8 f) = 7
    /\ slice 10 (length f - 3) f = [x41]
    /\ byte_to_Z <$> f !! (length f - 3)%nat = Some 7.
Proof.
  apply (parse_frame_sound ([x00; xaa] ++ good_frame ++ [x01])
           {| command := 3; format := 2; sequence := 7; data := [x41]; data_length := 1;
              crc := 7 |} 14).
  vm_compute. reflexivity.
Defined.

(** The fields of a frame that [parse_frame] returns are in the ranges of
    their wire fields, the data is as long as the length field says and at
    most 4 MiB, and the count returned is 13 more than that and at most the
    length of the buffer. *)
Theorem parse_frame_bounds (buffer : bytes) (fr : Frame) (n : Z) :
  parse_frame buffer = Some (fr, n) ->
  0 <= command fr < 256 /\ 0 <= format fr < 256 /\ 0 <= sequence fr < 65536
  /\ 0 <= crc fr < 256
  /\ data_length fr = Z.of_nat (length (data fr))
  /\ data_length fr <= MAX_FRAME_DATA
  /\ n = 13 + data_length fr
  /\ n <= Z.of_nat (length buffer).
Proof.
  intros Hp. pose proof (parse_frame_consumed _ _ _ Hp) as Hn.
  destruct (parse_frame_inv _ _ _ Hp)
    as (junk & l0 & l1 & l2 & l3 & s0 & s1 & c & fm & payload & k & rest
        & Hb & Hno & Hl & Hmax & -> & ->).
  cbn [frame_of command format sequence crc data data_length].
  pose proof (byte_to_Z_range c). pose proof (byte_to_Z_range fm).
  pose proof (byte_to_Z_range k). pose proof (le_unpack_range [s0; s1]) as Hs.
  cbn [length] in Hs. change (256 ^ Z.of_nat 2) with 65536 in Hs.
  repeat split; try lia.
Qed.

Lemma parse_frame_bounds_witness :
  0 <= 3 < 256 /\ 0 <= 2 < 256 /\ 0 <= 7 < 65536 /\ 0 <= 7 < 256
  /\ 1 = Z.of_nat (length [x41]) /\ 1 <= MAX_FRAME_DATA /\ 14 = 13 + 1
  /\ 14 <= Z.of_nat (length good_frame).
Proof.
  apply (parse_frame_bounds good_frame
           {| command := 3; format := 2; sequence := 7; data := [x41]; data_length := 1;
              crc := 7 |} 14).
  vm_compute. reflexivity.
Defined.

Lemma parse_frame_app (buffer more : bytes) (fr : Frame) (n : Z) :
  parse_frame buffer = Some (fr, n) -> parse_frame (buffer ++ more) = Some (fr, n).
Proof.
  intros Hp.
  destruct (parse_frame_inv _ _ _ Hp)
    as (junk & l0 & l1 & l2 & l3 & s0 & s1 & c & fm & payload & k & rest
        & -> & Hno & Hl & Hmax & -> & ->).
  rewrite <- !app_assoc.
  pose proof (parse_frame_parts junk l0 l1 l2 l3 s0 s1 c fm payload k (rest ++ more)
                Hno Hl Hmax) as H.
  rewrite <- !app_assoc in H. exact H.
Qed.

(** A frame that [parse_frame] finds in a buffer is found, with the same
    count, in every buffer that continues it: bytes that arrive later do not
    change what has been parsed. *)
Theorem parse_frame_more_bytes (buffer more : bytes) (fr : Frame) (n : Z) :
  parse_frame buffer = Some (fr, n) -> parse_frame (buffer ++ more) = Some (fr, n).
Proof. apply parse_frame_app. Qed.

Lemma parse_frame_more_bytes_witness :
  parse_frame (good_frame ++ [xaa; x55; x00])
  = Some ({| command := 3; format := 2; sequence := 7; data := [x41]; data_length := 1;
             crc := 7 |}, 14).
Proof. apply (parse_frame_more_bytes good_frame). vm_compute. reflexivity. Defined.

(** Bytes in front of a frame are skipped but not counted: the count is the
    length of the frame, so the caller's [buffer[consumed:]] removes the
    skipped bytes and all of the frame but its last bytes, as many as were
    skipped; these stay in the buffer, in front of what follows. *)
Theorem parse_frame_skipped_not_counted (junk f rest : bytes) :
  no_magic junk -> well_formed f -> (length junk <= length f)%nat ->
  exists fr,
    parse_frame (junk ++ f ++ rest) = Some (fr, Z.of_nat (length f))
    /\ drop (Z.to_nat (Z.of_nat (length f))) (junk ++ f ++ rest)
       = drop (length f - length junk) f ++ rest.
Proof.
  intros Hno Hwf Hlen.
  destruct (well_formed_parts f Hwf)
    as (l0 & l1 & l2 & l3 & s0 & s1 & c & fm & payload & k & Hf & Hl & Hmax).
  exists (frame_of s0 s1 c fm payload k). split.
  - rewrite Hf at 1. rewrite (parse_frame_parts junk _ _ _ _ _ _ _ _ _ _ rest Hno Hl Hmax).
    f_equal. f_equal. rewrite Hf, !length_app. cbn [length]. lia.
  - rewrite Nat2Z.id. rewrite drop_app_ge by exact Hlen.
    rewrite drop_app_le by lia. reflexivity.
Qed.

Lemma parse_frame_skipped_not_counted_witness :
  exists fr,
    parse_frame ([x00; xaa] ++ good_frame ++ good_frame) = Some (fr, Z.of_nat (length good_frame))
    /\ drop (Z.to_nat (Z.of_nat (length good_frame))) ([x00; xaa] ++ good_frame ++ good_frame)
       = drop (length good_frame - length [x00; xaa]) good_frame ++ good_frame.
Proof.
  apply (parse_frame_skipped_not_counted [x00; xaa] good_frame good_frame).
  - reflexivity.
  - apply (bool_decide_unpack _). vm_compute. exact I.
  - vm_compute. lia.
Defined.

(** ** Framing codec: what [build_response_frame] builds *)

Lemma le_bytes_length (n : nat) (v : Z) : length (le_bytes n v) = n.
Proof.
  revert v. induction n as [|n IH]; intros v; [reflexivity|].
  cbn [le_bytes].
  destruct (Byte.of_N (Z.to_N (v mod 256))) as [b|] eqn:Hb.
  - cbn [length]. rewrite IH. reflexivity.
  - apply Byte.of_N_None_iff in Hb. pose proof (Z.mod_pos_bound v 256). lia.
Qed.

Lemma le_unpack_bytes (n : nat) (v : Z) :
  0 <= v < 256 ^ Z.of_nat n -> le_unpack (le_bytes n v) = v.
Proof.
  revert v. induction n as [|n IH]; intros v Hv.
  - cbn in Hv |- *. lia.
  - cbn [le_bytes].
    destruct (Byte.of_N (Z.to_N (v mod 256))) as [b|] eqn:Hb.
    + cbn [le_unpack]. rewrite IH.
      * apply Byte.to_of_N in Hb. unfold byte_to_Z. rewrite Hb.
        pose proof (Z.mod_pos_bound v 256). rewrite Z2N.id by lia.
        pose proof (Z.div_mod v 256). lia.
      * rewrite Nat2Z.inj_succ, Z.pow_succ_r in Hv by lia.
        split; [apply Z.div_pos; lia|]. apply Z.div_lt_upper_bound; lia.
    + apply Byte.of_N_None_iff in Hb. pose proof (Z.mod_pos_bound v 256). lia.
Qed.

Lemma le_pack_inv (n : nat) (v : Z) (bs : bytes) :
  le_pack n v = Ok bs -> length bs = n /\ le_unpack bs = v /\ 0 <= v < 256 ^ Z.of_nat n.
Proof.
  unfold le_pack. case_decide as Hv; [|discriminate]. intros [= <-].
  split; [apply le_bytes_length|]. split; [apply le_unpack_bytes; exact Hv|exact Hv].
Qed.

Lemma byte_of_Z_ok (v : Z) : 0 <= v < 256 -> exists b, byte_of_Z v = Ok b.
Proof.
  intros Hv. unfold byte_of_Z. rewrite decide_True by exact Hv.
  destruct (Byte.of_N (Z.to_N v)) as [b|] eqn:Hb; [eauto|].
  apply Byte.of_N_None_iff in Hb. lia.
Qed.

Lemma byte_of_Z_range (v : Z) (b : byte) : byte_of_Z v = Ok b -> 0 <= v < 256.
Proof. unfold byte_of_Z. case_decide; [done|discriminate]. Qed.

Lemma payload_of_build (enc : Response -> result bytes) (data : FrameData) :
  match data with
  | DictData d =>
      match enc d with
      | Ok b => Ok b
      | Raise e => Raise (ValueError ("仅支持Protobuf格式，编码失败: " +:+ exn_str e))
      end
  | BytesData b => Ok b
  end
  = match payload_of enc data with
    | Ok b => Ok b
    | Raise e => Raise (ValueError ("仅支持Protobuf格式，编码失败: " +:+ exn_str e))
    end.
Proof. destruct data; reflexivity. Qed.

(** The frames that [build_response_frame] returns: the layout, with the
    payload, the fields in range, and the CRC byte computed. *)
Lemma build_response_frame_inv (enc : Response -> result bytes) (cmd fmt : Z)
    (data : FrameData) (seq : Z) (frame : bytes) :
  build_response_frame enc cmd fmt data seq = Ok frame ->
  exists l0 l1 l2 l3 s0 s1 c fm payload,
    frame = [xaa; x55; l0; l1; l2; l3; s0; s1; c; fm] ++ payload
              ++ [crc_byte ([l0; l1; l2; l3; s0; s1; c; fm] ++ payload); x55; xaa]
    /\ payload_of enc data = Ok payload
    /\ le_unpack [l0; l1; l2; l3] = Z.of_nat (length payload)
    /\ le_unpack [s0; s1] = seq
    /\ byte_to_Z c = cmd /\ byte_to_Z fm = fmt.
Proof.
  unfold build_response_frame. rewrite payload_of_build.
  destruct (payload_of enc data) as [payload|e]; [|discriminate]. cbn [rbind].
  destruct (le_pack 4 _) as [lb|] eqn:Hlb; [|discriminate]. cbn [rbind].
  destruct (le_pack 2 seq) as [sb|] eqn:Hsb; [|discriminate]. cbn [rbind].
  destruct (byte_of_Z cmd) as [c|] eqn:Hc; [|discriminate]. cbn [rbind].
  destruct (byte_of_Z fmt) as [fm|] eqn:Hfm; [|discriminate]. cbn [rbind].
  apply le_pack_inv in Hlb as (Hl4 & Hlu & _). apply le_pack_inv in Hsb as (Hl2 & Hsu & _).
  destruct lb as [|l0 [|l1 [|l2 [|l3 [|]]]]]; try discriminate.
  destruct sb as [|s0 [|s1 [|]]]; try discriminate.
  change (drop 2 ([xaa; x55] ++ [l0; l1; l2; l3] ++ [s0; s1] ++ [c; fm] ++ payload))
    with ([l0; l1; l2; l3; s0; s1; c; fm] ++ payload).
  destruct (byte_of_Z (calculate_crc8 _)) as [k|] eqn:Hk; [|discriminate]. cbn [rbind].
  intros [= <-].
  exists l0, l1, l2, l3, s0, s1, c, fm, payload.
  assert (k = crc_byte ([l0; l1; l2; l3; s0; s1; c; fm] ++ payload)) as ->.
  { unfold crc_byte. rewrite Hk. reflexivity. }
  split; [reflexivity|].
  split; [reflexivity|]. split; [exact Hlu|]. split; [exact Hsu|].
  split; apply byte_of_Z_inv; assumption.
Qed.

(** What the encoder builds, the decoder reads back: a frame from
    [build_response_frame] with a payload of at most 4 MiB, followed by any
    bytes, is parsed as the frame with the command, format, sequence and
    payload that were given and with the count of its own bytes; its CRC
    byte is the computed one. *)
Theorem build_then_parse (enc : Response -> result bytes) (cmd fmt : Z) (data : FrameData)
    (seq : Z) (frame rest : bytes) :
  build_response_frame enc cmd fmt data seq = Ok frame ->
  Z.of_nat (length frame) - 13 <= MAX_FRAME_DATA ->
  exists payload k,
    payload_of enc data = Ok payload
    /\ parse_frame (frame ++ rest)
       = Some ({| command := cmd; format := fmt; sequence := seq; data := payload;
                  data_length := Z.of_nat (length payload); crc := k |},
               Z.of_nat (length frame))
    /\ k = calculate_crc8 (slice 2 (length frame - 3) frame)
    /\ well_formed frame /\ crc_valid frame.
Proof.
  intros Hb Hmax.
  destruct (build_response_frame_inv _ _ _ _ _ _ Hb)
    as (l0 & l1 & l2 & l3 & s0 & s1 & c & fm & payload & -> & Hpay & Hl & Hs & Hc & Hf).
  set (k := crc_byte ([l0; l1; l2; l3; s0; s1; c; fm] ++ payload)) in *.
  assert (Z.of_nat (length payload) <= MAX_FRAME_DATA) as Hmax'.
  { rewrite !length_app in Hmax. cbn [length] in Hmax. lia. }
  destruct (parts_crc l0 l1 l2 l3 s0 s1 c fm payload k) as (Hat & Hslice & _).
  cbv zeta in Hat, Hslice.
  exists payload, (byte_to_Z k). split; [exact Hpay|]. split; [|split; [|split]].
  - pose proof (parse_frame_parts [] l0 l1 l2 l3 s0 s1 c fm payload k rest no_magic_nil
                  Hl Hmax') as Hp.
    rewrite app_nil_l in Hp. rewrite Hp. unfold frame_of. rewrite Hs, Hc, Hf.
    f_equal. f_equal. rewrite !length_app. cbn [length]. lia.
  - rewrite Hslice. apply crc_byte_value.
  - apply parts_well_formed; assumption.
  - unfold crc_valid. rewrite Hat, Hslice. cbn. f_equal. apply crc_byte_value.
Qed.

Lemma build_then_parse_witness :
  exists payload k,
    payload_of (fun _ => Ok []) (BytesData [x41]) = Ok payload
    /\ parse_frame (good_frame ++ [x00])
       = Some ({| command := 3; format := 2; sequence := 7; data := payload;
                  data_length := Z.of_nat (length payload); crc := k |},
               Z.of_nat (length good_frame))
    /\ k = calculate_crc8 (slice 2 (length good_frame - 3) good_frame)
    /\ well_formed good_frame /\ crc_valid good_frame.
Proof.
  apply (build_then_parse (fun _ => Ok []) 3 2 (BytesData [x41]) 7 good_frame [x00]).
  - vm_compute. reflexivity.
  - vm_compute. discriminate.
Defined.

(** [build_response_frame] returns a frame exactly when the payload can be
    encoded and is shorter than 2^32 bytes, the sequence fits 16 bits, and
    the command and the format fit a byte; the frame is then 13 bytes
    longer than the payload.  Nothing else makes it raise. *)
Theorem build_response_frame_defined (enc : Response -> result bytes) (cmd fmt : Z)
    (data : FrameData) (seq : Z) :
  (exists frame, build_response_frame enc cmd fmt data seq = Ok frame)
  <-> (exists payload, payload_of enc data = Ok payload
                       /\ Z.of_nat (length payload) < 2 ^ 32)
      /\ 0 <= seq < 65536 /\ 0 <= cmd < 256 /\ 0 <= fmt < 256.
Proof.
  split.
  - intros [frame Hb]. unfold build_response_frame in Hb. rewrite payload_of_build in Hb.
    destruct (payload_of enc data) as [payload|e]; [|discriminate]. cbn [rbind] in Hb.
    destruct (le_pack 4 _) as [lb|] eqn:Hlb; [|discriminate]. cbn [rbind] in Hb.
    destruct (le_pack 2 seq) as [sb|] eqn:Hsb; [|discriminate]. cbn [rbind] in Hb.
    destruct (byte_of_Z cmd) as [c|] eqn:Hc; [|discriminate]. cbn [rbind] in Hb.
    destruct (byte_of_Z fmt) as [fm|] eqn:Hfm; [|discriminate].
    apply le_pack_inv in Hlb as (_ & _ & Hl). apply le_pack_inv in Hsb as (_ & _ & Hs).
    apply byte_of_Z_range in Hc, Hfm.
    split; [exists payload; split; [reflexivity|exact (proj2 Hl)]|].
    change (256 ^ Z.of_nat 2) with 65536 in Hs. lia.
  - intros ((payload & Hpay & Hlen) & Hs & Hc & Hf).
    unfold build_response_frame. rewrite payload_of_build, Hpay. cbn [rbind].
    unfold le_pack. rewrite decide_True by (change (256 ^ Z.of_nat 4) with (2 ^ 32); lia).
    rewrite decide_True by (change (256 ^ Z.of_nat 2) with 65536; lia). cbn [rbind].
    destruct (byte_of_Z_ok cmd Hc) as [c ->]. destruct (byte_of_Z_ok fmt Hf) as [fm ->].
    cbn [rbind].
    destruct (byte_of_Z_ok (calculate_crc8
                (drop 2 ([xaa; x55] ++ le_bytes 4 (Z.of_nat (length payload)) ++ le_bytes 2 seq
                           ++ [c; fm] ++ payload))) (calculate_crc8_range _)) as [k ->].
    cbn [rbind]. eauto.
Qed.

(** ** The loop of [handle_frame_protocol] *)

Lemma build_answers (enc : Response -> result bytes) (fr : Frame) (data : FrameData)
    (resp : bytes) :
  build_response_frame enc (command fr) FORMAT_PROTOBUF data (sequence fr) = Ok resp ->
  answers fr resp.
Proof.
  intros Hb.
  destruct (build_response_frame_inv _ _ _ _ _ _ Hb)
    as (l0 & l1 & l2 & l3 & s0 & s1 & c & fm & payload & -> & Hpay & Hl & Hs & Hc & Hf).
  set (k := crc_byte ([l0; l1; l2; l3; s0; s1; c; fm] ++ payload)) in *.
  assert (fm = x02) as -> by (apply (inj byte_to_Z); exact Hf).
  destruct (parts_crc l0 l1 l2 l3 s0 s1 c x02 payload k) as (Hat & Hslice & _).
  cbv zeta in Hat, Hslice.
  assert (length ([xaa; x55; l0; l1; l2; l3; s0; s1; c; x02] ++ payload ++ [k; x55; xaa])
          = 13 + length payload)%nat as Hlen by (rewrite !length_app; cbn [length]; lia).
  unfold answers. rewrite Hlen.
  split; [lia|]. split; [reflexivity|].
  split; [change (slice 2 6 _) with [l0; l1; l2; l3]; lia|].
  split; [exact Hs|]. split; [cbn; f_equal; exact Hc|]. split; [reflexivity|].
  split.
  - unfold crc_valid. rewrite Hat, Hslice. cbn. f_equal. apply crc_byte_value.
  - replace (13 + length payload - 2)%nat with (10 + (length payload + 1))%nat by lia.
    change (drop (10 + (length payload + 1))
              ([xaa; x55; l0; l1; l2; l3; s0; s1; c; x02] ++ payload ++ [k; x55; xaa]))
      with (drop (length payload + 1) (payload ++ [k; x55; xaa])).
    rewrite drop_app_add'; [reflexivity|done].
Qed.

Lemma build_raise_unframable (E : Env) (fr : Frame) (buffer : bytes) (n : Z)
    (resp : Response) (e : exn) :
  parse_frame buffer = Some (fr, n) ->
  build_response_frame (encode_unified_response E) (command fr) FORMAT_PROTOBUF
    (DictData resp) (sequence fr) = Raise e ->
  unframable E resp.
Proof.
  intros Hp Hb. unfold unframable.
  destruct (encode_unified_response E resp) as [payload|e'] eqn:Henc; [|exact I].
  destruct (decide (2 ^ 32 <= Z.of_nat (length payload))) as [|Hlen]; [assumption|].
  destruct (parse_frame_inv _ _ _ Hp)
    as (junk & l0 & l1 & l2 & l3 & s0 & s1 & c & fm & pl & k & rest
        & _ & _ & _ & _ & -> & _).
  cbn [frame_of command sequence] in Hb.
  pose proof (byte_to_Z_range c) as Hc. pose proof (le_unpack_range [s0; s1]) as Hs.
  cbn [length] in Hs. change (256 ^ Z.of_nat 2) with 65536 in Hs.
  assert (exists frame, build_response_frame (encode_unified_response E) (byte_to_Z c)
                          FORMAT_PROTOBUF (DictData resp) (le_unpack [s0; s1]) = Ok frame)
    as [frame Hok].
  { unfold build_response_frame. rewrite Henc. cbn [rbind].
    unfold le_pack. rewrite decide_True by (change (256 ^ Z.of_nat 4) with (2 ^ 32); lia).
    rewrite decide_True by (change (256 ^ Z.of_nat 2) with 65536; lia). cbn [rbind].
    destruct (byte_of_Z_ok (byte_to_Z c) Hc) as [c' ->].
    change (byte_of_Z FORMAT_PROTOBUF) with (Ok x02 : result byte). cbn [rbind].
    destruct (byte_of_Z_ok (calculate_crc8
                (drop 2 ([xaa; x55] ++ le_bytes 4 (Z.of_nat (length payload))
                           ++ le_bytes 2 (le_unpack [s0; s1]) ++ [c'; x02] ++ payload)))
                (calculate_crc8_range _)) as [k' ->].
    cbn [rbind]. eauto. }
  rewrite Hok in Hb. discriminate.
Qed.

(** One turn after the other: what the loop has sent, which frames it has
    taken from the buffer, and why it can end with an exception. *)
Lemma frame_loop_spec (E : Env) (client_id : string) (fuel : nat) :
  forall (buffer : bytes) (sent0 : list bytes) (w : World) r sent w',
  frame_loop E fuel client_id buffer sent0 w = (r, sent, w') ->
  exists new,
    sent = sent0 ++ new
    /\ match r with
       | Ok rest =>
           rest = (extract_frames fuel buffer).2
           /\ Forall2 answers (extract_frames fuel buffer).1 new
       | Raise _ =>
           (length new < length (extract_frames fuel buffer).1)%nat
           /\ Forall2 answers (take (length new) (extract_frames fuel buffer).1) new
           /\ exists resp, unframable E resp
       end.
Proof.
  induction fuel as [|fuel IH]; intros buffer sent0 w r sent w' H.
  - cbn in H. injection H as <- <- <-. exists []. rewrite app_nil_r.
    split; [reflexivity|]. cbn. split; [reflexivity|constructor].
  - cbn [frame_loop extract_frames] in H |- *.
    destruct (parse_frame buffer) as [[fr n]|] eqn:Hp.
    2:{ injection H as <- <- <-. exists []. rewrite app_nil_r.
        split; [reflexivity|]. cbn. split; [reflexivity|constructor]. }
    destruct (extract_frames fuel (drop (Z.to_nat n) buffer)) as [frames rest] eqn:Hex.
    cbn [fst snd].
    assert (forall resp w1,
      match build_response_frame (encode_unified_response E) (command fr) FORMAT_PROTOBUF
              (DictData resp) (sequence fr) with
      | Raise e => (Raise e, sent0, w1)
      | Ok f => frame_loop E fuel client_id (drop (Z.to_nat n) buffer) (sent0 ++ [f]) w1
      end = (r, sent, w') ->
      exists new,
        sent = sent0 ++ new
        /\ match r with
           | Ok rest' => rest' = rest /\ Forall2 answers (fr :: frames) new
           | Raise _ =>
               (length new < length (fr :: frames))%nat
               /\ Forall2 answers (take (length new) (fr :: frames)) new
               /\ exists resp, unframable E resp
           end) as Hstep.
    { intros resp w1 H1.
      destruct (build_response_frame _ _ _ _ _) as [f|e] eqn:Hb.
      - apply IH in H1 as (new & -> & Hr). rewrite Hex in Hr. cbn [fst snd] in Hr.
        exists (f :: new). rewrite <- app_assoc. split; [reflexivity|].
        pose proof (build_answers _ _ _ _ Hb) as Hans.
        destruct r as [rest'|e].
        + destruct Hr as [-> HF]. split; [reflexivity|]. constructor; assumption.
        + destruct Hr as (Hlen & HF & Hun). cbn [length]. split; [lia|].
          split; [|exact Hun]. cbn [take]. constructor; assumption.
      - injection H1 as <- <- <-. exists []. rewrite app_nil_r. split; [reflexivity|].
        cbn [length take]. split; [lia|]. split; [constructor|].
        exists resp. exact (build_raise_unframable _ _ _ _ _ _ Hp Hb). }
    destruct (decide (format fr <> FORMAT_PROTOBUF)).
    + cbn [time_time] in H. exact (Hstep _ _ H).
    + destruct (process_frame_request E _ _ w) as [response w1]. exact (Hstep _ _ H).
Qed.

(** One response frame per request frame, in order: when the loop of
    [handle_frame_protocol] ends without an exception, it has taken from the
    buffer the frames that the extraction gives and has kept the buffer that
    the extraction leaves, and it has sent one frame for each of them, which
    repeats the sequence and the command of the request, with format 0x02
    and a valid CRC.  When it ends with an exception, it has done so for a
    proper initial part of the frames. *)
Theorem responses_follow_requests (E : Env) (client_id : string) (buffer : bytes)
    (w : World) :
  let '(r, sent, _) := handle_frame_protocol E client_id buffer w in
  let '(frames, remaining) := extract_frames (length buffer) buffer in
  match r with
  | Ok rest => rest = remaining /\ Forall2 answers frames sent
  | Raise _ =>
      (length sent < length frames)%nat /\ Forall2 answers (take (length sent) frames) sent
  end.
Proof.
  unfold handle_frame_protocol.
  destruct (frame_loop E (length buffer) client_id buffer [] w) as [[r sent] w'] eqn:H.
  apply frame_loop_spec in H as (new & -> & Hr). rewrite app_nil_l.
  destruct (extract_frames (length buffer) buffer) as [frames remaining]. cbn [fst snd] in Hr.
  destruct r; [exact Hr|]. destruct Hr as (? & ? & _). split; assumption.
Qed.



Lemma frame_loop_enough (E : Env) (client_id : string) (fuel : nat) (buffer : bytes)
    (sent : list bytes) (w : World) :
  (length buffer <= fuel)%nat ->
  frame_loop E fuel client_id buffer sent w
  = frame_loop E (length buffer) client_id buffer sent w.
Proof.
  intros H. replace fuel with ((fuel - length buffer) + length buffer)%nat by lia.
  induction (fuel - length buffer)%nat as [|d IH]; [reflexivity|].
  cbn [Nat.add]. rewrite frame_loop_fuel by lia. exact IH.
Qed.

Lemma frame_loop_sent (E : Env) (client_id : string) (fuel : nat) :
  forall (buffer : bytes) (sent : list bytes) (w : World),
  frame_loop E fuel client_id buffer sent w
  = let '(r, s, w') := frame_loop E fuel client_id buffer [] w in (r, sent ++ s, w').
Proof.
  induction fuel as [|fuel IH]; intros buffer sent w.
  - cbn. rewrite app_nil_r. reflexivity.
  - cbn [frame_loop].
    destruct (parse_frame buffer) as [[fr n]|]; [|rewrite app_nil_r; reflexivity].
    assert (forall resp w1,
      match build_response_frame (encode_unified_response E) (command fr) FORMAT_PROTOBUF
              (DictData resp) (sequence fr) with
      | Raise e => (Raise e, sent, w1)
      | Ok f => frame_loop E fuel client_id (drop (Z.to_nat n) buffer) (sent ++ [f]) w1
      end
      = let '(r, s, w') :=
          match build_response_frame (encode_unified_response E) (command fr)
                  FORMAT_PROTOBUF (DictData resp) (sequence fr) with
          | Raise e => (Raise e, [], w1)
          | Ok f => frame_loop E fuel client_id (drop (Z.to_nat n) buffer) ([] ++ [f]) w1
          end in (r, sent ++ s, w')) as Hstep.
    { intros resp w1. destruct (build_response_frame _ _ _ _ _) as [f|e].
      - rewrite (IH _ (sent ++ [f])), (IH _ ([] ++ [f])).
        destruct (frame_loop E fuel client_id _ [] w1) as [[r s] w'].
        rewrite <- app_assoc. reflexivity.
      - rewrite app_nil_r. reflexivity. }
    destruct (decide (format fr <> FORMAT_PROTOBUF)).
    + cbn [time_time]. apply Hstep.
    + destruct (process_frame_request E _ _ w) as [response w1]. apply Hstep.
Qed.

Lemma frame_protocol_split_fuel (E : Env) (client_id : string) (fuel : nat) :
  forall (b1 b2 : bytes) (w : World),
  (length b1 <= fuel)%nat ->
  handle_frame_protocol E client_id (b1 ++ b2) w
  = match handle_frame_protocol E client_id b1 w with
    | (Ok rest, sent1, w1) =>
        let '(r, sent2, w2) := handle_frame_protocol E client_id (rest ++ b2) w1 in
        (r, sent1 ++ sent2, w2)
    | (Raise e, sent1, w1) => (Raise e, sent1, w1)
    end.
Proof.
  induction fuel as [|fuel IH]; intros b1 b2 w Hlen.
  - destruct b1; [|cbn in Hlen; lia]. cbn [app].
    change (handle_frame_protocol E client_id [] w) with (Ok [] : result bytes, [] : list bytes, w).
    cbn [app]. destruct (handle_frame_protocol E client_id b2 w) as [[r s] w']. reflexivity.
  - destruct (parse_frame b1) as [[fr n]|] eqn:Hp.
    2:{ assert (handle_frame_protocol E client_id b1 w = (Ok b1, [], w)) as ->.
        { unfold handle_frame_protocol. destruct (length b1); [reflexivity|].
          cbn [frame_loop]. rewrite Hp. reflexivity. }
        destruct (handle_frame_protocol E client_id (b1 ++ b2) w) as [[r s] w']. reflexivity. }
    pose proof (parse_frame_consumed _ _ _ Hp) as Hn.
    pose proof (parse_frame_app _ b2 _ _ Hp) as Hp2.
    unfold handle_frame_protocol at 1 2.
    destruct (length (b1 ++ b2)) as [|m2] eqn:Hm2; [rewrite length_app in Hm2; lia|].
    destruct (length b1) as [|m1] eqn:Hm1; [lia|].
    cbn [frame_loop]. rewrite Hp, Hp2.
    assert (drop (Z.to_nat n) (b1 ++ b2) = drop (Z.to_nat n) b1 ++ b2) as Hdrop
      by (apply drop_app_le; lia).
    rewrite Hdrop.
    set (b1' := drop (Z.to_nat n) b1).
    assert (length b1' <= fuel)%nat as Hl1 by (unfold b1'; rewrite length_drop; lia).
    assert (length b1' <= m1)%nat as Hl1' by (unfold b1'; rewrite length_drop; lia).
    assert (length (b1' ++ b2) <= m2)%nat as Hl2.
    { rewrite length_app in Hm2 |- *. unfold b1'. rewrite length_drop. lia. }
    assert (forall resp w1,
      match build_response_frame (encode_unified_response E) (command fr) FORMAT_PROTOBUF
              (DictData resp) (sequence fr) with
      | Raise e => (Raise e, [], w1)
      | Ok f => frame_loop E m2 client_id (b1' ++ b2) ([] ++ [f]) w1
      end
      = match
          match build_response_frame (encode_unified_response E) (command fr)
                  FORMAT_PROTOBUF (DictData resp) (sequence fr) with
          | Raise e => (Raise e, [], w1)
          | Ok f => frame_loop E m1 client_id b1' ([] ++ [f]) w1
          end
        with
        | (Ok rest, sent1, w1) =>
            let '(r, sent2, w2) := handle_frame_protocol E client_id (rest ++ b2) w1 in
            (r, sent1 ++ sent2, w2)
        | (Raise e, sent1, w1) => (Raise e, sent1, w1)
        end) as Hstep.
    { intros resp w1. destruct (build_response_frame _ _ _ _ _) as [f|e]; [|reflexivity].
      rewrite (frame_loop_enough E client_id m2 _ _ _ Hl2).
      rewrite (frame_loop_enough E client_id m1 _ _ _ Hl1').
      rewrite (frame_loop_sent E client_id _ (b1' ++ b2)), (frame_loop_sent E client_id _ b1').
      fold (handle_frame_protocol E client_id (b1' ++ b2) w1).
      fold (handle_frame_protocol E client_id b1' w1).
      rewrite (IH b1' b2 w1 Hl1).
      destruct (handle_frame_protocol E client_id b1' w1) as [[[rest|e] s1] w2].
      - destruct (handle_frame_protocol E client_id (rest ++ b2) w2) as [[r s2] w3].
        rewrite app_assoc. reflexivity.
      - reflexivity. }
    destruct (decide (format fr <> FORMAT_PROTOBUF)).
    + cbn [time_time]. apply Hstep.
    + destruct (process_frame_request E _ _ w) as [response w1]. apply Hstep.
Qed.

(** The stream may be cut anywhere: running the loop of
    [handle_frame_protocol] on a buffer and then, with what it has left, on
    the bytes that follow sends the same frames, leaves the same buffer and
    the same state, and ends with the same exception if any, as running it
    once on all the bytes. *)
Theorem frame_protocol_split (E : Env) (client_id : string) (b1 b2 : bytes) (w : World) :
  handle_frame_protocol E client_id (b1 ++ b2) w
  = match handle_frame_protocol E client_id b1 w with
    | (Ok rest, sent1, w1) =>
        let '(r, sent2, w2) := handle_frame_protocol E client_id (rest ++ b2) w1 in
        (r, sent1 ++ sent2, w2)
    | (Raise e, sent1, w1) => (Raise e, sent1, w1)
    end.
Proof. apply (frame_protocol_split_fuel E client_id (length b1)). lia. Qed.

(** ** Path sandbox *)





Lemma string_app_nil_r (s : string) : s +:+ "" = s.
Proof.
  induction s as [|c s IH]; [reflexivity|].
  change (String c s +:+ "") with (String c (s +:+ "")). f_equal. exact IH.
Qed.

Lemma string_app_assoc (a b c : string) : (a +:+ b) +:+ c = a +:+ (b +:+ c).
Proof.
  induction a as [|x a IH]; [reflexivity|].
  change (String x ((a +:+ b) +:+ c) = String x (a +:+ (b +:+ c))). f_equal. exact IH.
Qed.

Lemma concat_nil_cons (x : string) (l : list string) :
  String.concat "" (x :: l) = x +:+ String.concat "" l.
Proof. destruct l; [symmetry; apply string_app_nil_r|reflexivity]. Qed.







Lemma prefix_cons (x y : ascii) (a b : string) :
  String.prefix (String x a) (String y b) = true <-> x = y /\ String.prefix a b = true.
Proof.
  cbn [String.prefix]. destruct (Ascii.ascii_dec x y) as [->|Hn].
  - split; [intros H; split; [reflexivity|exact H]|intros [_ H]; exact H].
  - split; [discriminate|intros [? _]; contradiction].
Qed.

Lemma slash_free_cons (x : ascii) (a : string) :
  slash_free (String x a) <-> x <> "/"%char /\ slash_free a.
Proof.
  unfold slash_free. cbn [list_ascii_of_string].
  apply (list.Forall_cons (fun a => a <> "/"%char)).
Qed.

Lemma path_cat_name_end (p : Path) : name_end (path_cat p).
Proof.
  unfold path_cat. destruct p as [|c p]; [left; reflexivity|right].
  cbn [map]. rewrite concat_nil_cons. eexists. reflexivity.
Qed.

Lemma prefix_name (a b t : string) :
  slash_free a -> name_end t ->
  String.prefix a (b +:+ t) = true -> String.prefix a b = true.
Proof.
  revert a. induction b as [|x b IH]; intros a Ha Ht H.
  - destruct a as [|y a]; [reflexivity|]. apply slash_free_cons in Ha as [Hy _].
    destruct Ht as [-> | [t' ->]]; [discriminate|].
    change ("" +:+ String "/" t') with (String "/" t') in H.
    apply prefix_cons in H as [-> _]. contradiction.
  - destruct a as [|y a]; [reflexivity|]. apply slash_free_cons in Ha as [_ Ha].
    change (String x b +:+ t) with (String x (b +:+ t)) in H.
    apply prefix_cons in H as [-> H]. apply prefix_cons. split; [reflexivity|].
    exact (IH a Ha Ht H).
Qed.

Lemma prefix_names (a b s t : string) :
  slash_free a -> slash_free b -> name_end t ->
  String.prefix (a +:+ String "/" s) (b +:+ t) = true ->
  a = b /\ String.prefix (String "/" s) t = true.
Proof.
  revert b. induction a as [|y a IH]; intros b Ha Hb Ht H.
  - change ("" +:+ String "/" s) with (String "/" s) in H.
    destruct b as [|x b]; [split; [reflexivity|exact H]|].
    apply slash_free_cons in Hb as [Hx _].
    change (String x b +:+ t) with (String x (b +:+ t)) in H.
    apply prefix_cons in H as [<- _]. contradiction.
  - apply slash_free_cons in Ha as [Hy Ha].
    change (String y a +:+ String "/" s) with (String y (a +:+ String "/" s)) in H.
    destruct b as [|x b].
    + destruct Ht as [-> | [t' ->]]; [discriminate|].
      change ("" +:+ String "/" t') with (String "/" t') in H.
      apply prefix_cons in H as [-> _]. contradiction.
    + apply slash_free_cons in Hb as [_ Hb].
      change (String x b +:+ t) with (String x (b +:+ t)) in H.
      apply prefix_cons in H as [-> H].
      destruct (IH b Ha Hb Ht H) as [-> Hst]. split; [reflexivity|exact Hst].
Qed.

(** When the string of a path starts with the string of another, the
    second is a leading part of the first, up to its last name, which only
    has to start the name found at its place. *)
Lemma path_cat_prefix (root : Path) :
  forall p : Path,
  root <> [] -> Forall entry_name_ok root -> Forall slash_free p ->
  String.prefix (path_cat root) (path_cat p) = true ->
  root `prefix_of` p \/ beside_root root p.
Proof.
  induction root as [|a root IH]; intros p Hne Hroot Hp H; [contradiction|].
  apply list.Forall_cons in Hroot as [[Ha0 Ha] Hroot].
  unfold path_cat in H. cbn [map] in H. rewrite concat_nil_cons in H.
  destruct p as [|b p].
  { cbn in H. discriminate. }
  apply list.Forall_cons in Hp as [Hb Hp].
  cbn [map] in H. rewrite concat_nil_cons in H.
  rewrite !string_app_assoc in H.
  change ("/" +:+ ?x) with (String "/" x) in H.
  apply prefix_cons in H as [_ H].
  destruct root as [|a' root].
  - cbn [map String.concat] in H. rewrite string_app_nil_r in H.
    apply prefix_name in H; [|exact Ha|apply (path_cat_name_end p)].
    destruct (decide (b = a)) as [->|Hba].
    + left. exists p. reflexivity.
    + right. exists [], a, b, p. auto.
  - cbn [map] in H. rewrite (concat_nil_cons _ (map _ root)) in H.
    rewrite string_app_assoc in H. change ("/" +:+ ?x) with (String "/" x) in H.
    apply prefix_names in H as [-> H]; [|assumption|assumption|apply (path_cat_name_end p)].
    assert (String.prefix (path_cat (a' :: root)) (path_cat p) = true) as H'.
    { unfold path_cat. cbn [map]. rewrite (concat_nil_cons _ (map _ root)), string_app_assoc. exact H. }
    destruct (IH p ltac:(discriminate) Hroot Hp H') as [[k ->] | (parent & name & c & rest & Hr & -> & Hpre & Hc)].
    + left. exists k. reflexivity.
    + right. exists (b :: parent), name, c, rest. rewrite Hr. auto.
Qed.

Lemma split_slash_free (s : string) : Forall slash_free (split_slash s).
Proof.
  induction s as [|c s IH]; [repeat constructor|].
  cbn [split_slash]. destruct (decide (c = "/"%char)) as [->|Hc].
  - constructor; [constructor|exact IH].
  - destruct (split_slash s) as [|p ps]; [repeat constructor; exact Hc|].
    apply list.Forall_cons in IH as [Hp Hps]. constructor; [|exact Hps].
    apply slash_free_cons. split; assumption.
Qed.

Lemma Forall_removelast {A} (P : A -> Prop) (l : list A) : Forall P l -> Forall P (removelast l).
Proof.
  induction 1 as [|x l Hx Hl IH]; [constructor|].
  cbn [removelast]. destruct l; [constructor|]. constructor; assumption.
Qed.

Lemma resolve_slash_free (p acc : Path) :
  Forall slash_free p -> Forall slash_free acc ->
  Forall slash_free
    (fold_left (fun acc c => if decide (c = "..") then removelast acc else acc ++ [c]) p acc).
Proof.
  revert acc. induction p as [|c p IH]; intros acc Hp Hacc; [exact Hacc|].
  apply list.Forall_cons in Hp as [Hc Hp]. cbn [fold_left]. apply IH; [exact Hp|].
  case_decide; [apply Forall_removelast; exact Hacc|].
  apply Forall_app. split; [exact Hacc|]. constructor; [exact Hc|constructor].
Qed.

(** How far the check of [get_safe_path] lets a path go: a path that it
    returns is under the root, or it is beside the root, under a sibling
    whose name starts with the name of the root and is longer.  Nothing
    else passes the comparison of the two strings. *)
Theorem get_safe_path_extent (root : Path) (path : string) (p : Path) :
  Forall entry_name_ok root ->
  get_safe_path root path = Ok p ->
  under_root root p \/ beside_root root p.
Proof.
  intros Hroot. unfold get_safe_path.
  set (path' := if startswith path "/" then _ else path).
  destruct (startswith (path_str (resolve (joinpath root path'))) (path_str root)) eqn:Hs;
    [|discriminate].
  cbn [negb]. intros [= <-].
  set (p := resolve (joinpath root path')) in *.
  assert (Forall slash_free p) as Hp.
  { unfold p, resolve. apply resolve_slash_free; [|constructor].
    assert (Forall slash_free (path_parts path')) as Hparts.
    { unfold path_parts. apply list.Forall_forall. intros c Hc.
      apply list_elem_of_filter in Hc as [_ Hc]. revert c Hc.
      apply list.Forall_forall, split_slash_free. }
    unfold joinpath. destruct (startswith path' "/"); [exact Hparts|].
    apply Forall_app. split; [|exact Hparts].
    eapply list.Forall_impl; [exact Hroot|]. intros c [_ Hc]. exact Hc. }
  destruct root as [|a root]; [left; exists p; reflexivity|].
  unfold startswith in Hs. destruct p as [|b p'] eqn:Hpe.
  - exfalso. apply list.Forall_cons in Hroot as [[Ha0 _] _].
    unfold path_str in Hs. cbn [map] in Hs. rewrite concat_nil_cons, string_app_assoc in Hs.
    change ("/" +:+ ?x) with (String "/" x) in Hs.
    apply prefix_cons in Hs as [_ Hs]. destruct a; [contradiction|discriminate].
  - apply path_cat_prefix; [discriminate|exact Hroot|exact Hp|exact Hs].
Qed.

Lemma get_safe_path_extent_witness :
  under_root ["srv"; "root"] ["srv"; "root2"; "secret"]
  \/ beside_root ["srv"; "root"] ["srv"; "root2"; "secret"].
Proof.
  apply (get_safe_path_extent ["srv"; "root"] "/../root2/secret").
  - apply (bool_decide_unpack _). vm_compute. exact I.
  - vm_compute. reflexivity.
Defined.

(** ** Payload codec: varints *)

Lemma low7_facts (t : Z) :
  0 <= t < 128 ->
  byte_to_Z (byte_of (Z.lor t 0x80)) = Z.lor t 0x80
  /\ byte_to_Z (byte_of t) = t
  /\ Z.land (Z.lor t 0x80) 0x7F = t
  /\ Z.land (Z.lor t 0x80) 0x80 <> 0
  /\ Z.land t 0x80 = 0
  /\ Z.land t 0x7F = t.
Proof.
  intros Ht.
  assert (Forall (fun n =>
            byte_to_Z (byte_of (Z.lor (Z.of_nat n) 0x80)) = Z.lor (Z.of_nat n) 0x80
            /\ byte_to_Z (byte_of (Z.of_nat n)) = Z.of_nat n
            /\ Z.land (Z.lor (Z.of_nat n) 0x80) 0x7F = Z.of_nat n
            /\ Z.land (Z.lor (Z.of_nat n) 0x80) 0x80 <> 0
            /\ Z.land (Z.of_nat n) 0x80 = 0
            /\ Z.land (Z.of_nat n) 0x7F = Z.of_nat n) (seq 0 128)) as H.
  { apply (bool_decide_unpack _). vm_compute. exact I. }
  rewrite list.Forall_forall in H. specialize (H (Z.to_nat t)).
  rewrite Z2Nat.id in H by lia. apply H. apply elem_of_seq. lia.
Qed.

Lemma land_127_range (v : Z) : 0 <= Z.land v 0x7F < 128.
Proof.
  change 0x7F with (Z.ones 7). rewrite Z.land_ones by lia.
  apply Z.mod_pos_bound. lia.
Qed.

Lemma varint_bits (v shift : Z) :
  0 <= shift ->
  Z.lor (Z.shiftl (Z.land v 0x7F) shift) (Z.shiftl (Z.shiftr v 7) (shift + 7))
  = Z.shiftl v shift.
Proof.
  intros Hs. apply Z.bits_inj'. intros n Hn.
  rewrite Z.lor_spec, !Z.shiftl_spec by lia.
  change 0x7F with (Z.ones 7).
  destruct (Z.lt_ge_cases (n - shift) 0) as [Hneg|Hpos].
  - rewrite !Z.testbit_neg_r by lia. reflexivity.
  - rewrite Z.land_spec. destruct (Z.lt_ge_cases (n - shift) 7) as [Hlow|Hhigh].
    + rewrite Z.ones_spec_low by lia. rewrite (Z.testbit_neg_r _ (n - (shift + 7))) by lia.
      rewrite andb_true_r, orb_false_r. reflexivity.
    + rewrite Z.ones_spec_high by lia. rewrite andb_false_r, orb_false_l.
      rewrite Z.shiftr_spec by lia. f_equal. lia.
Qed.

Lemma varint_loop_out (fuel : nat) :
  forall (v acc shift offset : Z) (rest : bytes),
  (0 < fuel)%nat -> 0 <= v < 2 ^ (7 * Z.of_nat fuel) -> 0 <= shift ->
  ProtobufTcpServer.varint_loop (ProtobufTcpServer.varint_out fuel v ++ rest) acc shift offset
  = Ok (Z.lor acc (Z.shiftl v shift), offset + Z.of_nat (length (ProtobufTcpServer.varint_out fuel v))).
Proof.
  induction fuel as [|fuel IH]; intros v acc shift offset rest Hf Hv Hs; [lia|].
  cbn [ProtobufTcpServer.varint_out].
  pose proof (land_127_range v) as Ht.
  destruct (low7_facts _ Ht) as (Hb1 & Hb0 & Hl1 & Hc1 & Hc0 & Hl0).
  assert (0 <= Z.shiftr v 7 < 2 ^ (7 * Z.of_nat fuel)) as Hv'.
  { rewrite Z.shiftr_div_pow2 by lia. split; [apply Z.div_pos; lia|].
    apply Z.div_lt_upper_bound; [lia|]. rewrite <- Z.pow_add_r by lia.
    replace (7 + 7 * Z.of_nat fuel) with (7 * Z.of_nat (S fuel)) by lia. lia. }
  destruct (decide (Z.shiftr v 7 <> 0)) as [Hne|Heq].
  - cbn [app ProtobufTcpServer.varint_loop length]. rewrite Hb1, Hl1.
    destruct (decide (Z.land (Z.lor (Z.land v 127) 128) 128 = 0)) as [|_]; [contradiction|].
    assert (0 < fuel)%nat as Hf'.
    { destruct fuel; [|lia]. cbn in Hv'. lia. }
    rewrite IH by (try assumption; lia).
    rewrite <- Z.lor_assoc, varint_bits by lia. f_equal. f_equal. lia.
  - cbn [app ProtobufTcpServer.varint_loop length]. rewrite Hb0, Hl0.
    destruct (decide (Z.land (Z.land v 127) 128 = 0)) as [_|]; [|contradiction].
    f_equal. f_equal.
    assert (Z.shiftr v 7 = 0) as H0 by (destruct (decide (Z.shiftr v 7 = 0)); [done|contradiction]).
    rewrite <- (varint_bits v shift Hs), H0, Z.shiftl_0_l, Z.lor_0_r. reflexivity.
Qed.

Lemma _varint_fuel (v : Z) : 0 <= v -> v < 2 ^ (7 * Z.of_nat (S (Z.to_nat (Z.log2 v)))).
Proof.
  intros Hv. pose proof (Z.log2_nonneg v) as Hl.
  destruct (decide (v = 0)) as [->|Hne]; [cbn; lia|].
  pose proof (Z.log2_spec v ltac:(lia)) as [_ Hup].
  eapply Z.lt_le_trans; [exact Hup|]. apply Z.pow_le_mono_r; lia.
Qed.

Lemma wire_value_nonneg (v : Z) : 0 <= wire_value v.
Proof.
  unfold wire_value. case_decide; [|lia]. apply Z.mod_pos_bound. lia.
Qed.

Lemma _varint_wire (v : Z) :
  ProtobufTcpServer._varint v
  = ProtobufTcpServer.varint_out (S (Z.to_nat (Z.log2 (wire_value v)))) (wire_value v).
Proof.
  unfold ProtobufTcpServer._varint, wire_value. case_decide; [|reflexivity].
  change (Z.shiftl 1 64 - 1) with (Z.ones 64). rewrite Z.land_ones by lia. reflexivity.
Qed.

Lemma _decode_varint_at (pre rest : bytes) (v : Z) :
  ProtobufTcpServer._decode_varint (pre ++ ProtobufTcpServer._varint v ++ rest)
    (Z.of_nat (length pre))
  = Ok (wire_value v,
        Z.of_nat (length pre) + Z.of_nat (length (ProtobufTcpServer._varint v))).
Proof.
  unfold ProtobufTcpServer._decode_varint. rewrite Nat2Z.id, drop_app_length.
  rewrite _varint_wire. pose proof (wire_value_nonneg v) as Hv.
  rewrite varint_loop_out; [|lia|split; [exact Hv|apply _varint_fuel; exact Hv]|lia].
  rewrite Z.shiftl_0_r, Z.lor_0_l. reflexivity.
Qed.

(** A varint is read back: behind any bytes and in front of any bytes, the
    decoder returns the value that [_varint] wrote (a negative value
    modulo 2^64) and the offset behind its bytes. *)
Theorem varint_roundtrip (pre rest : bytes) (v : Z) :
  ProtobufTcpServer._decode_varint (pre ++ ProtobufTcpServer._varint v ++ rest)
    (Z.of_nat (length pre))
  = Ok (wire_value v,
        Z.of_nat (length pre) + Z.of_nat (length (ProtobufTcpServer._varint v)))
  /\ (0 <= v -> wire_value v = v)
  /\ (1 <= length (ProtobufTcpServer._varint v))%nat.
Proof.
  split; [apply _decode_varint_at|]. split.
  - intros Hv. unfold wire_value. rewrite decide_False by lia. reflexivity.
  - rewrite _varint_wire. cbn [ProtobufTcpServer.varint_out].
    case_decide; cbn [length]; lia.
Qed.



(** ** Payload codec: fields *)

Lemma decode_varint_in (data pre rest : bytes) (v o : Z) :
  data = pre ++ ProtobufTcpServer._varint v ++ rest -> o = Z.of_nat (length pre) ->
  ProtobufTcpServer._decode_varint data o
  = Ok (wire_value v, o + Z.of_nat (length (ProtobufTcpServer._varint v))).
Proof. intros -> ->. apply _decode_varint_at. Qed.

Lemma wire_value_id (v : Z) : 0 <= v -> wire_value v = v.
Proof. intros Hv. unfold wire_value. rewrite decide_False by lia. reflexivity. Qed.

Lemma key_bits (n w : Z) :
  0 <= n -> 0 <= w < 8 ->
  0 <= Z.lor (Z.shiftl n 3) w
  /\ Z.shiftr (Z.lor (Z.shiftl n 3) w) 3 = n
  /\ Z.land (Z.lor (Z.shiftl n 3) w) 7 = w.
Proof.
  intros Hn Hw. split; [|split].
  - apply Z.lor_nonneg. split; [apply Z.shiftl_nonneg; lia|lia].
  - rewrite Z.shiftr_lor, Z.shiftr_shiftl_l by lia. rewrite Z.sub_diag, Z.shiftl_0_r.
    rewrite (Z.shiftr_div_pow2 w) by lia. rewrite Z.div_small by (cbn; lia).
    apply Z.lor_0_r.
  - rewrite Z.land_lor_distr_l. change 7 with (Z.ones 3). rewrite !Z.land_ones by lia.
    rewrite Z.shiftl_mul_pow2 by lia. rewrite Z.mod_mul by (cbn; lia).
    rewrite Z.mod_small by (cbn; lia). reflexivity.
Qed.

Lemma decode_field_in (data pre rest : bytes) (n w o : Z) :
  0 <= n -> 0 <= w < 8 ->
  data = pre ++ ProtobufTcpServer._key n w ++ rest -> o = Z.of_nat (length pre) ->
  ProtobufTcpServer._decode_field data o
  = Ok (n, w, o + Z.of_nat (length (ProtobufTcpServer._key n w))).
Proof.
  intros Hn Hw Hd Ho. unfold ProtobufTcpServer._decode_field, ProtobufTcpServer._key in *.
  destruct (key_bits n w Hn Hw) as (H0 & Hs & Hl).
  rewrite (decode_varint_in data pre rest _ o Hd Ho). cbn [rbind].
  rewrite wire_value_id by exact H0. rewrite Hs, Hl. reflexivity.
Qed.

Lemma slice_in {A} (pre d rest : list A) (o e : nat) :
  o = length pre -> e = (o + length d)%nat -> slice o e (pre ++ d ++ rest) = d.
Proof.
  intros -> ->. unfold slice. rewrite drop_app_length.
  replace (length pre + length d - length pre)%nat with (length d) by lia.
  apply take_app_length.
Qed.

Lemma decode_bytes_in (data pre rest d : bytes) (o : Z) :
  data = pre ++ ProtobufTcpServer._varint (Z.of_nat (length d)) ++ d ++ rest ->
  o = Z.of_nat (length pre) ->
  ProtobufTcpServer._decode_bytes data o
  = Ok (d, o + Z.of_nat (length (ProtobufTcpServer._varint (Z.of_nat (length d))))
           + Z.of_nat (length d)).
Proof.
  intros Hd Ho. unfold ProtobufTcpServer._decode_bytes.
  rewrite (decode_varint_in data pre _ _ o Hd Ho). cbn [rbind].
  rewrite wire_value_id by lia.
  set (lv := length (ProtobufTcpServer._varint (Z.of_nat (length d)))).
  assert (Z.of_nat (length data) = o + Z.of_nat lv + Z.of_nat (length d)
                                   + Z.of_nat (length rest)) as Hlen.
  { rewrite Hd, !length_app. fold lv. lia. }
  rewrite decide_False by lia. f_equal. f_equal.
  rewrite Hd, app_assoc. apply slice_in; [rewrite length_app; fold lv; lia|lia].
Qed.

Lemma utf8_decode_encode (s : string) :
  utf8_valid (utf8_encode s) = true -> utf8_decode (utf8_encode s) = Ok s.
Proof.
  intros H. unfold utf8_decode. rewrite H. unfold utf8_encode.
  rewrite string_of_list_byte_of_string. reflexivity.
Qed.

Lemma decode_string_in (data pre rest : bytes) (s : string) (o : Z) :
  utf8_valid (utf8_encode s) = true ->
  data = pre ++ ProtobufTcpServer._varint (Z.of_nat (length (utf8_encode s)))
             ++ utf8_encode s ++ rest ->
  o = Z.of_nat (length pre) ->
  ProtobufTcpServer._decode_string data o
  = Ok (s, o + Z.of_nat (length (ProtobufTcpServer._varint
                                   (Z.of_nat (length (utf8_encode s)))))
           + Z.of_nat (length (utf8_encode s))).
Proof.
  intros Hu Hd Ho. unfold ProtobufTcpServer._decode_string.
  rewrite (decode_varint_in data pre _ _ o Hd Ho). cbn [rbind].
  rewrite wire_value_id by lia.
  set (lv := length (ProtobufTcpServer._varint (Z.of_nat (length (utf8_encode s))))).
  assert (Z.of_nat (length data) = o + Z.of_nat lv + Z.of_nat (length (utf8_encode s))
                                   + Z.of_nat (length rest)) as Hlen.
  { rewrite Hd, !length_app. fold lv. lia. }
  rewrite decide_False by lia.
  replace (slice _ _ data) with (utf8_encode s).
  - rewrite (utf8_decode_encode s Hu). reflexivity.
  - symmetry. rewrite Hd, app_assoc. apply slice_in; [rewrite length_app; fold lv; lia|lia].
Qed.
Lemma encode_field_length (f : req_field) : (1 <= length (encode_field f))%nat.
Proof.
  assert (forall n w, 1 <= length (ProtobufTcpServer._key n w))%nat as Hk.
  { intros n w. unfold ProtobufTcpServer._key. rewrite _varint_wire.
    cbn [ProtobufTcpServer.varint_out]. case_decide; cbn [length]; lia. }
  destruct f; cbn [encode_field];
    unfold ProtobufTcpServer._encode_int, ProtobufTcpServer._encode_string,
      ProtobufTcpServer._encode_bytes, ProtobufTcpServer._encode_message,
      ProtobufTcpServer._encode_bool;
    rewrite length_app; match goal with |- context [ProtobufTcpServer._key ?n ?w] =>
      pose proof (Hk n w) end; lia.
Qed.

Lemma step_varint_field (data pre rest : bytes) (r : Request) (n v o : Z) :
  0 <= n -> 0 <= v ->
  data = pre ++ ProtobufTcpServer._encode_int n v ++ rest -> o = Z.of_nat (length pre) ->
  exists o1,
    ProtobufTcpServer._decode_field data o = Ok (n, 0, o1)
    /\ ProtobufTcpServer._decode_varint data o1
       = Ok (v, o + Z.of_nat (length (ProtobufTcpServer._encode_int n v))).
Proof.
  intros Hn Hv Hd Ho. unfold ProtobufTcpServer._encode_int in *.
  eexists. split.
  - apply (decode_field_in data pre (ProtobufTcpServer._varint v ++ rest) n 0 o Hn);
      [lia| |exact Ho]. rewrite Hd, <- app_assoc. reflexivity.
  - rewrite (decode_varint_in data (pre ++ ProtobufTcpServer._key n 0) rest v).
    + rewrite wire_value_id by exact Hv. f_equal. f_equal. rewrite length_app. lia.
    + rewrite Hd, <- !app_assoc. reflexivity.
    + rewrite length_app. lia.
Qed.

Lemma step_bytes_field (data pre rest d : bytes) (n o : Z) :
  0 <= n ->
  data = pre ++ ProtobufTcpServer._encode_bytes n d ++ rest -> o = Z.of_nat (length pre) ->
  exists o1,
    ProtobufTcpServer._decode_field data o = Ok (n, 2, o1)
    /\ ProtobufTcpServer._decode_bytes data o1
       = Ok (d, o + Z.of_nat (length (ProtobufTcpServer._encode_bytes n d))).
Proof.
  intros Hn Hd Ho. unfold ProtobufTcpServer._encode_bytes in *.
  eexists. split.
  - apply (decode_field_in data pre
             (ProtobufTcpServer._varint (Z.of_nat (length d)) ++ d ++ rest) n 2 o Hn);
      [lia| |exact Ho]. rewrite Hd, <- !app_assoc. reflexivity.
  - rewrite (decode_bytes_in data (pre ++ ProtobufTcpServer._key n 2) rest d).
    + f_equal. f_equal. rewrite !length_app. lia.
    + rewrite Hd, <- !app_assoc. reflexivity.
    + rewrite length_app. lia.
Qed.

Lemma step_string_field (data pre rest : bytes) (s : string) (n o : Z) :
  0 <= n -> utf8_valid (utf8_encode s) = true ->
  data = pre ++ ProtobufTcpServer._encode_string n s ++ rest -> o = Z.of_nat (length pre) ->
  exists o1,
    ProtobufTcpServer._decode_field data o = Ok (n, 2, o1)
    /\ ProtobufTcpServer._decode_string data o1
       = Ok (s, o + Z.of_nat (length (ProtobufTcpServer._encode_string n s))).
Proof.
  intros Hn Hu Hd Ho. unfold ProtobufTcpServer._encode_string in *. cbv zeta in *.
  eexists. split.
  - apply (decode_field_in data pre
             (ProtobufTcpServer._varint (Z.of_nat (length (utf8_encode s)))
                ++ utf8_encode s ++ rest) n 2 o Hn);
      [lia| |exact Ho]. rewrite Hd, <- !app_assoc. reflexivity.
  - rewrite (decode_string_in data (pre ++ ProtobufTcpServer._key n 2) rest s _ Hu).
    + f_equal. f_equal. rewrite !length_app. lia.
    + rewrite Hd, <- !app_assoc. reflexivity.
    + rewrite length_app. lia.
Qed.
Lemma entry_loop_pair (k v : string) :
  utf8_valid (utf8_encode k) = true -> utf8_valid (utf8_encode v) = true ->
  let entry := ProtobufTcpServer._encode_string 1 k ++ ProtobufTcpServer._encode_string 2 v in
  ProtobufTcpServer.entry_loop (length entry) entry 0 None None = Ok (Some k, Some v).
Proof.
  intros Hk Hv entry.
  pose proof (encode_field_length (F_string 1 k)) as H1.
  pose proof (encode_field_length (F_string 2 v)) as H2. cbn [encode_field] in H1, H2.
  assert (length entry = length (ProtobufTcpServer._encode_string 1 k)
                         + length (ProtobufTcpServer._encode_string 2 v))%nat as Hlen
    by (unfold entry; apply length_app).
  destruct (length entry) as [|[|fuel]] eqn:Hle; [lia|lia|].
  cbn [ProtobufTcpServer.entry_loop].
  rewrite decide_True by lia.
  destruct (step_string_field entry [] (ProtobufTcpServer._encode_string 2 v) k 1 0
              ltac:(lia) Hk eq_refl eq_refl) as (o1 & Hf1 & Hs1).
  rewrite Hf1. cbn [rbind]. rewrite decide_True by reflexivity.
  rewrite Hs1. cbn [rbind fst snd].
  destruct (step_string_field entry (ProtobufTcpServer._encode_string 1 k) [] v 2
              (0 + Z.of_nat (length (ProtobufTcpServer._encode_string 1 k)))
              ltac:(lia) Hv) as (o2 & Hf2 & Hs2).
  { unfold entry. rewrite app_nil_r. reflexivity. }
  { lia. }
  rewrite decide_True by lia.
  rewrite Hf2. cbn [rbind]. rewrite decide_False by lia. rewrite decide_True by reflexivity.
  rewrite Hs2. cbn [rbind fst snd].
  destruct fuel as [|fuel]; [reflexivity|].
  cbn [ProtobufTcpServer.entry_loop]. rewrite decide_False by lia. reflexivity.
Qed.

(** One turn of the loop of [decode_unified_request] on a field written
    with the encoder primitives: the field is stored and the offset is
    behind it. *)
Lemma decode_field_at_encoded (data pre rest : bytes) (r : Request) (f : req_field) (o : Z) :
  field_ok f ->
  data = pre ++ encode_field f ++ rest -> o = Z.of_nat (length pre) ->
  ProtobufTcpServer.decode_field_at data r o
  = Ok (Some (store_field r f, o + Z.of_nat (length (encode_field f)))).
Proof.
  intros Hok Hd Ho. unfold ProtobufTcpServer.decode_field_at.
  destruct f as [v|n s|b|k v|b|n v|n v|n b]; cbn [encode_field store_field field_ok] in *.
  - destruct (step_varint_field data pre rest r 1 v o ltac:(lia) Hok Hd Ho) as (o1 & -> & Hv).
    cbn [rbind]. rewrite decide_True by reflexivity. rewrite Hv. reflexivity.
  - destruct Hok as [Hn Hu].
    assert (0 <= n) as Hn0.
    { unfold string_store in Hn. repeat case_decide; try lia. destruct Hn as [? [=]]. }
    destruct (step_string_field data pre rest s n o Hn0 Hu Hd Ho) as (o1 & -> & Hs).
    cbn [rbind]. unfold ProtobufTcpServer.string_field. rewrite Hs. cbn [rbind fst snd].
    unfold string_store in *. field_chain; try reflexivity; destruct Hn as [? [=]].
  - destruct (step_bytes_field data pre rest b 4 o ltac:(lia) Hd Ho) as (o1 & -> & Hb).
    cbn [rbind]. field_chain. rewrite Hb. reflexivity.
  - destruct Hok as [Hk Hv].
    destruct (step_bytes_field data pre rest _ 6 o ltac:(lia) Hd Ho) as (o1 & -> & Hb).
    cbn [rbind]. field_chain.
    destruct (decide (2 <> 2)) as [|_]; [done|].
    unfold ProtobufTcpServer._encode_message in Hb |- *.
    unfold ProtobufTcpServer._encode_bytes in Hb. rewrite Hb. cbn [rbind].
    rewrite (entry_loop_pair k v Hk Hv). cbn [rbind].
    cbn [req_newPath set_options].
    destruct (decide (k = "newPath")) as [->|Hk1].
    + rewrite decide_True by (left; reflexivity). reflexivity.
    + destruct (decide (k = "targetPath" \/ k = "destinationPath")) as [Hk2|Hk2].
      * rewrite (decide_True (P := k = "newPath" \/ _)) by (right; exact Hk2).
        destruct (req_newPath r) as [p|] eqn:Hp.
        -- rewrite decide_False by (intros [_ [=]]). reflexivity.
        -- rewrite decide_True by (split; [exact Hk2|reflexivity]). reflexivity.
      * rewrite decide_False by (intros [? _]; contradiction).
        rewrite decide_False by (intros [?|?]; contradiction). reflexivity.
  - destruct (step_varint_field data pre rest r 7 (if b then 1 else 0) o ltac:(lia)
                ltac:(destruct b; lia) Hd Ho) as (o1 & -> & Hv).
    cbn [rbind]. field_chain. unfold ProtobufTcpServer._decode_bool.
    unfold ProtobufTcpServer._encode_bool. unfold ProtobufTcpServer._encode_int in Hv.
    rewrite Hv. cbn [rbind fst snd]. destruct b; reflexivity.
  - destruct Hok as [Hn Hv].
    assert (0 <= n) as Hn0.
    { unfold int_store in Hn. repeat case_decide; try lia. destruct Hn as [? [=]]. }
    destruct (step_varint_field data pre rest r n v o Hn0 Hv Hd Ho) as (o1 & -> & Hi).
    cbn [rbind]. unfold ProtobufTcpServer.int_field, ProtobufTcpServer._decode_int.
    rewrite Hi. cbn [rbind fst snd].
    unfold int_store in *. field_chain; try reflexivity; destruct Hn as [? [=]].
  - destruct Hok as [Hn Hv].
    destruct (step_varint_field data pre rest r n v o ltac:(lia) Hv Hd Ho) as (o1 & -> & Hi).
    cbn [rbind]. field_chain.
    unfold ProtobufTcpServer.skip_field. rewrite decide_True by reflexivity.
    rewrite Hi. reflexivity.
  - destruct (step_bytes_field data pre rest b n o ltac:(lia) Hd Ho) as (o1 & -> & Hb).
    cbn [rbind]. field_chain.
    unfold ProtobufTcpServer.skip_field. field_chain.
    rewrite Hb. reflexivity.
Qed.
Lemma decode_loop_end (fuel : nat) (data : bytes) (r : Request) (o : Z) :
  Z.of_nat (length data) <= o -> ProtobufTcpServer.decode_loop fuel data r o = r.
Proof.
  intros H. destruct fuel; [reflexivity|]. cbn [ProtobufTcpServer.decode_loop].
  rewrite decide_False by lia. reflexivity.
Qed.

Lemma decode_loop_encoded (fs : list req_field) :
  forall (data pre rest : bytes) (r : Request) (fuel : nat),
  Forall field_ok fs ->
  data = pre ++ encode_fields fs ++ rest ->
  (length (encode_fields fs) <= fuel)%nat ->
  ProtobufTcpServer.decode_loop fuel data r (Z.of_nat (length pre))
  = ProtobufTcpServer.decode_loop (fuel - length fs) data (fold_left store_field fs r)
      (Z.of_nat (length pre) + Z.of_nat (length (encode_fields fs))).
Proof.
  induction fs as [|f fs IH]; intros data pre rest r fuel Hok Hd Hfuel.
  - cbn. rewrite Nat.sub_0_r, Z.add_0_r. reflexivity.
  - apply list.Forall_cons in Hok as [Hf Hok].
    unfold encode_fields in *. cbn [fmap list_fmap concat] in *.
    change (list_fmap _ _ encode_field fs) with (encode_field <$> fs) in *.
    rewrite length_app in Hfuel |- *. pose proof (encode_field_length f) as Hl.
    destruct fuel as [|fuel]; [lia|]. cbn [ProtobufTcpServer.decode_loop].
    assert (Z.of_nat (length data)
            = Z.of_nat (length pre) + Z.of_nat (length (encode_field f))
              + Z.of_nat (length (concat (encode_field <$> fs))) + Z.of_nat (length rest))
      as Hlen by (rewrite Hd, !length_app; lia).
    rewrite decide_True by lia.
    rewrite (decode_field_at_encoded data pre (concat (encode_field <$> fs) ++ rest) r f _ Hf);
      [|rewrite Hd, <- !app_assoc; reflexivity|reflexivity].
    replace (Z.of_nat (length pre) + Z.of_nat (length (encode_field f)))
      with (Z.of_nat (length (pre ++ encode_field f))) by (rewrite length_app; lia).
    rewrite (IH data (pre ++ encode_field f) rest _ fuel Hok);
      [|rewrite Hd, <- !app_assoc; reflexivity|lia].
    cbn [fold_left length]. rewrite length_app. f_equal; lia.
Qed.

(** The decoder reads back what the encoder primitives write: a message
    that is composed of fields of the format, in any order and number, is
    decoded into the dictionary that holds their values, the last one for a
    field that occurs again; fields with unknown numbers are skipped. *)
Theorem decode_encoded_fields (fs : list req_field) :
  Forall field_ok fs ->
  ProtobufTcpServer.decode_unified_request (encode_fields fs)
  = fold_left store_field fs request_empty.
Proof.
  intros Hok. unfold ProtobufTcpServer.decode_unified_request.
  rewrite (decode_loop_encoded fs (encode_fields fs) [] [] request_empty _ Hok);
    [|rewrite app_nil_r; reflexivity|lia].
  apply decode_loop_end. cbn [length]. lia.
Qed.

Lemma decode_encoded_fields_witness :
  ProtobufTcpServer.decode_unified_request
    (encode_fields [F_operation 20; F_string 2 "/a.txt"; F_option "targetPath" "/b.txt";
                    F_other_int 40 7; F_string 2 "/c.txt"])
  = fold_left store_field
      [F_operation 20; F_string 2 "/a.txt"; F_option "targetPath" "/b.txt";
       F_other_int 40 7; F_string 2 "/c.txt"] request_empty.
Proof.
  apply (decode_encoded_fields
           [F_operation 20; F_string 2 "/a.txt"; F_option "targetPath" "/b.txt";
            F_other_int 40 7; F_string 2 "/c.txt"]).
  apply (bool_decide_unpack _). vm_compute. exact I.
Defined.

Lemma truncated_field_raises (data pre body : bytes) (r : Request) (n len o : Z) :
  length_delimited n -> 0 <= n -> Z.of_nat (length body) < len ->
  data = pre ++ ProtobufTcpServer._key n 2 ++ ProtobufTcpServer._varint len ++ body ->
  o = Z.of_nat (length pre) ->
  exists e, ProtobufTcpServer.decode_field_at data r o = Raise e.
Proof.
  intros Hn Hn0 Hlen Hd Ho. unfold ProtobufTcpServer.decode_field_at.
  rewrite (decode_field_in data pre (ProtobufTcpServer._varint len ++ body) n 2 o Hn0
             ltac:(lia) Hd Ho). cbn [rbind].
  set (o1 := o + Z.of_nat (length (ProtobufTcpServer._key n 2))).
  assert (ProtobufTcpServer._decode_varint data o1
          = Ok (len, o1 + Z.of_nat (length (ProtobufTcpServer._varint len)))) as Hv.
  { rewrite (decode_varint_in data (pre ++ ProtobufTcpServer._key n 2) body len).
    - rewrite wire_value_id by lia. reflexivity.
    - rewrite Hd, <- !app_assoc. reflexivity.
    - unfold o1. rewrite length_app. lia. }
  assert (Z.of_nat (length data)
          = o1 + Z.of_nat (length (ProtobufTcpServer._varint len)) + Z.of_nat (length body))
    as Hl by (rewrite Hd, !length_app; unfold o1; lia).
  assert (exists e, ProtobufTcpServer._decode_string data o1 = Raise e) as [es Hs].
  { unfold ProtobufTcpServer._decode_string. rewrite Hv. cbn [rbind].
    rewrite decide_True by lia. eauto. }
  assert (exists e, ProtobufTcpServer._decode_bytes data o1 = Raise e) as [eb Hb].
  { unfold ProtobufTcpServer._decode_bytes. rewrite Hv. cbn [rbind].
    rewrite decide_True by lia. eauto. }
  unfold ProtobufTcpServer.string_field, ProtobufTcpServer.skip_field.
  rewrite Hs, Hb. cbn [rbind].
  destruct (decide (2 <> 2)) as [|_]; [done|].
  destruct Hn as [Hn|[->|[->|[->|Hn]]]].
  - field_chain; eauto; subst n; destruct Hn as [? Hn]; vm_compute in Hn; discriminate.
  - field_chain; eauto.
  - field_chain; eauto.
  - field_chain; eauto.
  - field_chain; eauto.
Qed.

(** A message that ends inside a length-delimited field keeps the fields
    in front of it: when the length written for the last field is more
    than the bytes that follow, the decoder drops this field and returns
    the dictionary of the fields before, without an exception. *)
Theorem decode_truncated_field (fs : list req_field) (n len : Z) (body : bytes) :
  Forall field_ok fs -> length_delimited n -> 0 <= n -> Z.of_nat (length body) < len ->
  ProtobufTcpServer.decode_unified_request
    (encode_fields fs ++ ProtobufTcpServer._key n 2 ++ ProtobufTcpServer._varint len ++ body)
  = fold_left store_field fs request_empty.
Proof.
  intros Hok Hn Hn0 Hlen. unfold ProtobufTcpServer.decode_unified_request.
  set (tail := ProtobufTcpServer._key n 2 ++ ProtobufTcpServer._varint len ++ body).
  set (data := encode_fields fs ++ tail).
  assert (1 <= length tail)%nat as Ht.
  { unfold tail. rewrite length_app.
    pose proof (encode_field_length (F_other_bytes n [])) as H. cbn [encode_field] in H.
    unfold ProtobufTcpServer._encode_bytes in H. rewrite length_app in H.
    unfold ProtobufTcpServer._key in *. rewrite _varint_wire in *.
    cbn [ProtobufTcpServer.varint_out] in *. case_decide; cbn [length]; lia. }
  assert (length fs <= length (encode_fields fs))%nat as Hfs.
  { clear. induction fs as [|f fs IH]; [cbn; lia|].
    unfold encode_fields in *. cbn [fmap list_fmap concat length].
    rewrite length_app. pose proof (encode_field_length f).
    change (list_fmap _ _ encode_field fs) with (encode_field <$> fs). lia. }
  rewrite (decode_loop_encoded fs data [] tail request_empty _ Hok);
    [|reflexivity|unfold data; rewrite length_app; lia].
  cbn [length]. rewrite Z.add_0_l.
  assert (length data = length (encode_fields fs) + length tail)%nat as Hd
    by (unfold data; apply length_app).
  destruct (length data - length fs)%nat as [|fuel] eqn:Hfuel; [lia|].
  cbn [ProtobufTcpServer.decode_loop]. rewrite decide_True by lia.
  destruct (truncated_field_raises data (encode_fields fs) body
              (fold_left store_field fs request_empty) n len _ Hn Hn0 Hlen eq_refl eq_refl)
    as [e ->].
  reflexivity.
Qed.

Lemma decode_truncated_field_witness :
  ProtobufTcpServer.decode_unified_request
    (encode_fields [F_operation 49; F_option "sessionId" "s1"]
       ++ ProtobufTcpServer._key 4 2 ++ ProtobufTcpServer._varint 100 ++ [x41; x42])
  = fold_left store_field [F_operation 49; F_option "sessionId" "s1"] request_empty.
Proof.
  apply (decode_truncated_field [F_operation 49; F_option "sessionId" "s1"] 4 100 [x41; x42]).
  - apply (bool_decide_unpack _). vm_compute. exact I.
  - apply (bool_decide_unpack _). vm_compute. exact I.
  - lia.
  - vm_compute. reflexivity.
Defined.
